(** * CCodec: the control plane of the Codec2 wrapper

    A shallow embedding of [media/libstagefright/CCodec.cpp]: the lifecycle
    state machine of the controller, the message handler that runs the
    workers on the looper thread, the work-done queue and the deadline the
    watchdog polls.

    The collaborators of the controller (client callback sink, buffer
    channel, component, component store) are opaque in the source; every
    call into them is recorded, in program order, in a trace.  What they
    answer (a status, a component, the flushed work, the clock) is an input
    of the worker that asks. *)

From stdpp Require Import gmap strings list.
From Stdlib Require Import ZArith Ascii String Lia.

Set Warnings "-register-all".
Open Scope Z_scope.

(** ** Foundation types *)

(** Modelled from the spec: the error codes [OK], [BAD_VALUE],
    [INVALID_OPERATION], [ERROR_UNSUPPORTED], [UNKNOWN_ERROR] and the
    component's [C2_OK].  [status_t] and [c2_status_t] are 32-bit integer
    codes; their declarations are in headers outside the embedded files,
    and the values taken here are those of [utils/Errors.h] and
    [MediaErrors.h]: [OK = 0], [BAD_VALUE = -EINVAL],
    [INVALID_OPERATION = -ENOSYS], [UNKNOWN_ERROR = INT32_MIN],
    [ERROR_UNSUPPORTED = MEDIA_ERROR_BASE - 10].  A component status is
    passed to the client as the integer it is, as the source does. *)
Abbreviation status_t := Z (only parsing).
Abbreviation c2_status_t := Z (only parsing).

Definition OK : status_t := 0.
Definition BAD_VALUE : status_t := -22.
Definition INVALID_OPERATION : status_t := -38.
Definition UNKNOWN_ERROR : status_t := -2147483648.
Definition ERROR_UNSUPPORTED : status_t := -1010.
Definition C2_OK : c2_status_t := 0.

(** Modelled from the spec: the action codes, of which the controller
    uses [ACTION_CODE_FATAL] only. *)
Inductive ActionCode : Set :=
| ACTION_CODE_FATAL
| ACTION_CODE_TRANSIENT
| ACTION_CODE_RECOVERABLE.

(** [std::chrono::steady_clock::time_point]: a signed 64-bit tick count,
    in nanoseconds.  [now + 150ms] is computed without wrap-around (signed
    overflow is undefined in the source and out of reach for a clock). *)
Abbreviation TimePoint := Z (only parsing).

Definition TimePoint_max : TimePoint := 2 ^ 63 - 1.
Definition ms (n : Z) : Z := n * 1000000.

Module AString.

(** [tolower] in the C locale. *)
Definition tolower (c : ascii) : ascii :=
  let n := nat_of_ascii c in
  if (Nat.leb 65 n && Nat.leb n 90)%bool then ascii_of_nat (n + 32) else c.

(** Modelled from the spec: the test whether the supplied mime starts
    with "audio/".  The source makes it with
    [AString::startsWithIgnoreCase], which is defined in the foundation
    library outside the embedded files; it is taken here for what its name
    says, [!strncasecmp(mData, prefix, strlen(prefix))]: the prefix is
    compared character by character after [tolower]. *)
Fixpoint startsWithIgnoreCase (s prefix : string) : bool :=
  match prefix with
  | EmptyString => true
  | String p prefix' =>
      match s with
      | EmptyString => false
      | String c s' =>
          if Ascii.eqb (tolower c) (tolower p)
          then startsWithIgnoreCase s' prefix'
          else false
      end
  end.

(** The test as the specification words it: a plain prefix. *)
Definition startsWith (s prefix : string) : bool := String.prefix prefix s.

End AString.

(** Modelled from the spec: [AMessage], the key to value property bag of
    formats and of message payloads (strings, integers, opaque object
    handles, nested bags).  A name occurs once; setting it again replaces
    the item; a [find] of one type does not see an item of another. *)
Inductive Item : Type :=
| kTypeInt32 (v : Z)
| kTypeString (v : string)
| kTypeObject (v : nat)
| kTypeMessage (v : gmap string Item).

Abbreviation AMessage := (gmap string Item) (only parsing).

Module AMessage.

Definition findString (name : string) (msg : AMessage) : option string :=
  match msg !! name with Some (kTypeString v) => Some v | _ => None end.

Definition findInt32 (name : string) (msg : AMessage) : option Z :=
  match msg !! name with Some (kTypeInt32 v) => Some v | _ => None end.

Definition findObject (name : string) (msg : AMessage) : option nat :=
  match msg !! name with Some (kTypeObject v) => Some v | _ => None end.

Definition findMessage (name : string) (msg : AMessage) : option AMessage :=
  match msg !! name with Some (kTypeMessage v) => Some v | _ => None end.

Definition setString (name v : string) (msg : AMessage) : AMessage :=
  <[name := kTypeString v]> msg.

Definition setInt32 (name : string) (v : Z) (msg : AMessage) : AMessage :=
  <[name := kTypeInt32 v]> msg.

Definition setObject (name : string) (v : nat) (msg : AMessage) : AMessage :=
  <[name := kTypeObject v]> msg.

Definition setMessage (name : string) (v : AMessage) (msg : AMessage)
  : AMessage :=
  <[name := kTypeMessage v]> msg.

End AMessage.

(** ** The collaborators, by the calls made into them *)

(** A component: its identity and the name its interface reports. *)
Record C2Component : Set := { comp_id : nat; intf_getName : string }.

(** A unit of work, owned by whoever holds it. *)
Abbreviation C2Work := nat (only parsing).

Module Callback.
(** The client callback sink, [CodecBase::CodecCallback]. *)
Inductive event : Type :=
| onComponentAllocated (componentName : string)
| onComponentConfigured (inputFormat outputFormat : AMessage)
| onInputSurfaceCreated (inputFormat outputFormat : option AMessage)
    (producer : nat)
| onInputSurfaceCreationFailed (err : status_t)
| onInputSurfaceDeclined (err : status_t)
| onStartCompleted
| onStopCompleted
| onReleaseCompleted
| onFlushCompleted
| onError (err : status_t) (actionCode : ActionCode).
End Callback.

Module Channel.
(** Calls into [CCodecBufferChannel]. *)
Inductive call : Type :=
| setComponent (comp : C2Component)
| setSurface (surface : nat)
| setGraphicBufferSource (source : nat)
| start (inputFormat outputFormat : option AMessage)
| stop
| flush (flushedWork : list C2Work)
| onWorkDone (work : C2Work).
End Channel.

Module Component.
(** Calls into a [C2Component]. *)
Inductive call : Set :=
| setListener_vb
| start
| stop
| release
| flush_sm.
End Component.

Inductive Event : Type :=
| Client (e : Callback.event)
| ToChannel (c : Channel.call)
| ToComponent (comp : C2Component) (c : Component.call)
| ToStore_createComponent (componentName : string).

(** ** The controller *)

(** Modelled from the spec: the lifecycle states, which the class
    declaration enumerates and the source names. *)
Inductive state_t : Set :=
| RELEASED
| ALLOCATING
| ALLOCATED
| STARTING
| RUNNING
| FLUSHING
| FLUSHED
| RESUMING
| STOPPING
| RELEASING.

Definition state_eqb (a b : state_t) : bool :=
  match a, b with
  | RELEASED, RELEASED | ALLOCATING, ALLOCATING | ALLOCATED, ALLOCATED
  | STARTING, STARTING | RUNNING, RUNNING | FLUSHING, FLUSHING
  | FLUSHED, FLUSHED | RESUMING, RESUMING | STOPPING, STOPPING
  | RELEASING, RELEASING => true
  | _, _ => false
  end.

(** [mState]: the lifecycle value together with the component handle. *)
Record State : Set := { get : state_t; comp : option C2Component }.

(** [mFormats]: both are null until the first successful configure. *)
Record Formats : Type :=
  { inputFormat : option AMessage; outputFormat : option AMessage }.

(** Modelled from the spec: the kinds of message of the controller's
    handler, which the class declaration enumerates and the source names;
    [kWhatUnrecognized] stands for any other value, the [default] of the
    [switch]. *)
Inductive What : Set :=
| kWhatAllocate
| kWhatConfigure
| kWhatStart
| kWhatFlush
| kWhatStop
| kWhatCreateInputSurface
| kWhatSetInputSurface
| kWhatWorkDone
| kWhatUnrecognized.

Record Message : Type := { what : What; items : AMessage }.

(** The controller, and what it has done to the world so far:
    [trace] the calls into the collaborators, oldest first; [looper] the
    messages posted to its handler and not yet delivered; [detached] the
    release threads it has started, by their [sendCallback] argument. *)
Record CCodec : Type :=
  { mState : State;
    mFormats : Formats;
    mDeadline : TimePoint;
    mWorkDoneQueue : list C2Work;
    mListener : bool;
    trace : list Event;
    looper : list Message;
    detached : list bool }.

Definition with_mState (v : State) (s : CCodec) : CCodec :=
  {| mState := v; mFormats := mFormats s; mDeadline := mDeadline s;
     mWorkDoneQueue := mWorkDoneQueue s; mListener := mListener s;
     trace := trace s; looper := looper s; detached := detached s |}.

Definition with_mFormats (v : Formats) (s : CCodec) : CCodec :=
  {| mState := mState s; mFormats := v; mDeadline := mDeadline s;
     mWorkDoneQueue := mWorkDoneQueue s; mListener := mListener s;
     trace := trace s; looper := looper s; detached := detached s |}.

Definition with_mWorkDoneQueue (v : list C2Work) (s : CCodec) : CCodec :=
  {| mState := mState s; mFormats := mFormats s; mDeadline := mDeadline s;
     mWorkDoneQueue := v; mListener := mListener s;
     trace := trace s; looper := looper s; detached := detached s |}.

Definition with_mListener (v : bool) (s : CCodec) : CCodec :=
  {| mState := mState s; mFormats := mFormats s; mDeadline := mDeadline s;
     mWorkDoneQueue := mWorkDoneQueue s; mListener := v;
     trace := trace s; looper := looper s; detached := detached s |}.

Definition record (e : Event) (s : CCodec) : CCodec :=
  {| mState := mState s; mFormats := mFormats s; mDeadline := mDeadline s;
     mWorkDoneQueue := mWorkDoneQueue s; mListener := mListener s;
     trace := trace s ++ [e]; looper := looper s; detached := detached s |}.

(** [state->set(v)] and [state->comp = c]. *)
Definition set (v : state_t) (s : CCodec) : CCodec :=
  with_mState {| get := v; comp := comp (mState s) |} s.

Definition set_comp (c : option C2Component) (s : CCodec) : CCodec :=
  with_mState {| get := get (mState s); comp := c |} s.

(** [mCallback->e], [mChannel->c], [comp->c]. *)
Definition mCallback (e : Callback.event) : CCodec -> CCodec :=
  record (Client e).

Definition mChannel (c : Channel.call) : CCodec -> CCodec :=
  record (ToChannel c).

Definition call (c : C2Component) (m : Component.call) : CCodec -> CCodec :=
  record (ToComponent c m).

(** [(new AMessage(what, this))->post()]: delivery is in posting order. *)
Definition post (msg : Message) (s : CCodec) : CCodec :=
  {| mState := mState s; mFormats := mFormats s; mDeadline := mDeadline s;
     mWorkDoneQueue := mWorkDoneQueue s; mListener := mListener s;
     trace := trace s; looper := looper s ++ [msg]; detached := detached s |}.

(** [std::thread([this, sendCallback] { release(sendCallback); }).detach()] *)
Definition detach_release (sendCallback : bool) (s : CCodec) : CCodec :=
  {| mState := mState s; mFormats := mFormats s; mDeadline := mDeadline s;
     mWorkDoneQueue := mWorkDoneQueue s; mListener := mListener s;
     trace := trace s; looper := looper s;
     detached := detached s ++ [sendCallback] |}.

Definition setDeadline (newDeadline : TimePoint) (s : CCodec) : CCodec :=
  {| mState := mState s; mFormats := mFormats s; mDeadline := newDeadline;
     mWorkDoneQueue := mWorkDoneQueue s; mListener := mListener s;
     trace := trace s; looper := looper s; detached := detached s |}.

(** ** Threads of atomic blocks

    A member function is a sequence of blocks, each of which runs without
    another thread of the controller in between: a scope that holds one of
    the [Mutexed] locks, or one call into a collaborator.  Between two
    blocks any other thread may run.  [Abort] is the end of the process: a
    failed [CHECK], or a call through a null component pointer. *)
Inductive Thread : Type :=
| Return
| Abort
| Atomic {A : Type} (block : CCodec -> A * CCodec) (k : A -> Thread).

Declare Scope thread_scope.
Delimit Scope thread_scope with thread.
Bind Scope thread_scope with Thread.

Notation "x <- 'locked' b ; t" := (Atomic b (fun x => t%thread))
  (at level 10, b at level 100, t at level 200,
   format "'[v' x  <-  'locked'  b ; '/' t ']'") : thread_scope.
Notation "'do' f ; t" := (Atomic (fun s => (tt, f s)) (fun _ => t%thread))
  (at level 10, f at level 100, t at level 200,
   format "'[v' 'do'  f ; '/' t ']'") : thread_scope.

(** One thread after another, as statements in sequence. *)
Fixpoint seq (t u : Thread) : Thread :=
  match t with
  | Return => u
  | Abort => Abort
  | Atomic b k => Atomic b (fun a => seq (k a) u)
  end.

Inductive Outcome : Type :=
| Finished (s : CCodec)
| Aborted (s : CCodec).

(** A thread run to its end with no other thread in between. *)
Fixpoint run (t : Thread) (s : CCodec) : Outcome :=
  match t with
  | Return => Finished s
  | Abort => Aborted s
  | Atomic b k => let (a, s') := b s in run (k a) s'
  end.

(** The next atomic block of a thread, and what is left of the thread. *)
Definition step (t : Thread) (s : CCodec) : Thread * CCodec :=
  match t with
  | Atomic b k => let (a, s') := b s in (k a, s')
  | _ => (t, s)
  end.

Fixpoint steps (n : nat) (t : Thread) (s : CCodec) : Thread * CCodec :=
  match n with
  | O => (t, s)
  | S n' => let (t', s') := step t s in steps n' t' s'
  end.

(** ** The member functions of [CCodec] *)

Import Callback.
Open Scope thread_scope.

Definition initiateAllocateComponent (msg : AMessage) : Thread :=
  ok <- locked (fun s =>
      if negb (state_eqb (get (mState s)) RELEASED)
      then (false, mCallback (onError INVALID_OPERATION ACTION_CODE_FATAL) s)
      else (true, set ALLOCATING s));
  if ok : bool then
    let componentName := default ""%string (AMessage.findString "componentName" msg) in
    do post {| what := kWhatAllocate;
               items := AMessage.setString "componentName" componentName ∅ |};
    Return
  else Return.

(** [createComponent] answers [(err, comp)]. *)
Definition allocate (componentName : string)
    (created : c2_status_t * option C2Component) : Thread :=
  do with_mListener true;
  do record (ToStore_createComponent componentName);
  let (err, comp) := created in
  if negb (err =? C2_OK) then
    do set RELEASED;
    do mCallback (onError err ACTION_CODE_FATAL);
    Return
  else
    match comp with
    | None => Abort
    | Some c =>
        do call c Component.setListener_vb;
        ok <- locked (fun s =>
            if negb (state_eqb (get (mState s)) ALLOCATING)
            then (false, set RELEASED s)
            else (true, set_comp (Some c) (set ALLOCATED s)));
        if ok : bool then
          do mChannel (Channel.setComponent c);
          do mCallback (onComponentAllocated (intf_getName c));
          Return
        else
          do mCallback (onError UNKNOWN_ERROR ACTION_CODE_FATAL);
          Return
    end.

Definition initiateConfigureComponent (format : AMessage) : Thread :=
  ok <- locked (fun s =>
      if negb (state_eqb (get (mState s)) ALLOCATED)
      then (false, mCallback (onError UNKNOWN_ERROR ACTION_CODE_FATAL) s)
      else (true, s));
  if ok : bool then
    do post {| what := kWhatConfigure;
               items := AMessage.setMessage "format" format ∅ |};
    Return
  else Return.

Definition setSurface (surface : nat) : CCodec -> CCodec :=
  mChannel (Channel.setSurface surface).

(** ["%s/raw"] printed with ["audio"] or ["video"]. *)
Definition raw_mime (audio : bool) : string :=
  ((if audio then "audio" else "video") ++ "/raw")%string.

(** The two formats the lambda of [configure] fills in, for a message that
    has a [mime]. *)
Definition configure_formats (mime : string) (encoder : Z)
    : AMessage * AMessage :=
  let inputFormat : AMessage := ∅ in
  let outputFormat : AMessage := ∅ in
  let audio := AString.startsWithIgnoreCase mime "audio/" in
  if negb (encoder =? 0) then
    let outputFormat := AMessage.setString "mime" mime outputFormat in
    let inputFormat := AMessage.setString "mime" (raw_mime audio) inputFormat in
    if audio then
      let inputFormat := AMessage.setInt32 "channel-count" 1 inputFormat in
      let inputFormat := AMessage.setInt32 "sample-rate" 44100 inputFormat in
      let outputFormat := AMessage.setInt32 "channel-count" 1 outputFormat in
      let outputFormat := AMessage.setInt32 "sample-rate" 44100 outputFormat in
      (inputFormat, outputFormat)
    else
      let outputFormat := AMessage.setInt32 "width" 1080 outputFormat in
      let outputFormat := AMessage.setInt32 "height" 1920 outputFormat in
      (inputFormat, outputFormat)
  else
    let inputFormat := AMessage.setString "mime" mime inputFormat in
    let outputFormat := AMessage.setString "mime" (raw_mime audio) outputFormat in
    if audio then
      let outputFormat := AMessage.setInt32 "channel-count" 2 outputFormat in
      let outputFormat := AMessage.setInt32 "sample-rate" 44100 outputFormat in
      (inputFormat, outputFormat)
    else (inputFormat, outputFormat).

(** In [if (status_t err = [=] {...}() != OK)] the initializer of [err] is
    the comparison, so [err] is 1 where the lambda returns [BAD_VALUE]. *)
Definition configure (msg : AMessage) : Thread :=
  match AMessage.findString "mime" msg with
  | None =>
      let err : status_t := if negb (BAD_VALUE =? OK) then 1 else 0 in
      do mCallback (onError err ACTION_CODE_FATAL);
      Return
  | Some mime =>
      let encoder := default 0 (AMessage.findInt32 "encoder" msg) in
      let (inputFormat, outputFormat) := configure_formats mime encoder in
      let publish :=
        do with_mFormats {| inputFormat := Some inputFormat;
                            outputFormat := Some outputFormat |};
        do mCallback (onComponentConfigured inputFormat outputFormat);
        Return in
      match AMessage.findObject "native-window" msg with
      | Some surface => do setSurface surface; publish
      | None => publish
      end
  end.

Definition initiateCreateInputSurface : Thread :=
  do post {| what := kWhatCreateInputSurface; items := ∅ |};
  Return.

(** A new [GraphicBufferSource]: the object, what its [initCheck] answers
    and the producer it hands out. *)
Record GraphicBufferSource : Set :=
  { source_id : nat; initCheck : status_t; getIGraphicBufferProducer : nat }.

Definition createInputSurface (source : GraphicBufferSource)
    (setGraphicBufferSource_err : status_t) : Thread :=
  let err := initCheck source in
  if negb (err =? OK) then
    do mCallback (onInputSurfaceCreationFailed err);
    Return
  else
    let producer := getIGraphicBufferProducer source in
    do mChannel (Channel.setGraphicBufferSource (source_id source));
    let err := setGraphicBufferSource_err in
    if negb (err =? OK) then
      do mCallback (onInputSurfaceCreationFailed err);
      Return
    else
      formats <- locked (fun s => (mFormats s, s));
      do mCallback (onInputSurfaceCreated (inputFormat formats)
                      (outputFormat formats) producer);
      Return.

Definition initiateSetInputSurface (surface : nat) : Thread :=
  do post {| what := kWhatSetInputSurface;
             items := AMessage.setObject "surface" surface ∅ |};
  Return.

Definition setInputSurface (surface : nat) : Thread :=
  do mCallback (onInputSurfaceDeclined ERROR_UNSUPPORTED);
  Return.

Definition initiateStart : Thread :=
  ok <- locked (fun s =>
      if negb (state_eqb (get (mState s)) ALLOCATED)
      then (false, s)
      else (true, set STARTING s));
  if ok : bool then
    do post {| what := kWhatStart; items := ∅ |};
    Return
  else
    do mCallback (onError UNKNOWN_ERROR ACTION_CODE_FATAL);
    Return.

(** [start_err] is what [comp->start()] answers. *)
Definition start (start_err : c2_status_t) : Thread :=
  r <- locked (fun s =>
      if negb (state_eqb (get (mState s)) STARTING)
      then (None, s)
      else (Some (comp (mState s)), s));
  match r with
  | None =>
      do mCallback (onError UNKNOWN_ERROR ACTION_CODE_FATAL);
      Return
  | Some None => Abort
  | Some (Some c) =>
      do call c Component.start;
      if negb (start_err =? C2_OK) then
        do mCallback (onError UNKNOWN_ERROR ACTION_CODE_FATAL);
        Return
      else
        formats <- locked (fun s => (mFormats s, s));
        do mChannel (Channel.start (inputFormat formats) (outputFormat formats));
        ok <- locked (fun s =>
            if negb (state_eqb (get (mState s)) STARTING)
            then (false, s)
            else (true, set RUNNING s));
        if ok : bool then
          do mCallback onStartCompleted;
          Return
        else
          do mCallback (onError UNKNOWN_ERROR ACTION_CODE_FATAL);
          Return
  end.

Definition initiateStop : Thread :=
  ok <- locked (fun s =>
      let state := get (mState s) in
      if (state_eqb state ALLOCATED || state_eqb state RELEASED
          || state_eqb state STOPPING || state_eqb state RELEASING)%bool
      then (false, s)
      else (true, set STOPPING s));
  if ok : bool then
    do post {| what := kWhatStop; items := ∅ |};
    Return
  else
    do mCallback onStopCompleted;
    Return.

(** What a worker finds when it first looks at the state: its work is
    done already, the state is not the one it is for, or it may go on with
    what it read under the lock. *)
Inductive Entered (A : Type) : Type :=
| AlreadyDone
| WrongState
| Go (c : A).
Arguments AlreadyDone {A}.
Arguments WrongState {A}.
Arguments Go {A} c.

(** [stop_err] is what [comp->stop()] answers. *)
Definition stop (stop_err : c2_status_t) : Thread :=
  r <- locked (fun s =>
      if state_eqb (get (mState s)) RELEASING then (AlreadyDone, s)
      else if negb (state_eqb (get (mState s)) STOPPING) then (WrongState, s)
      else (Go (comp (mState s)), s));
  match r with
  | AlreadyDone =>
      do mCallback onStopCompleted;
      Return
  | WrongState =>
      do mCallback (onError UNKNOWN_ERROR ACTION_CODE_FATAL);
      Return
  | Go comp =>
      do mChannel Channel.stop;
      match comp with
      | None => Abort
      | Some c =>
          do call c Component.stop;
          let reported :=
            do (fun s => if state_eqb (get (mState s)) STOPPING
                         then set ALLOCATED s else s);
            do mCallback onStopCompleted;
            Return in
          if negb (stop_err =? C2_OK) then
            do mCallback (onError UNKNOWN_ERROR ACTION_CODE_FATAL);
            reported
          else reported
      end
  end.

(** The locked scope answers whether a release thread is to be started:
    not where the controller is released or releasing already, and not
    where it is allocating (the comment there: with the altered state
    [allocate] would fail and clean up). *)
Definition initiateRelease (sendCallback : bool) : Thread :=
  spawn <- locked (fun s =>
      let state := get (mState s) in
      if (state_eqb state RELEASED || state_eqb state RELEASING)%bool
      then (false, s)
      else if state_eqb state ALLOCATING
      then (false, set RELEASING s)
      else (true, set RELEASING s));
  if spawn : bool then
    do detach_release sendCallback;
    Return
  else
    if sendCallback then
      do mCallback onReleaseCompleted;
      Return
    else Return.

Definition release (sendCallback : bool) : Thread :=
  r <- locked (fun s =>
      if state_eqb (get (mState s)) RELEASED then (None, s)
      else (Some (comp (mState s)), s));
  match r with
  | None =>
      if sendCallback then
        do mCallback onReleaseCompleted;
        Return
      else Return
  | Some comp =>
      do mChannel Channel.stop;
      match comp with
      | None => Abort
      | Some c =>
          do call c Component.release;
          do (fun s => set_comp None (set RELEASED s));
          if sendCallback then
            do mCallback onReleaseCompleted;
            Return
          else Return
      end
  end.

Definition initiateShutdown (keepComponentAllocated : bool) : Thread :=
  if keepComponentAllocated then initiateStop else initiateRelease true.

Definition signalFlush : Thread :=
  ok <- locked (fun s =>
      if negb (state_eqb (get (mState s)) RUNNING)
      then (false, mCallback (onError UNKNOWN_ERROR ACTION_CODE_FATAL) s)
      else (true, set FLUSHING s));
  if ok : bool then
    do post {| what := kWhatFlush; items := ∅ |};
    Return
  else Return.

(** [flushed] is what [comp->flush_sm] answers: a status and the work the
    component gives back. *)
Definition flush (flushed : c2_status_t * list C2Work) : Thread :=
  r <- locked (fun s =>
      if negb (state_eqb (get (mState s)) FLUSHING)
      then (None, s)
      else (Some (comp (mState s)), s));
  match r with
  | None =>
      do mCallback (onError UNKNOWN_ERROR ACTION_CODE_FATAL);
      Return
  | Some comp =>
      do mChannel Channel.stop;
      match comp with
      | None => Abort
      | Some c =>
          do call c Component.flush_sm;
          let (err, flushedWork) := flushed in
          let rest :=
            do mChannel (Channel.flush flushedWork);
            do set FLUSHED;
            do mCallback onFlushCompleted;
            Return in
          if negb (err =? C2_OK) then
            do mCallback (onError UNKNOWN_ERROR ACTION_CODE_FATAL);
            rest
          else rest
      end
  end.

Definition signalResume : Thread :=
  ok <- locked (fun s =>
      if negb (state_eqb (get (mState s)) FLUSHED)
      then (false, s)
      else (true, set RESUMING s));
  if ok : bool then
    do mChannel (Channel.start None None);
    ok <- locked (fun s =>
        if negb (state_eqb (get (mState s)) RESUMING)
        then (false, s)
        else (true, set RUNNING s));
    if ok : bool then Return
    else
      do mCallback (onError UNKNOWN_ERROR ACTION_CODE_FATAL);
      Return
  else
    do mCallback (onError UNKNOWN_ERROR ACTION_CODE_FATAL);
    Return.

Definition signalSetParameters (msg : AMessage) : Thread := Return.
Definition signalEndOfInputStream : Thread := Return.
Definition signalRequestIDRFrame : Thread := Return.

(** The listener's entry: the items go to the back of the queue and a
    [kWhatWorkDone] is posted, all under the queue's lock. *)
Definition onWorkDone (workItems : list C2Work) : Thread :=
  do (fun s =>
        post {| what := kWhatWorkDone; items := ∅ |}
          (with_mWorkDoneQueue (mWorkDoneQueue s ++ workItems) s));
  Return.

(** What the collaborators and the clock answer while one message is
    handled. *)
Record Answers : Type :=
  { now : TimePoint;
    createComponent : c2_status_t * option C2Component;
    start_answer : c2_status_t;
    stop_answer : c2_status_t;
    flush_answer : c2_status_t * list C2Work;
    new_GraphicBufferSource : GraphicBufferSource;
    setGraphicBufferSource_answer : status_t }.

(** The body of the [switch]; a [break] ends it. *)
Definition onMessageReceived_switch (w : Answers) (msg : Message) : Thread :=
  match what msg with
  | kWhatAllocate =>
      do setDeadline (now w + ms 150);
      match AMessage.findString "componentName" (items msg) with
      | None => Abort
      | Some componentName => allocate componentName (createComponent w)
      end
  | kWhatConfigure =>
      do setDeadline (now w + ms 50);
      match AMessage.findMessage "format" (items msg) with
      | None => Abort
      | Some format => configure format
      end
  | kWhatStart =>
      do setDeadline (now w + ms 550);
      start (start_answer w)
  | kWhatStop =>
      do setDeadline (now w + ms 550);
      stop (stop_answer w)
  | kWhatFlush =>
      do setDeadline (now w + ms 50);
      flush (flush_answer w)
  | kWhatCreateInputSurface =>
      do setDeadline (now w + ms 100);
      createInputSurface (new_GraphicBufferSource w)
        (setGraphicBufferSource_answer w)
  | kWhatSetInputSurface =>
      do setDeadline (now w + ms 100);
      match AMessage.findObject "surface" (items msg) with
      | None => Abort
      | Some surface => setInputSurface surface
      end
  | kWhatWorkDone =>
      work <- locked (fun s =>
          match mWorkDoneQueue s with
          | [] => (None, s)
          | front :: queue =>
              let s := with_mWorkDoneQueue queue s in
              (Some front,
               match queue with
               | [] => s
               | _ :: _ => post {| what := kWhatWorkDone; items := ∅ |} s
               end)
          end);
      match work with
      | None => Return
      | Some work =>
          do mChannel (Channel.onWorkDone work);
          Return
      end
  | kWhatUnrecognized => Return
  end.

Definition onMessageReceived (w : Answers) (msg : Message) : Thread :=
  seq (onMessageReceived_switch w msg)
      (do setDeadline TimePoint_max; Return).

(** [now] is the clock read under the deadline's lock. *)
Definition initiateReleaseIfStuck (now : TimePoint) : Thread :=
  stuck <- locked (fun s => (negb (now <=? mDeadline s), s));
  if stuck : bool then
    do mCallback (onError UNKNOWN_ERROR ACTION_CODE_FATAL);
    initiateRelease true
  else Return.

(** A controller as its constructor leaves it: [RELEASED], no component,
    null formats, nothing queued.  The constructor in the source does not
    initialize [mDeadline]; what the member's own initializer gives it is
    decided in the class declaration, so the first deadline is an
    argument here. *)
Definition CCodec_new (deadline : TimePoint) : CCodec :=
  {| mState := {| get := RELEASED; comp := None |};
     mFormats := {| inputFormat := None; outputFormat := None |};
     mDeadline := deadline;
     mWorkDoneQueue := [];
     mListener := false;
     trace := [];
     looper := [];
     detached := [] |}.

(** ** Reading the trace *)

Definition client_events (tr : list Event) : list Callback.event :=
  omap (fun e => match e with Client c => Some c | _ => None end) tr.

Definition channel_calls (tr : list Event) : list Channel.call :=
  omap (fun e => match e with ToChannel c => Some c | _ => None end) tr.

(** The work the buffer channel has been handed through [onWorkDone]. *)
Definition delivered (tr : list Event) : list C2Work :=
  omap (fun e => match e with
                 | ToChannel (Channel.onWorkDone w) => Some w
                 | _ => None
                 end) tr.

(** ** Vocabulary of the statements *)

(** The entry points that refuse a call outside one lifecycle state, and
    the state each of them compares [state->get()] with. *)
Inductive GuardedCall : Type :=
| Call_initiateAllocateComponent (msg : AMessage)
| Call_initiateConfigureComponent (format : AMessage)
| Call_initiateStart
| Call_signalFlush
| Call_signalResume.

Definition guarded_thread (c : GuardedCall) : Thread :=
  match c with
  | Call_initiateAllocateComponent msg => initiateAllocateComponent msg
  | Call_initiateConfigureComponent format => initiateConfigureComponent format
  | Call_initiateStart => initiateStart
  | Call_signalFlush => signalFlush
  | Call_signalResume => signalResume
  end.

Definition guard_state (c : GuardedCall) : state_t :=
  match c with
  | Call_initiateAllocateComponent _ => RELEASED
  | Call_initiateConfigureComponent _ => ALLOCATED
  | Call_initiateStart => ALLOCATED
  | Call_signalFlush => RUNNING
  | Call_signalResume => FLUSHED
  end.

(** From [s] to [s'] the client has been sent exactly [evs], in this
    order, and nothing else has happened: no call into the channel, the
    component or the store, no message posted, no thread started, and the
    lifecycle state, the component handle, the formats, the deadline and
    the work-done queue are as they were. *)
Definition emits_only (evs : list Callback.event) (s s' : CCodec) : Prop :=
  trace s' = trace s ++ map Client evs /\
  looper s' = looper s /\
  detached s' = detached s /\
  mState s' = mState s /\
  mFormats s' = mFormats s /\
  mDeadline s' = mDeadline s /\
  mWorkDoneQueue s' = mWorkDoneQueue s.

(** Every atomic block of a thread, from whatever state it starts,
    relates the state before to the state after by [R]. *)
Fixpoint blocks_satisfy (R : CCodec -> CCodec -> Prop) (t : Thread) : Prop :=
  match t with
  | Return | Abort => True
  | Atomic b k =>
      (forall s, R s (b s).2) /\ (forall a, blocks_satisfy R (k a))
  end.

(** The budget of each message, in milliseconds, as the deadline policy
    tabulates it; none for work-done and for a message of no known kind. *)
Definition budget (w : What) : option Z :=
  match w with
  | kWhatAllocate => Some 150
  | kWhatConfigure => Some 50
  | kWhatStart => Some 550
  | kWhatStop => Some 550
  | kWhatFlush => Some 50
  | kWhatCreateInputSurface => Some 100
  | kWhatSetInputSurface => Some 100
  | kWhatWorkDone => None
  | kWhatUnrecognized => None
  end.

(** A message carries what its handler [CHECK]s for. *)
Definition carries_payload (msg : Message) : Prop :=
  match what msg with
  | kWhatAllocate => is_Some (AMessage.findString "componentName" (items msg))
  | kWhatConfigure => is_Some (AMessage.findMessage "format" (items msg))
  | kWhatSetInputSurface => is_Some (AMessage.findObject "surface" (items msg))
  | _ => True
  end.

(** The component a worker is about to call through is there: the store
    hands one out with [C2_OK], and the state holds one where the worker
    will find the state it is meant for. *)
Definition component_at_hand (w : Answers) (msg : Message) (s : CCodec) : Prop :=
  match what msg with
  | kWhatAllocate =>
      (createComponent w).1 = C2_OK -> is_Some (createComponent w).2
  | kWhatStart => get (mState s) = STARTING -> is_Some (comp (mState s))
  | kWhatStop => get (mState s) = STOPPING -> is_Some (comp (mState s))
  | kWhatFlush => get (mState s) = FLUSHING -> is_Some (comp (mState s))
  | _ => True
  end.

(** ** The controller among its threads

    The looper thread handles one message at a time, block by block;
    between any two of its blocks the listener may enqueue work and any
    other thread may run a block of its own. *)
Record System : Type :=
  { controller : CCodec;
    handling : Thread }.

Inductive Move : Type :=
| Listener_onWorkDone (workItems : list C2Work)
| Looper_thread (w : Answers)
| Elsewhere (block : CCodec -> CCodec).

Definition take_message (rest : list Message) (s : CCodec) : CCodec :=
  {| mState := mState s; mFormats := mFormats s; mDeadline := mDeadline s;
     mWorkDoneQueue := mWorkDoneQueue s; mListener := mListener s;
     trace := trace s; looper := rest; detached := detached s |}.

(** The looper thread, idle, takes the oldest message and enters
    [onMessageReceived]; busy, it runs the next block of the handler. *)
Definition move (m : Move) (sys : System) : System :=
  match m with
  | Listener_onWorkDone workItems =>
      {| controller := (step (onWorkDone workItems) (controller sys)).2;
         handling := handling sys |}
  | Looper_thread w =>
      match handling sys with
      | Return =>
          match looper (controller sys) with
          | [] => sys
          | msg :: rest =>
              {| controller := take_message rest (controller sys);
                 handling := onMessageReceived w msg |}
          end
      | t =>
          let (t', s') := step t (controller sys) in
          {| controller := s'; handling := t' |}
      end
  | Elsewhere block =>
      {| controller := block (controller sys); handling := handling sys |}
  end.

Definition moves (ms : list Move) (sys : System) : System :=
  foldl (fun sys m => move m sys) sys ms.

(** All the work the listener has enqueued, in the order it came. *)
Definition enqueued (ms : list Move) : list C2Work :=
  List.concat
    (omap (fun m => match m with
                    | Listener_onWorkDone workItems => Some workItems
                    | _ => None
                    end) ms).

(** A block that is not the listener's and not the work-done handler's:
    it leaves the work-done queue alone, hands no work to the channel and
    takes no message from the looper. *)
Definition work_untouched (s s' : CCodec) : Prop :=
  mWorkDoneQueue s' = mWorkDoneQueue s /\
  delivered (trace s') = delivered (trace s) /\
  looper s `prefix_of` looper s'.

Definition deadline_untouched (s s' : CCodec) : Prop :=
  mDeadline s' = mDeadline s.

Definition worker_frame (s s' : CCodec) : Prop :=
  work_untouched s s' /\ deadline_untouched s s'.

(** What follows the entry statement of a message that has a budget. *)
Definition budgeted_worker (w : Answers) (msg : Message) : Thread :=
  match what msg with
  | kWhatAllocate =>
      match AMessage.findString "componentName" (items msg) with
      | None => Abort
      | Some componentName => allocate componentName (createComponent w)
      end
  | kWhatConfigure =>
      match AMessage.findMessage "format" (items msg) with
      | None => Abort
      | Some format => configure format
      end
  | kWhatStart => start (start_answer w)
  | kWhatStop => stop (stop_answer w)
  | kWhatFlush => flush (flush_answer w)
  | kWhatCreateInputSurface =>
      createInputSurface (new_GraphicBufferSource w)
        (setGraphicBufferSource_answer w)
  | kWhatSetInputSurface =>
      match AMessage.findObject "surface" (items msg) with
      | None => Abort
      | Some surface => setInputSurface surface
      end
  | kWhatWorkDone | kWhatUnrecognized => Return
  end.

(** A block of another thread is one that leaves the work alone. *)
Definition well_behaved (m : Move) : Prop :=
  match m with
  | Elsewhere block => forall s, work_untouched s (block s)
  | _ => True
  end.

(** While work is queued, a [kWhatWorkDone] is on its way. *)
Definition work_done_pending (s : CCodec) : Prop :=
  mWorkDoneQueue s <> [] ->
  Exists (fun m => what m = kWhatWorkDone) (looper s).

(** Where the looper thread stands, and the work it has taken from the
    queue and not yet handed to the channel: between messages or in a
    handler that leaves the work alone; at the door of the work-done
    handler; or in it, with the front item in hand. *)
Inductive LooperPhase (s : CCodec) : Thread -> list C2Work -> Prop :=
| Phase_other (t : Thread) :
    blocks_satisfy work_untouched t ->
    work_done_pending s ->
    LooperPhase s t []
| Phase_entering (w : Answers) (msg : Message) :
    what msg = kWhatWorkDone ->
    LooperPhase s (onMessageReceived w msg) []
| Phase_in_hand (work : C2Work) :
    work_done_pending s ->
    LooperPhase s
      (seq (do mChannel (Channel.onWorkDone work); Return)
           (do setDeadline TimePoint_max; Return))
      [work].

(** Everything enqueued so far is, in this order, the work delivered,
    the work in hand and the work still queued. *)
Definition accounted (all : list C2Work) (sys : System) : Prop :=
  exists hand : list C2Work,
    LooperPhase (controller sys) (handling sys) hand /\
    delivered (trace (controller sys)) ++ hand
      ++ mWorkDoneQueue (controller sys) = all.

(** ** The member functions, one by one

    Every member function of the controller, with the arguments it is
    called with and, for a worker, what its collaborators answer. *)
Inductive Member : Type :=
| M_initiateAllocateComponent (msg : AMessage)
| M_allocate (componentName : string)
    (created : c2_status_t * option C2Component)
| M_initiateConfigureComponent (format : AMessage)
| M_configure (msg : AMessage)
| M_initiateCreateInputSurface
| M_createInputSurface (source : GraphicBufferSource)
    (setGraphicBufferSource_err : status_t)
| M_initiateSetInputSurface (surface : nat)
| M_setInputSurface (surface : nat)
| M_initiateStart
| M_start (start_err : c2_status_t)
| M_initiateShutdown (keepComponentAllocated : bool)
| M_initiateStop
| M_stop (stop_err : c2_status_t)
| M_initiateRelease (sendCallback : bool)
| M_release (sendCallback : bool)
| M_signalFlush
| M_flush (flushed : c2_status_t * list C2Work)
| M_signalResume
| M_signalSetParameters (msg : AMessage)
| M_signalEndOfInputStream
| M_signalRequestIDRFrame
| M_onWorkDone (workItems : list C2Work)
| M_onMessageReceived (w : Answers) (msg : Message)
| M_initiateReleaseIfStuck (now : TimePoint).

Definition member_thread (m : Member) : Thread :=
  match m with
  | M_initiateAllocateComponent msg => initiateAllocateComponent msg
  | M_allocate componentName created => allocate componentName created
  | M_initiateConfigureComponent format => initiateConfigureComponent format
  | M_configure msg => configure msg
  | M_initiateCreateInputSurface => initiateCreateInputSurface
  | M_createInputSurface source err => createInputSurface source err
  | M_initiateSetInputSurface surface => initiateSetInputSurface surface
  | M_setInputSurface surface => setInputSurface surface
  | M_initiateStart => initiateStart
  | M_start err => start err
  | M_initiateShutdown keep => initiateShutdown keep
  | M_initiateStop => initiateStop
  | M_stop err => stop err
  | M_initiateRelease sendCallback => initiateRelease sendCallback
  | M_release sendCallback => release sendCallback
  | M_signalFlush => signalFlush
  | M_flush flushed => flush flushed
  | M_signalResume => signalResume
  | M_signalSetParameters msg => signalSetParameters msg
  | M_signalEndOfInputStream => signalEndOfInputStream
  | M_signalRequestIDRFrame => signalRequestIDRFrame
  | M_onWorkDone workItems => onWorkDone workItems
  | M_onMessageReceived w msg => onMessageReceived w msg
  | M_initiateReleaseIfStuck now => initiateReleaseIfStuck now
  end.

(** The controller a thread leaves behind, returned or not. *)
Definition state_of (o : Outcome) : CCodec :=
  match o with
  | Finished s | Aborted s => s
  end.

(** The lifecycle value [target] is written over the value [source]
    somewhere in the source: the guards under which each [state->set]
    stands.  [FLUSHED] and [RELEASED] are written without a look at the
    value they replace; [STOPPING] over any value that is not one of the
    four [initiateStop] returns early on; [RELEASING] over any value but
    [RELEASED] and [RELEASING]. *)
Definition entered_from (target source : state_t) : bool :=
  match target with
  | RELEASED => true
  | ALLOCATING => state_eqb source RELEASED
  | ALLOCATED => state_eqb source ALLOCATING || state_eqb source STOPPING
  | STARTING => state_eqb source ALLOCATED
  | RUNNING => state_eqb source STARTING || state_eqb source RESUMING
  | FLUSHING => state_eqb source RUNNING
  | FLUSHED => true
  | RESUMING => state_eqb source FLUSHED
  | STOPPING =>
      negb (state_eqb source ALLOCATED || state_eqb source RELEASED
            || state_eqb source STOPPING || state_eqb source RELEASING)
  | RELEASING =>
      negb (state_eqb source RELEASED || state_eqb source RELEASING)
  end.

Definition lifecycle_edge (s s' : CCodec) : Prop :=
  get (mState s') = get (mState s) \/
  entered_from (get (mState s')) (get (mState s)) = true.

(** A member function that is, or runs, the allocate worker. *)
Definition is_allocate (m : Member) : bool :=
  match m with
  | M_allocate _ _ => true
  | M_onMessageReceived _ msg =>
      match what msg with kWhatAllocate => true | _ => false end
  | _ => false
  end.

(** The release worker. *)
Definition is_release (m : Member) : bool :=
  match m with
  | M_release _ => true
  | _ => false
  end.

(** The component handle is written in two places: by the allocate
    worker, which installs a component as it turns [ALLOCATING] into
    [ALLOCATED], and by the release worker, which clears it as it sets
    [RELEASED].  A block of the member function [m] leaves the handle, or
    is one of the two. *)
Definition handle_write (m : Member) (s s' : CCodec) : Prop :=
  comp (mState s') = comp (mState s) \/
  (is_allocate m = true /\
   get (mState s) = ALLOCATING /\ get (mState s') = ALLOCATED /\
   is_Some (comp (mState s'))) \/
  (is_release m = true /\
   get (mState s') = RELEASED /\ comp (mState s') = None).

Definition formats_untouched (s s' : CCodec) : Prop :=
  mFormats s' = mFormats s.

(** A member function that is, or runs, the configure worker. *)
Definition is_configure (m : Member) : bool :=
  match m with
  | M_configure _ => true
  | M_onMessageReceived _ msg =>
      match what msg with kWhatConfigure => true | _ => false end
  | _ => false
  end.

(** The messages in the looper all carry what their handlers check for. *)
Definition looper_sound (s : CCodec) : Prop :=
  Forall carries_payload (looper s).

(** A member function other than the message handler. *)
Definition not_the_handler (m : Member) : Prop :=
  match m with
  | M_onMessageReceived _ _ => False
  | _ => True
  end.

(** A member function that is, or runs, the listener's enqueue or the
    work-done handler. *)
Definition is_work_done (m : Member) : bool :=
  match m with
  | M_onWorkDone _ => true
  | M_onMessageReceived _ msg =>
      match what msg with kWhatWorkDone => true | _ => false end
  | _ => false
  end.

Definition keeps_looper_sound (s s' : CCodec) : Prop :=
  looper_sound s -> looper_sound s'.

(** A block of another thread that posts, if anything, messages that
    carry their payload. *)
Definition sound_move (m : Move) : Prop :=
  match m with
  | Elsewhere block => forall s, keeps_looper_sound s (block s)
  | _ => True
  end.

(** A block of another thread that leaves the deadline alone. *)
Definition deadline_move (m : Move) : Prop :=
  match m with
  | Elsewhere block => forall s, mDeadline (block s) = mDeadline s
  | _ => True
  end.

(** Where the looper thread stands, for the deadline: it has handled no
    message yet and the deadline is the first one; it is between two
    messages and the deadline is "never"; it has aborted; or it is in a
    handler, with the handler's last statement still ahead. *)
Inductive DeadlinePhase (first : TimePoint) (s : CCodec) : Thread -> Prop :=
| Deadline_first : mDeadline s = first -> DeadlinePhase first s Return
| Deadline_never : mDeadline s = TimePoint_max -> DeadlinePhase first s Return
| Deadline_aborted : DeadlinePhase first s Abort
| Deadline_handling (t : Thread) :
    DeadlinePhase first s (seq t (do setDeadline TimePoint_max; Return)).

(** ** The watchdog

    The controllers alive, by identity.  A weak reference is to the
    object: it promotes where its controller is in the heap, and no longer
    once the controller is destroyed, whatever is built at its address
    later; identities are not used again.  A raw pointer is an address,
    and the address of a controller that has been destroyed may become
    the address of a controller made later. *)
Abbreviation Heap := (gmap nat CCodec) (only parsing).

Module CCodecWatchdog.

Inductive What : Set :=
| kWhatRegister
| kWhatWatch
| kWhatUnrecognized.

(** A message of the watchdog's handler, with its ["codec"] pointer (an
    address). *)
Record Message : Set := { what : What; codec : option nat }.

Definition kWatchIntervalUs : Z := 3000000.

(** [mCodecs] (weak references, by identity), and the messages posted to
    the watchdog's looper and not yet delivered, each with its delay in
    microseconds. *)
Record t : Type :=
  { mCodecs : list nat;
    posted : list (Message * Z) }.

Definition post (msg : Message) (delayUs : Z) (wd : t) : t :=
  {| mCodecs := mCodecs wd; posted := posted wd ++ [(msg, delayUs)] |}.

(** The constructor and [init()]: the first watch message. *)
Definition init : t :=
  post {| what := kWhatWatch; codec := None |} kWatchIntervalUs
    {| mCodecs := []; posted := [] |}.

(** [getInstance()] on the singleton [sInstance]: the instance is made
    on first use. *)
Definition getInstance (sInstance : option t) : t :=
  match sInstance with
  | None => init
  | Some instance => instance
  end.

(** [codec] is the raw pointer [this] of the controller. *)
Definition registerCodec (codec : nat) (wd : t) : t :=
  post {| what := kWhatRegister; codec := Some codec |} 0 wd.

(** The walk of [kWhatWatch] over [mCodecs]: an entry that does not
    promote is erased; a controller that does is asked
    [initiateReleaseIfStuck], which reads the clock ([now], by
    controller). *)
Fixpoint watch (now : nat -> TimePoint) (heap : Heap) (codecs : list nat)
    : list nat * Heap :=
  match codecs with
  | [] => ([], heap)
  | it :: rest =>
      match heap !! it with
      | None => watch now heap rest
      | Some codec =>
          let codec' := state_of (run (initiateReleaseIfStuck (now it)) codec) in
          let (kept, heap') := watch now (<[it := codec']> heap) rest in
          (it :: kept, heap')
      end
  end.

(** [lives_at] tells which controller is alive at an address.  In
    [kWhatRegister] the weak reference that [emplace_back] makes from the
    raw pointer of the message is a reference to the controller alive at
    that address when the message is handled, which need not be the one
    that posted it.  [None] is where the behaviour of the process ends: a
    failed [CHECK], [TRESPASS], or a weak reference made from a pointer
    to no controller (the constructor of [wp] goes through the
    pointer). *)
Definition onMessageReceived (lives_at : nat -> option nat)
    (now : nat -> TimePoint) (msg : Message)
    (wd : t) (heap : Heap) : option (t * Heap) :=
  match what msg with
  | kWhatRegister =>
      match codec msg with
      | None => None
      | Some ptr =>
          match lives_at ptr with
          | None => None
          | Some it =>
              Some ({| mCodecs := mCodecs wd ++ [it]; posted := posted wd |},
                    heap)
          end
      end
  | kWhatWatch =>
      let (kept, heap') := watch now heap (mCodecs wd) in
      Some (post msg kWatchIntervalUs {| mCodecs := kept; posted := posted wd |},
            heap')
  | kWhatUnrecognized => None
  end.

End CCodecWatchdog.

(** The process: the watchdog singleton; the controllers alive, by
    identity; which of them lives at which address; and the identity the
    next controller gets. *)
Record Process : Type :=
  { sInstance : option CCodecWatchdog.t;
    heap : Heap;
    address : gmap nat nat;
    next_id : nat }.

Inductive ProcessMove : Type :=
| New_CCodec (this : nat) (deadline : TimePoint)
| Delete_CCodec (this : nat)
| Inside_CCodec (this : nat) (t : Thread)
| Watchdog_delivers (i : nat) (now : nat -> TimePoint).

(** [New_CCodec] is the constructor of a controller at the address
    [this], which registers that address with the watchdog (the
    allocator hands out no address in use: at such an address nothing
    happens); [Delete_CCodec] destroys the controller at [this], if there
    is one; [Inside_CCodec] runs a thread of the controller at [this], and
    the process ends where that thread does not return;
    [Watchdog_delivers] hands the watchdog's handler one of the messages
    posted to it (which one is for the delays to decide: any is allowed
    here).  [None] is where the behaviour of the process ends. *)
Definition process_move (m : ProcessMove) (p : Process) : option Process :=
  match m with
  | New_CCodec this deadline =>
      match address p !! this with
      | Some _ => Some p
      | None =>
          Some {| sInstance :=
                    Some (CCodecWatchdog.registerCodec this
                            (CCodecWatchdog.getInstance (sInstance p)));
                  heap := <[next_id p := CCodec_new deadline]> (heap p);
                  address := <[this := next_id p]> (address p);
                  next_id := S (next_id p) |}
      end
  | Delete_CCodec this =>
      match address p !! this with
      | None => Some p
      | Some it =>
          Some {| sInstance := sInstance p;
                  heap := delete it (heap p);
                  address := delete this (address p);
                  next_id := next_id p |}
      end
  | Inside_CCodec this t =>
      match address p !! this with
      | None => Some p
      | Some it =>
          match heap p !! it with
          | None => Some p
          | Some codec =>
              match run t codec with
              | Aborted _ => None
              | Finished codec' =>
                  Some {| sInstance := sInstance p;
                          heap := <[it := codec']> (heap p);
                          address := address p;
                          next_id := next_id p |}
              end
          end
      end
  | Watchdog_delivers i now =>
      match sInstance p with
      | None => Some p
      | Some wd =>
          match CCodecWatchdog.posted wd !! i with
          | None => Some p
          | Some (msg, _) =>
              let wd := {| CCodecWatchdog.mCodecs := CCodecWatchdog.mCodecs wd;
                           CCodecWatchdog.posted :=
                             delete i (CCodecWatchdog.posted wd) |} in
              match CCodecWatchdog.onMessageReceived (fun ptr => address p !! ptr)
                      now msg wd (heap p) with
              | None => None
              | Some (wd', heap') =>
                  Some {| sInstance := Some wd'; heap := heap';
                          address := address p; next_id := next_id p |}
              end
          end
      end
  end.

Fixpoint process_moves (ms : list ProcessMove) (p : Process) : option Process :=
  match ms with
  | [] => Some p
  | m :: ms' =>
      match process_move m p with
      | None => None
      | Some p' => process_moves ms' p'
      end
  end.

Definition process_start : Process :=
  {| sInstance := None; heap := ∅; address := ∅; next_id := 0 |}.

(** The addresses whose registration is on its way to the watchdog. *)
Definition registering (posted : list (CCodecWatchdog.Message * Z)) : list nat :=
  omap (fun m => match CCodecWatchdog.what m.1 with
                 | CCodecWatchdog.kWhatRegister => CCodecWatchdog.codec m.1
                 | _ => None
                 end) posted.

Definition is_watch (m : CCodecWatchdog.Message * Z) : bool :=
  match CCodecWatchdog.what m.1 with
  | CCodecWatchdog.kWhatWatch => true
  | _ => false
  end.

(** A message the watchdog's handler neither [CHECK]s nor [TRESPASS]es
    on. *)
Definition watchdog_message_ok (m : CCodecWatchdog.Message * Z) : Prop :=
  match CCodecWatchdog.what m.1 with
  | CCodecWatchdog.kWhatRegister => is_Some (CCodecWatchdog.codec m.1)
  | CCodecWatchdog.kWhatWatch => True
  | CCodecWatchdog.kWhatUnrecognized => False
  end.

(** The watchdog's registry and the messages on their way to it, empty
    before the watchdog is made. *)
Definition registry (sInstance : option CCodecWatchdog.t) : list nat :=
  match sInstance with
  | None => []
  | Some wd => CCodecWatchdog.mCodecs wd
  end.

Definition pending (sInstance : option CCodecWatchdog.t)
    : list (CCodecWatchdog.Message * Z) :=
  match sInstance with
  | None => []
  | Some wd => CCodecWatchdog.posted wd
  end.

(** What the process keeps: once the watchdog is there, one
    [kWhatWatch] is on its way to it, and every message on its way is one
    that its handler takes; a controller alive is in the heap, and it is
    in the registry or a registration of its address is on its way; no
    two addresses hold one controller; identities are given out in
    order. *)
Definition watchdog_sound (p : Process) : Prop :=
  match sInstance p with
  | None => True
  | Some wd =>
      List.length (filter is_watch (CCodecWatchdog.posted wd)) = 1%nat /\
      Forall watchdog_message_ok (CCodecWatchdog.posted wd)
  end /\
  (forall this it : nat, address p !! this = Some it ->
     is_Some (heap p !! it) /\ (it < next_id p)%nat /\
     (it ∈ registry (sInstance p) \/
      this ∈ registering (pending (sInstance p)))) /\
  (forall this this' it : nat,
     address p !! this = Some it -> address p !! this' = Some it ->
     this = this') /\
  (forall it : nat, it ∈ registry (sInstance p) -> (it < next_id p)%nat).

(** A run in which no controller is destroyed while a registration of
    its address is still on its way to the watchdog. *)
Fixpoint orderly (ms : list ProcessMove) (p : Process) : bool :=
  match ms with
  | [] => true
  | m :: ms' =>
      match m with
      | Delete_CCodec this =>
          negb (bool_decide (this ∈ registering (pending (sInstance p))))
      | _ => true
      end
      && match process_move m p with
         | None => true
         | Some p' => orderly ms' p'
         end
  end.

(** What such a run keeps on top: no controller is in the registry
    twice, no address has two registrations on their way, and a
    registration on its way is that of a controller alive that is not in
    the registry yet. *)
Definition registered_once (p : Process) : Prop :=
  NoDup (registry (sInstance p)) /\
  NoDup (registering (pending (sInstance p))) /\
  (forall this : nat, this ∈ registering (pending (sInstance p)) ->
     exists it : nat,
       address p !! this = Some it /\ it ∉ registry (sInstance p)).

(** * Properties *)

Section Configure.

Import AMessage.

Lemma raw_mime_audio : raw_mime true = "audio/raw"%string.
Proof. reflexivity. Qed.

Lemma raw_mime_video : raw_mime false = "video/raw"%string.
Proof. reflexivity. Qed.

(** What [configure] does on a message that has a [mime]: the surface, if
    the message carries one, goes to the channel; then the formats are
    published and handed to the client. *)
Lemma run_configure (msg : AMessage) (mime : string) (s : CCodec) :
  findString "mime" msg = Some mime ->
  let fmts := configure_formats mime (default 0 (findInt32 "encoder" msg)) in
  let s1 := match findObject "native-window" msg with
            | Some surface => setSurface surface s
            | None => s
            end in
  run (configure msg) s =
    Finished (mCallback (onComponentConfigured fmts.1 fmts.2)
                (with_mFormats {| inputFormat := Some fmts.1;
                                  outputFormat := Some fmts.2 |} s1)).
Proof.
  intros Hmime. unfold configure. rewrite Hmime.
  destruct (configure_formats _ _) as [i o].
  destruct (findObject "native-window" msg); reflexivity.
Qed.

Lemma run_configure_no_mime (msg : AMessage) (s : CCodec) :
  findString "mime" msg = None ->
  run (configure msg) s =
    Finished (mCallback (onError 1 ACTION_CODE_FATAL) s).
Proof. intros Hmime. unfold configure. rewrite Hmime. reflexivity. Qed.

(** The formats of a decoder and of an encoder, item by item. *)
Lemma configure_formats_decoder (mime : string) :
  let audio := AString.startsWithIgnoreCase mime "audio/" in
  let fmts := configure_formats mime 0 in
  findString "mime" fmts.1 = Some mime /\
  findString "mime" fmts.2
    = Some (if audio then "audio/raw" else "video/raw")%string /\
  (audio = true ->
   findInt32 "channel-count" fmts.2 = Some 2 /\
   findInt32 "sample-rate" fmts.2 = Some 44100).
Proof.
  unfold configure_formats. cbn [Z.eqb negb].
  destruct (AString.startsWithIgnoreCase mime "audio/");
    repeat split; intros; try discriminate; reflexivity.
Qed.

Lemma configure_formats_encoder (mime : string) (encoder : Z) :
  encoder <> 0 ->
  let audio := AString.startsWithIgnoreCase mime "audio/" in
  let fmts := configure_formats mime encoder in
  findString "mime" fmts.2 = Some mime /\
  findString "mime" fmts.1
    = Some (if audio then "audio/raw" else "video/raw")%string /\
  (audio = true ->
   findInt32 "channel-count" fmts.1 = Some 1 /\
   findInt32 "sample-rate" fmts.1 = Some 44100 /\
   findInt32 "channel-count" fmts.2 = Some 1 /\
   findInt32 "sample-rate" fmts.2 = Some 44100) /\
  (audio = false ->
   findInt32 "width" fmts.2 = Some 1080 /\
   findInt32 "height" fmts.2 = Some 1920).
Proof.
  intros Hne. unfold configure_formats.
  destruct (Z.eqb_spec encoder 0) as [|_]; [contradiction|]. cbn [negb].
  destruct (AString.startsWithIgnoreCase mime "audio/");
    repeat split; intros; try discriminate; reflexivity.
Qed.

End Configure.

Section ConfigureClaims.

Import AMessage.

Lemma client_events_snoc (tr : list Event) (e : Callback.event) :
  client_events (tr ++ [Client e]) = client_events tr ++ [e].
Proof. unfold client_events. rewrite omap_app. reflexivity. Qed.

Lemma client_events_channel (tr : list Event) (c : Channel.call) :
  client_events (tr ++ [ToChannel c]) = client_events tr.
Proof.
  unfold client_events. rewrite omap_app. cbn. apply app_nil_r.
Qed.

(** C1, as the code has it: the configure worker, on a format message
    that has a [mime] string, stores two formats in [mFormats] and hands
    the same two to [onComponentConfigured].  With the [encoder] flag
    absent or 0 the input mime is the supplied one and the output mime is
    the raw one, an audio decoder's output carrying channel-count 2 and
    sample-rate 44100; with a nonzero flag the output mime is the
    supplied one and the input mime the raw one, an audio encoder's input
    and output both carrying channel-count 1 and sample-rate 44100, a
    video encoder's output width 1080 and height 1920.  The raw mime is
    "audio/raw" where the supplied mime starts with "audio/" compared
    without regard to letter case, and "video/raw" otherwise. *)
Theorem configure_synthesizes_formats
    (msg : AMessage) (mime : string) (s : CCodec) :
  findString "mime" msg = Some mime ->
  let audio := AString.startsWithIgnoreCase mime "audio/" in
  let raw := (if audio then "audio/raw" else "video/raw")%string in
  exists (inF outF : AMessage) (s' : CCodec),
    run (configure msg) s = Finished s' /\
    mFormats s' = {| inputFormat := Some inF; outputFormat := Some outF |} /\
    client_events (trace s')
      = client_events (trace s) ++ [onComponentConfigured inF outF] /\
    (findInt32 "encoder" msg = None \/ findInt32 "encoder" msg = Some 0 ->
     findString "mime" inF = Some mime /\
     findString "mime" outF = Some raw /\
     (audio = true ->
      findInt32 "channel-count" outF = Some 2 /\
      findInt32 "sample-rate" outF = Some 44100)) /\
    (forall encoder : Z,
     findInt32 "encoder" msg = Some encoder -> encoder <> 0 ->
     findString "mime" outF = Some mime /\
     findString "mime" inF = Some raw /\
     (audio = true ->
      findInt32 "channel-count" inF = Some 1 /\
      findInt32 "sample-rate" inF = Some 44100 /\
      findInt32 "channel-count" outF = Some 1 /\
      findInt32 "sample-rate" outF = Some 44100) /\
     (audio = false ->
      findInt32 "width" outF = Some 1080 /\
      findInt32 "height" outF = Some 1920)).
Proof.
  intros Hmime audio raw.
  pose (fmts := configure_formats mime (default 0 (findInt32 "encoder" msg))).
  exists fmts.1, fmts.2. eexists. split; [apply (run_configure _ _ _ Hmime)|].
  split; [reflexivity|]. split.
  { cbn [trace mCallback record with_mFormats]. rewrite client_events_snoc.
    destruct (findObject "native-window" msg); [|reflexivity].
    cbn [trace setSurface mChannel record]. now rewrite client_events_channel. }
  split.
  - intros Henc.
    assert (default 0 (findInt32 "encoder" msg) = 0) as E
      by (destruct Henc as [-> | ->]; reflexivity).
    subst fmts. rewrite E. apply configure_formats_decoder.
  - intros encoder Henc Hne. subst fmts. rewrite Henc. cbn [default].
    apply configure_formats_encoder, Hne.
Qed.

(** Scenario A1 of the specification, through the theorem. *)
Lemma configure_synthesizes_formats_witness :
  let msg : AMessage := {["mime" := kTypeString "audio/mp4a-latm"]} in
  findString "mime" msg = Some "audio/mp4a-latm"%string /\
  exists (inF outF : AMessage) (s' : CCodec),
    run (configure msg) (CCodec_new TimePoint_max) = Finished s' /\
    client_events (trace s') = [onComponentConfigured inF outF] /\
    findString "mime" inF = Some "audio/mp4a-latm"%string /\
    findString "mime" outF = Some "audio/raw"%string /\
    findInt32 "channel-count" outF = Some 2 /\
    findInt32 "sample-rate" outF = Some 44100.
Proof.
  intros msg. split; [reflexivity|].
  destruct (configure_synthesizes_formats msg "audio/mp4a-latm"
              (CCodec_new TimePoint_max) eq_refl)
    as (inF & outF & s' & Hrun & _ & Hev & Hdec & _).
  destruct (Hdec (or_introl eq_refl)) as (Hin & Hout & Haudio).
  destruct (Haudio eq_refl) as (Hcc & Hsr).
  exists inF, outF, s'. repeat split; assumption.
Defined.

(** C1 as the specification words it fails on a mime that has the
    prefix in capitals: "AUDIO/mp4a-latm" does not start with "audio/",
    yet the decoder's output mime is "audio/raw", not "video/raw", and
    the output carries the audio defaults. *)
Lemma configure_audio_prefix_counterexample :
  let msg : AMessage := {["mime" := kTypeString "AUDIO/mp4a-latm"]} in
  findString "mime" msg = Some "AUDIO/mp4a-latm"%string /\
  findInt32 "encoder" msg = None /\
  AString.startsWith "AUDIO/mp4a-latm" "audio/" = false /\
  exists (inF outF : AMessage) (s' : CCodec),
    run (configure msg) (CCodec_new TimePoint_max) = Finished s' /\
    mFormats s' = {| inputFormat := Some inF; outputFormat := Some outF |} /\
    findString "mime" outF = Some "audio/raw"%string /\
    findString "mime" outF <> Some "video/raw"%string /\
    findInt32 "channel-count" outF = Some 2.
Proof.
  intros msg. repeat split; try reflexivity.
  eexists _, _, _. split; [apply (run_configure msg "AUDIO/mp4a-latm"); reflexivity|].
  repeat split; try reflexivity. discriminate.
Qed.

End ConfigureClaims.

(** ** Running threads *)

Lemma run_seq (t u : Thread) (s : CCodec) :
  run (seq t u) s =
    match run t s with
    | Finished s' => run u s'
    | Aborted s' => Aborted s'
    end.
Proof.
  revert s. induction t as [| | A b k IH]; intros s; cbn; try reflexivity.
  destruct (b s) as [a s']. apply IH.
Qed.

Lemma emits_only_mCallback (e : Callback.event) (s : CCodec) :
  emits_only [e] s (mCallback e s).
Proof. repeat split. Qed.

Lemma emits_only_nothing (s : CCodec) : emits_only [] s s.
Proof. repeat split. cbn. now rewrite app_nil_r. Qed.

Lemma state_eqb_eq (a b : state_t) : state_eqb a b = true <-> a = b.
Proof. destruct a, b; cbn; split; intros; congruence. Qed.

Lemma state_eqb_neq (a b : state_t) : state_eqb a b = false <-> a <> b.
Proof. destruct a, b; cbn; split; intros; congruence. Qed.

(** Traces built by appending, read through one of the projections. *)
Ltac trace_simpl :=
  unfold client_events, channel_calls, delivered;
  rewrite <- ?app_assoc, ?omap_app; cbn [omap list_omap app];
  rewrite ?app_nil_r.

Section Preconditions.

(** C2: a guarded entry point called in a state other than the one it
    requires finishes at once, having sent the client exactly one
    [onError] with [ACTION_CODE_FATAL] and the code [INVALID_OPERATION] or
    [UNKNOWN_ERROR]; it posts no message and leaves the lifecycle state
    (and everything else of the controller) unchanged. *)
Theorem precondition_violation_fails_fatally (c : GuardedCall) (s : CCodec) :
  get (mState s) <> guard_state c ->
  exists (err : status_t) (s' : CCodec),
    (err = INVALID_OPERATION \/ err = UNKNOWN_ERROR) /\
    run (guarded_thread c) s = Finished s' /\
    emits_only [onError err ACTION_CODE_FATAL] s s'.
Proof.
  intros Hne. apply state_eqb_neq in Hne.
  destruct c; cbn [guarded_thread guard_state] in *;
    [exists INVALID_OPERATION | exists UNKNOWN_ERROR ..];
    eexists; (split; [auto|]);
    cbn; rewrite Hne; cbn; (split; [reflexivity|]);
    apply emits_only_mCallback.
Qed.

(** Scenario A3: a fresh controller refuses [initiateStart]. *)
Lemma precondition_violation_fails_fatally_witness :
  let s := CCodec_new TimePoint_max in
  get (mState s) <> guard_state Call_initiateStart /\
  exists s' : CCodec,
    run initiateStart s = Finished s' /\
    client_events (trace s') = [onError UNKNOWN_ERROR ACTION_CODE_FATAL] /\
    get (mState s') = RELEASED /\
    looper s' = [].
Proof.
  intros s. assert (get (mState s) <> guard_state Call_initiateStart) as Hne
    by discriminate.
  split; [exact Hne|].
  destruct (precondition_violation_fails_fatally Call_initiateStart s Hne)
    as (err & s' & _ & Hrun & _).
  exists s'. split; [exact Hrun|].
  cbn in Hrun. injection Hrun as <-. repeat split.
Defined.

End Preconditions.

Section Idempotence.

Lemma run_initiateStop_done (s : CCodec) :
  In (get (mState s)) [ALLOCATED; RELEASED; STOPPING; RELEASING] ->
  run initiateStop s = Finished (mCallback onStopCompleted s).
Proof.
  intros Hin. cbn.
  destruct (get (mState s)); cbn in *; try reflexivity;
    exfalso; intuition discriminate.
Qed.

Lemma run_initiateRelease_done (sendCallback : bool) (s : CCodec) :
  In (get (mState s)) [RELEASED; RELEASING] ->
  run (initiateRelease sendCallback) s =
    Finished (if sendCallback then mCallback onReleaseCompleted s else s).
Proof.
  intros Hin. cbn.
  destruct (get (mState s)); cbn in *;
    try (destruct sendCallback; reflexivity);
    exfalso; intuition discriminate.
Qed.

(** C6: [initiateStop] in [ALLOCATED], [RELEASED], [STOPPING] or
    [RELEASING] sends the client exactly one [onStopCompleted], posts no
    stop message and leaves the state as it was; [initiateRelease] in
    [RELEASED] or [RELEASING] sends exactly one [onReleaseCompleted] when
    [sendCallback] is true (none otherwise), starts no release thread and
    leaves the state as it was; so calling either of them a second time
    ends in the lifecycle state the first call ended in. *)
Theorem stop_and_release_are_idempotent :
  (forall s : CCodec,
     In (get (mState s)) [ALLOCATED; RELEASED; STOPPING; RELEASING] ->
     exists s' s'' : CCodec,
       run initiateStop s = Finished s' /\
       emits_only [onStopCompleted] s s' /\
       run (seq initiateStop initiateStop) s = Finished s'' /\
       mState s'' = mState s') /\
  (forall (sendCallback : bool) (s : CCodec),
     In (get (mState s)) [RELEASED; RELEASING] ->
     exists s' s'' : CCodec,
       run (initiateRelease sendCallback) s = Finished s' /\
       emits_only (if sendCallback then [onReleaseCompleted] else []) s s' /\
       run (seq (initiateRelease sendCallback) (initiateRelease sendCallback)) s
         = Finished s'' /\
       mState s'' = mState s').
Proof.
  split.
  - intros s Hin. exists (mCallback onStopCompleted s).
    exists (mCallback onStopCompleted (mCallback onStopCompleted s)).
    split; [now apply run_initiateStop_done|].
    split; [apply emits_only_mCallback|].
    rewrite run_seq, (run_initiateStop_done s Hin).
    split; [now apply run_initiateStop_done | reflexivity].
  - intros sendCallback s Hin.
    pose (once := fun s => if sendCallback then mCallback onReleaseCompleted s else s).
    assert (forall x, mState (once x) = mState x) as Hst
      by (intros x; unfold once; now destruct sendCallback).
    exists (once s), (once (once s)).
    split; [now apply run_initiateRelease_done|].
    split.
    { unfold once. destruct sendCallback;
        [apply emits_only_mCallback | apply emits_only_nothing]. }
    rewrite run_seq, (run_initiateRelease_done _ s Hin).
    split; [|now rewrite !Hst].
    apply run_initiateRelease_done. fold (once s). now rewrite Hst.
Qed.

(** Scenario A4: after a release has completed, [initiateStop] answers
    with one [onStopCompleted] and the controller stays [RELEASED]; so
    does a second [initiateRelease] with its own completion. *)
Lemma stop_and_release_are_idempotent_witness :
  let s := CCodec_new TimePoint_max in
  In (get (mState s)) [ALLOCATED; RELEASED; STOPPING; RELEASING] /\
  In (get (mState s)) [RELEASED; RELEASING] /\
  (exists s' : CCodec,
     run initiateStop s = Finished s' /\
     client_events (trace s') = [onStopCompleted] /\
     get (mState s') = RELEASED) /\
  (exists s' : CCodec,
     run (initiateRelease true) s = Finished s' /\
     emits_only [onReleaseCompleted] s s').
Proof.
  intros s.
  assert (In (get (mState s)) [ALLOCATED; RELEASED; STOPPING; RELEASING]) as H1
    by (right; left; reflexivity).
  assert (In (get (mState s)) [RELEASED; RELEASING]) as H2
    by (left; reflexivity).
  split; [exact H1|]. split; [exact H2|]. split.
  - destruct (proj1 stop_and_release_are_idempotent s H1)
      as (s' & _ & Hrun & _).
    exists s'. split; [exact Hrun|].
    cbn in Hrun. injection Hrun as <-. split; reflexivity.
  - destruct (proj2 stop_and_release_are_idempotent true s H2)
      as (s' & _ & Hrun & Hemit & _).
    exists s'. split; assumption.
Defined.

End Idempotence.

Section Watchdog.

(** C9: [initiateReleaseIfStuck] does nothing at all while the deadline
    is at or after the current time; once the deadline is before the
    current time it sends [onError(UNKNOWN_ERROR, ACTION_CODE_FATAL)] and
    then goes on exactly as [initiateRelease()] does, with the completion
    callback requested. *)
Theorem initiateReleaseIfStuck_spec (now : TimePoint) (s : CCodec) :
  (now <= mDeadline s -> run (initiateReleaseIfStuck now) s = Finished s) /\
  (mDeadline s < now ->
   run (initiateReleaseIfStuck now) s
     = run (initiateRelease true)
         (mCallback (onError UNKNOWN_ERROR ACTION_CODE_FATAL) s)).
Proof.
  split; intros H; cbn -[initiateRelease].
  - destruct (Z.leb_spec now (mDeadline s)); [reflexivity | lia].
  - destruct (Z.leb_spec now (mDeadline s)); [lia | reflexivity].
Qed.

(** A running controller whose start deadline has passed: the error, then
    the release thread; and the same controller one tick before it. *)
Lemma initiateReleaseIfStuck_spec_witness :
  let s := setDeadline 550 (set RUNNING (CCodec_new TimePoint_max)) in
  550 <= mDeadline s /\ mDeadline s < 551 /\
  run (initiateReleaseIfStuck 550) s = Finished s /\
  exists s' : CCodec,
    run (initiateReleaseIfStuck 551) s = Finished s' /\
    client_events (trace s') = [onError UNKNOWN_ERROR ACTION_CODE_FATAL] /\
    get (mState s') = RELEASING /\
    detached s' = [true].
Proof.
  intros s.
  assert (550 <= mDeadline s) as H1 by (cbn; lia).
  assert (mDeadline s < 551) as H2 by (cbn; lia).
  split; [exact H1|]. split; [exact H2|].
  split; [exact (proj1 (initiateReleaseIfStuck_spec 550 s) H1)|].
  eexists. split; [exact (proj2 (initiateReleaseIfStuck_spec 551 s) H2)|].
  repeat split.
Defined.

End Watchdog.

Section Workers.

(** The stop worker entered in [STOPPING] with a component at hand: it
    first stops the buffer channel, then calls [stop()] on the component; a
    failure of that call is reported with
    [onError(UNKNOWN_ERROR, ACTION_CODE_FATAL)]; then, on success, the
    state is [ALLOCATED]; and the last thing the worker does, whether the
    component's stop succeeded or not, is to send [onStopCompleted]. *)
Lemma stop_worker_spec (stop_err : c2_status_t) (c : C2Component) (s : CCodec) :
  get (mState s) = STOPPING ->
  comp (mState s) = Some c ->
  exists s' : CCodec,
    run (stop stop_err) s = Finished s' /\
    trace s' = trace s
      ++ [ToChannel Channel.stop; ToComponent c Component.stop]
      ++ (if stop_err =? C2_OK then []
          else [Client (onError UNKNOWN_ERROR ACTION_CODE_FATAL)])
      ++ [Client onStopCompleted] /\
    (stop_err = C2_OK -> get (mState s') = ALLOCATED) /\
    comp (mState s') = Some c /\
    looper s' = looper s /\
    detached s' = detached s.
Proof.
  intros Hst Hc. destruct s as [[st co] fm dl q li tr lo de].
  cbn in Hst, Hc. subst st co.
  destruct (Z.eqb_spec stop_err C2_OK) as [->|Hne].
  - eexists. split; [reflexivity|]. cbn. rewrite <- !app_assoc. repeat split.
  - eexists. split; [cbn; destruct (Z.eqb_spec stop_err C2_OK);
                      [contradiction | reflexivity]|].
    cbn. rewrite <- !app_assoc. repeat split.
Qed.

(** The state is [ALLOCATED] after a failed stop too: the worker sets it
    wherever it still finds [STOPPING]. *)
Lemma stop_worker_failure_state (stop_err : c2_status_t) (c : C2Component)
    (s s' : CCodec) :
  get (mState s) = STOPPING ->
  comp (mState s) = Some c ->
  run (stop stop_err) s = Finished s' ->
  get (mState s') = ALLOCATED.
Proof.
  intros Hst Hc. destruct s as [[st co] fm dl q li tr lo de].
  cbn in Hst, Hc. subst st co. cbn.
  destruct (stop_err =? C2_OK); cbn; intros [= <-]; reflexivity.
Qed.

Lemma stop_worker_spec_witness :
  let c := {| comp_id := 0; intf_getName := "c2.example.aac.dec" |} in
  let s := set_comp (Some c) (set STOPPING (CCodec_new TimePoint_max)) in
  get (mState s) = STOPPING /\ comp (mState s) = Some c /\
  (exists s' : CCodec,
     run (stop C2_OK) s = Finished s' /\
     trace s' = [ToChannel Channel.stop; ToComponent c Component.stop;
                 Client onStopCompleted] /\
     get (mState s') = ALLOCATED) /\
  (exists s' : CCodec,
     run (stop 2) s = Finished s' /\
     trace s' = [ToChannel Channel.stop; ToComponent c Component.stop;
                 Client (onError UNKNOWN_ERROR ACTION_CODE_FATAL);
                 Client onStopCompleted]).
Proof.
  intros c s. split; [reflexivity|]. split; [reflexivity|]. split.
  - destruct (stop_worker_spec C2_OK c s eq_refl eq_refl)
      as (s' & Hrun & Htr & Hst & _).
    exists s'. split; [exact Hrun|]. split; [exact Htr | exact (Hst eq_refl)].
  - destruct (stop_worker_spec 2 c s eq_refl eq_refl)
      as (s' & Hrun & Htr & _).
    exists s'. split; [exact Hrun | exact Htr].
Defined.

(** The stop worker entered in [STOPPING] with no component at hand
    stops the buffer channel and then calls [stop()] through the null
    handle. *)
Lemma run_stop_null_handle (stop_err : c2_status_t) (s : CCodec) :
  get (mState s) = STOPPING ->
  comp (mState s) = None ->
  run (stop stop_err) s = Aborted (mChannel Channel.stop s).
Proof.
  intros Hst Hc. destruct s as [[st co] fm dl q li tr lo de].
  cbn in Hst, Hc. subst st co. reflexivity.
Qed.

(** C5 does not hold where the stop worker finds [STOPPING] and no
    component.  On a new controller: [initiateAllocateComponent], then
    [initiateStop], which finds [ALLOCATING] (a value it has no case
    for, unlike [initiateRelease]), sets [STOPPING] and posts a stop
    message behind the allocate message; the allocate worker finds the
    state changed and rewinds to [RELEASED]; then, with the stop message
    still waiting, [initiateAllocateComponent] and [initiateStop] once
    more.  The handler of the first stop message now enters the stop
    worker in [STOPPING] with a null handle: the worker stops the buffer
    channel and calls [stop()] through the null pointer.  The run does not
    return; the state is still [STOPPING], the component's [stop()] has
    not been called and no [onStopCompleted] has been sent. *)
Theorem stop_worker_without_component
    (msg : AMessage) (c : C2Component) (deadline : TimePoint) :
  let w := {| now := 1000; createComponent := (C2_OK, Some c);
              start_answer := C2_OK; stop_answer := C2_OK;
              flush_answer := (C2_OK, []);
              new_GraphicBufferSource :=
                {| source_id := 0; initCheck := OK;
                   getIGraphicBufferProducer := 0 |};
              setGraphicBufferSource_answer := OK |} in
  let componentName :=
    default ""%string (AMessage.findString "componentName" msg) in
  let stop_msg := {| what := kWhatStop; items := ∅ |} in
  exists (allocate_msg : Message) (s1 s2 s3 s4 s5 s6 : CCodec),
    run (initiateAllocateComponent msg) (CCodec_new deadline) = Finished s1 /\
    run initiateStop s1 = Finished s2 /\
    looper s2 = [allocate_msg; stop_msg] /\
    run (onMessageReceived w allocate_msg) (take_message [stop_msg] s2)
      = Finished s3 /\
    mState s3 = {| get := RELEASED; comp := None |} /\
    run (initiateAllocateComponent msg) s3 = Finished s4 /\
    run initiateStop s4 = Finished s5 /\
    looper s5 = [stop_msg; allocate_msg; stop_msg] /\
    mState s5 = {| get := STOPPING; comp := None |} /\
    run (onMessageReceived w stop_msg)
        (take_message [allocate_msg; stop_msg] s5) = Aborted s6 /\
    mState s6 = {| get := STOPPING; comp := None |} /\
    trace s6
      = [ToStore_createComponent componentName;
         ToComponent c Component.setListener_vb;
         Client (onError UNKNOWN_ERROR ACTION_CODE_FATAL);
         ToChannel Channel.stop] /\
    ~ In onStopCompleted (client_events (trace s6)).
Proof.
  intros w componentName stop_msg.
  eexists _, _, _, _, _, _, _.
  split; [cbn; reflexivity|]. split; [cbn; reflexivity|].
  split; [reflexivity|].
  split.
  { unfold onMessageReceived, onMessageReceived_switch. rewrite run_seq.
    cbn. reflexivity. }
  split; [reflexivity|].
  split; [cbn; reflexivity|]. split; [cbn; reflexivity|].
  split; [reflexivity|]. split; [reflexivity|].
  split.
  { unfold onMessageReceived, onMessageReceived_switch. rewrite run_seq.
    cbn [what stop_msg run snd].
    rewrite run_stop_null_handle by reflexivity. reflexivity. }
  split; [reflexivity|]. split; [reflexivity|].
  cbn. intros [H | []]. discriminate.
Qed.

(** Where the component refuses [start], [stop] or [flush_sm], the worker
    that asked sends [onError(UNKNOWN_ERROR, ACTION_CODE_FATAL)]. *)
Lemma component_refusal_reports_UNKNOWN_ERROR
    (err : c2_status_t) (c : C2Component) (s : CCodec) :
  err <> C2_OK ->
  comp (mState s) = Some c ->
  (get (mState s) = STARTING ->
   run (start err) s
     = Finished (mCallback (onError UNKNOWN_ERROR ACTION_CODE_FATAL)
                   (call c Component.start s))) /\
  (get (mState s) = STOPPING ->
   exists s', run (stop err) s = Finished s' /\
     client_events (trace s')
       = client_events (trace s)
           ++ [onError UNKNOWN_ERROR ACTION_CODE_FATAL; onStopCompleted]) /\
  (get (mState s) = FLUSHING ->
   forall flushedWork, exists s',
     run (flush (err, flushedWork)) s = Finished s' /\
     client_events (trace s')
       = client_events (trace s)
           ++ [onError UNKNOWN_ERROR ACTION_CODE_FATAL; onFlushCompleted]).
Proof.
  intros Hne Hc. destruct s as [[st co] fm dl q li tr lo de].
  cbn in Hc. subst co.
  assert ((err =? C2_OK) = false) as E by now apply Z.eqb_neq.
  repeat split; cbn; intros ->; cbn; rewrite ?E; cbn; try reflexivity.
  - eexists. split; [reflexivity|]. cbn. unfold client_events.
    rewrite <- !app_assoc, !omap_app. cbn. reflexivity.
  - intros flushedWork. eexists. split; [reflexivity|]. cbn.
    unfold client_events. rewrite <- !app_assoc, !omap_app. cbn. reflexivity.
Qed.

(** What the allocate worker does when the store refuses to create the
    component: back to [RELEASED], and the store's own status goes to the
    client as it is. *)
Lemma run_allocate_refused (componentName : string) (err : c2_status_t)
    (comp : option C2Component) (s : CCodec) :
  err <> C2_OK ->
  run (allocate componentName (err, comp)) s
    = Finished (mCallback (onError err ACTION_CODE_FATAL)
                  (set RELEASED
                     (record (ToStore_createComponent componentName)
                        (with_mListener true s)))).
Proof.
  intros Hne. cbn. assert ((err =? C2_OK) = false) as -> by now apply Z.eqb_neq.
  reflexivity.
Qed.

(** C3 does not hold for the component store: with [createComponent]
    answering the status 2 for a name it does not know, the one event the
    allocate worker sends the client is [onError(2, ACTION_CODE_FATAL)],
    which is not [onError(UNKNOWN_ERROR, ACTION_CODE_FATAL)]. *)
Theorem allocate_refused_reports_store_status :
  let s := set ALLOCATING (CCodec_new TimePoint_max) in
  exists s' : CCodec,
    run (allocate "c2.example.none" (2, None)) s = Finished s' /\
    client_events (trace s') = [onError 2 ACTION_CODE_FATAL] /\
    ~ In (onError UNKNOWN_ERROR ACTION_CODE_FATAL) (client_events (trace s')) /\
    get (mState s') = RELEASED.
Proof.
  intros s. eexists. split; [apply run_allocate_refused; discriminate|].
  cbn. repeat split. intros [H | []]. discriminate.
Qed.

End Workers.

Section ReleaseDuringAllocation.

(** [initiateRelease] on an allocating controller: the state becomes
    [RELEASING], the completion goes to the client if it was asked for,
    and no release thread is started. *)
Lemma run_initiateRelease_allocating (sendCallback : bool) (s : CCodec) :
  get (mState s) = ALLOCATING ->
  run (initiateRelease sendCallback) s =
    Finished (if sendCallback
              then mCallback onReleaseCompleted (set RELEASING s)
              else set RELEASING s).
Proof.
  intros Hst. cbn. rewrite Hst. cbn. now destruct sendCallback.
Qed.

(** C4: [initiateRelease] arrives while the allocate worker is under way,
    after [n] of the three blocks the worker runs before it looks at the
    state again (the listener, [createComponent], [setListener_vb]).  The
    state becomes [RELEASING], no release thread is started and
    [onReleaseCompleted] is sent at once if [sendCallback] is true.  The
    worker, whose component has been created, then finds a state other
    than [ALLOCATING]: it ends in [RELEASED] with the component handle as
    it was, the channel not told of the component and no
    [onComponentAllocated] sent (the client gets
    [onError(UNKNOWN_ERROR, ACTION_CODE_FATAL)]). *)
Theorem release_during_allocation
    (componentName : string) (c : C2Component) (sendCallback : bool)
    (n : nat) (s : CCodec) :
  get (mState s) = ALLOCATING ->
  (n <= 3)%nat ->
  let worker := allocate componentName (C2_OK, Some c) in
  let under_way := steps n worker s in
  exists s1 s2 : CCodec,
    run (initiateRelease sendCallback) under_way.2 = Finished s1 /\
    get (mState s1) = RELEASING /\
    detached s1 = detached s /\
    client_events (trace s1)
      = client_events (trace s)
          ++ (if sendCallback then [onReleaseCompleted] else []) /\
    run under_way.1 s1 = Finished s2 /\
    mState s2 = {| get := RELEASED; comp := comp (mState s) |} /\
    channel_calls (trace s2) = channel_calls (trace s) /\
    client_events (trace s2)
      = client_events (trace s)
          ++ (if sendCallback then [onReleaseCompleted] else [])
          ++ [onError UNKNOWN_ERROR ACTION_CODE_FATAL].
Proof.
  intros Hst Hn worker under_way.
  destruct s as [[st co] fm dl q li tr lo de]. cbn in Hst. subst st.
  assert (n = 0 \/ n = 1 \/ n = 2 \/ n = 3)%nat as Hcases by lia.
  destruct Hcases as [-> | [-> | [-> | ->]]];
    destruct sendCallback; cbn;
    (eexists _, _; repeat split; cbn; trace_simpl; reflexivity).
Qed.

(** Scenario A6: the release arrives while the store is still creating
    the component. *)
Lemma release_during_allocation_witness :
  let c := {| comp_id := 0; intf_getName := "c2.example.aac.dec" |} in
  let s := set ALLOCATING (CCodec_new TimePoint_max) in
  let worker := allocate "c2.example.aac.dec" (C2_OK, Some c) in
  get (mState s) = ALLOCATING /\ (2 <= 3)%nat /\
  exists s1 s2 : CCodec,
    run (initiateRelease true) (steps 2 worker s).2 = Finished s1 /\
    run (steps 2 worker s).1 s1 = Finished s2 /\
    mState s2 = {| get := RELEASED; comp := None |} /\
    client_events (trace s2)
      = [onReleaseCompleted; onError UNKNOWN_ERROR ACTION_CODE_FATAL] /\
    channel_calls (trace s2) = [].
Proof.
  intros c s worker. split; [reflexivity|]. split; [lia|].
  destruct (release_during_allocation "c2.example.aac.dec" c true 2 s
              eq_refl ltac:(lia))
    as (s1 & s2 & Hrel & _ & _ & _ & Hrest & Hst & Hch & Hev).
  exists s1, s2. repeat split; assumption.
Defined.

End ReleaseDuringAllocation.

Section ConfigureFrame.

Import AMessage.

(** C10: the configure worker neither reads nor writes the lifecycle
    state or the component handle.  What it sends out ([evs]) and what it
    makes of the stored formats ([publish]) are fixed by the message alone;
    from every controller state it runs to its end, adds [evs] to the
    trace, applies [publish], and leaves [mState] as it was, block by
    block.  For a message that has a [mime], whatever the lifecycle state
    has become since [initiateConfigureComponent] checked it, the stored
    formats are overwritten and [onComponentConfigured] is sent. *)
Theorem configure_ignores_lifecycle (msg : AMessage) :
  exists (evs : list Event) (publish : Formats -> Formats),
    (forall s : CCodec, exists s' : CCodec,
       run (configure msg) s = Finished s' /\
       mState s' = mState s /\
       trace s' = trace s ++ evs /\
       mFormats s' = publish (mFormats s) /\
       looper s' = looper s /\
       detached s' = detached s) /\
    blocks_satisfy (fun s s' => mState s' = mState s) (configure msg) /\
    (forall mime : string,
       findString "mime" msg = Some mime ->
       exists inF outF : AMessage,
         (forall old, publish old
            = {| inputFormat := Some inF; outputFormat := Some outF |}) /\
         client_events evs = [onComponentConfigured inF outF]).
Proof.
  destruct (findString "mime" msg) as [mime|] eqn:Hmime.
  - pose (fmts := configure_formats mime (default 0 (findInt32 "encoder" msg))).
    exists (match findObject "native-window" msg with
            | Some surface => [ToChannel (Channel.setSurface surface)]
            | None => []
            end ++ [Client (onComponentConfigured fmts.1 fmts.2)]).
    exists (fun _ => {| inputFormat := Some fmts.1; outputFormat := Some fmts.2 |}).
    split; [|split].
    + intros s. eexists. split; [apply (run_configure _ _ _ Hmime)|].
      fold fmts. destruct (findObject "native-window" msg); cbn;
        rewrite <- ?app_assoc; repeat split.
    + unfold configure. rewrite Hmime. fold fmts.
      destruct fmts as [i o].
      destruct (findObject "native-window" msg); cbn; repeat split.
    + intros mime' [= <-]. exists fmts.1, fmts.2. split; [reflexivity|].
      destruct (findObject "native-window" msg); reflexivity.
  - exists [Client (onError 1 ACTION_CODE_FATAL)], (fun old => old).
    split; [|split].
    + intros s. eexists. split; [apply (run_configure_no_mime _ _ Hmime)|].
      repeat split.
    + unfold configure. rewrite Hmime. cbn. repeat split.
    + intros mime' [=].
Qed.

(** A configure message that is handled after a release has begun: the
    controller is [RELEASING], and is configured all the same. *)
Lemma configure_ignores_lifecycle_witness :
  let msg : AMessage := {["mime" := kTypeString "video/avc"]} in
  let c := {| comp_id := 0; intf_getName := "c2.example.avc.dec" |} in
  let s := set_comp (Some c) (set RELEASING (CCodec_new TimePoint_max)) in
  findString "mime" msg = Some "video/avc"%string /\
  exists (s' : CCodec) (inF outF : AMessage),
    run (configure msg) s = Finished s' /\
    mState s' = {| get := RELEASING; comp := Some c |} /\
    mFormats s' = {| inputFormat := Some inF; outputFormat := Some outF |} /\
    client_events (trace s') = [onComponentConfigured inF outF].
Proof.
  intros msg c s. split; [reflexivity|].
  destruct (configure_ignores_lifecycle msg) as (evs & publish & Hrun & _ & Hmime).
  destruct (Hrun s) as (s' & Hs' & Hst & Htr & Hfm & _).
  destruct (Hmime "video/avc"%string eq_refl) as (inF & outF & Hpub & Hev).
  exists s', inF, outF. split; [exact Hs'|]. split; [exact Hst|].
  split; [now rewrite Hfm, Hpub|].
  rewrite Htr. exact Hev.
Defined.

End ConfigureFrame.

(** ** What the blocks of each member function leave alone *)

Section Frames.

Lemma blocks_satisfy_impl (R R' : CCodec -> CCodec -> Prop) (t : Thread) :
  (forall s s', R s s' -> R' s s') ->
  blocks_satisfy R t -> blocks_satisfy R' t.
Proof.
  intros Himp. induction t as [| | A b k IH]; cbn; auto.
  intros [Hb Hk]. split; [auto|]. intros a. apply IH, Hk.
Qed.

Lemma blocks_satisfy_seq (R : CCodec -> CCodec -> Prop) (t u : Thread) :
  blocks_satisfy R t -> blocks_satisfy R u -> blocks_satisfy R (seq t u).
Proof.
  intros Ht Hu. induction t as [| | A b k IH]; cbn in *; auto.
  destruct Ht as [Hb Hk]. split; [exact Hb|]. intros a. apply IH, Hk.
Qed.

Lemma worker_frame_refl (s : CCodec) : worker_frame s s.
Proof. repeat split; done. Qed.

Lemma worker_frame_record (e : Event) (s : CCodec) :
  (forall w, e <> ToChannel (Channel.onWorkDone w)) ->
  worker_frame s (record e s).
Proof.
  intros He. split; [split; [reflexivity | split] | reflexivity].
  - cbn. unfold delivered. rewrite omap_app. cbn.
    destruct e as [|[]| |]; cbn; rewrite ?app_nil_r; try reflexivity.
    exfalso. eapply He. reflexivity.
  - cbn. done.
Qed.

Lemma worker_frame_post (msg : Message) (s : CCodec) :
  work_untouched s (post msg s).
Proof. repeat split. cbn. now apply prefix_app_r. Qed.

Ltac frame_step :=
  first
    [ apply worker_frame_refl
    | apply worker_frame_record; intro; discriminate
    | split; [split; [reflexivity | split; [reflexivity | done]]
             | reflexivity] ].

Ltac untouched_step :=
  first
    [ apply worker_frame_post
    | apply (proj1 (worker_frame_refl _))
    | refine (proj1 (worker_frame_record _ _ _)); intro; discriminate
    | split; [reflexivity | split; [reflexivity | done]] ].

Ltac frames step :=
  repeat (cbn [blocks_satisfy fst snd];
          first [ step | intro | progress case_match | split ]).

(** The workers: none of them touches the work-done queue, the looper or
    the deadline, and none hands work to the channel. *)
Lemma allocate_frame (componentName : string)
    (created : c2_status_t * option C2Component) :
  blocks_satisfy worker_frame (allocate componentName created).
Proof. unfold allocate. frames frame_step. Qed.

Lemma configure_frame (msg : AMessage) :
  blocks_satisfy worker_frame (configure msg).
Proof. unfold configure. frames frame_step. Qed.

Lemma createInputSurface_frame (source : GraphicBufferSource) (err : status_t) :
  blocks_satisfy worker_frame (createInputSurface source err).
Proof. unfold createInputSurface. frames frame_step. Qed.

Lemma setInputSurface_frame (surface : nat) :
  blocks_satisfy worker_frame (setInputSurface surface).
Proof. unfold setInputSurface. frames frame_step. Qed.

Lemma start_frame (err : c2_status_t) :
  blocks_satisfy worker_frame (start err).
Proof. unfold start. frames frame_step. Qed.

Lemma stop_frame (err : c2_status_t) :
  blocks_satisfy worker_frame (stop err).
Proof. unfold stop. frames frame_step. Qed.

Lemma flush_frame (flushed : c2_status_t * list C2Work) :
  blocks_satisfy worker_frame (flush flushed).
Proof. unfold flush. frames frame_step. Qed.

Lemma release_frame (sendCallback : bool) :
  blocks_satisfy worker_frame (release sendCallback).
Proof. unfold release. frames frame_step. Qed.

(** The entry points called from other threads: they may post, and leave
    the work alone. *)
Lemma guarded_thread_untouched (c : GuardedCall) :
  blocks_satisfy work_untouched (guarded_thread c).
Proof.
  destruct c; cbn [guarded_thread];
    unfold initiateAllocateComponent, initiateConfigureComponent,
      initiateStart, signalFlush, signalResume;
    frames untouched_step.
Qed.

Lemma initiateStop_untouched : blocks_satisfy work_untouched initiateStop.
Proof. unfold initiateStop. frames untouched_step. Qed.

Lemma initiateRelease_untouched (sendCallback : bool) :
  blocks_satisfy work_untouched (initiateRelease sendCallback).
Proof. unfold initiateRelease. frames untouched_step. Qed.

Lemma initiateShutdown_untouched (keepComponentAllocated : bool) :
  blocks_satisfy work_untouched (initiateShutdown keepComponentAllocated).
Proof.
  destruct keepComponentAllocated;
    [apply initiateStop_untouched | apply initiateRelease_untouched].
Qed.

Lemma initiateReleaseIfStuck_untouched (now : TimePoint) :
  blocks_satisfy work_untouched (initiateReleaseIfStuck now).
Proof.
  unfold initiateReleaseIfStuck. cbn [blocks_satisfy fst snd].
  split; [intros s; apply (proj1 (worker_frame_refl _))|].
  intros [|]; [|exact I]. cbn [blocks_satisfy fst snd]. split.
  - intros s. refine (proj1 (worker_frame_record _ _ _)). intro; discriminate.
  - intros _. apply initiateRelease_untouched.
Qed.

Lemma input_surface_calls_untouched (surface : nat) :
  blocks_satisfy work_untouched initiateCreateInputSurface /\
  blocks_satisfy work_untouched (initiateSetInputSurface surface).
Proof.
  unfold initiateCreateInputSurface, initiateSetInputSurface.
  split; frames untouched_step.
Qed.

Lemma release_untouched (sendCallback : bool) :
  blocks_satisfy work_untouched (release sendCallback).
Proof.
  eapply blocks_satisfy_impl; [|apply release_frame]. now intros s s' [H _].
Qed.

(** No thread but the looper's writes the deadline: not the entry
    points, not the listener, not a release thread. *)
Lemma deadline_untouched_elsewhere :
  (forall c, blocks_satisfy deadline_untouched (guarded_thread c)) /\
  blocks_satisfy deadline_untouched initiateStop /\
  (forall sendCallback,
     blocks_satisfy deadline_untouched (initiateRelease sendCallback)) /\
  (forall sendCallback,
     blocks_satisfy deadline_untouched (release sendCallback)) /\
  (forall now, blocks_satisfy deadline_untouched (initiateReleaseIfStuck now)) /\
  (forall workItems, blocks_satisfy deadline_untouched (onWorkDone workItems)) /\
  blocks_satisfy deadline_untouched initiateCreateInputSurface /\
  (forall surface,
     blocks_satisfy deadline_untouched (initiateSetInputSurface surface)).
Proof.
  assert (forall sendCallback,
            blocks_satisfy deadline_untouched (initiateRelease sendCallback))
    as Hrelease
    by (intros; unfold initiateRelease;
        frames ltac:(unfold deadline_untouched; reflexivity)).
  refine (conj _ (conj _ (conj Hrelease (conj _ (conj _ (conj _ (conj _ _))))))).
  - intros c. destruct c; cbn [guarded_thread];
      unfold initiateAllocateComponent, initiateConfigureComponent,
        initiateStart, signalFlush, signalResume;
      frames ltac:(unfold deadline_untouched; reflexivity).
  - unfold initiateStop. frames ltac:(unfold deadline_untouched; reflexivity).
  - intros sendCallback. eapply blocks_satisfy_impl; [|apply release_frame].
    now intros s s' [_ H].
  - intros now. unfold initiateReleaseIfStuck. cbn [blocks_satisfy fst snd].
    split; [reflexivity|]. intros [|]; [|exact I].
    cbn [blocks_satisfy fst snd]. split; [reflexivity|]. intros _. apply Hrelease.
  - intros workItems. unfold onWorkDone.
    frames ltac:(unfold deadline_untouched; reflexivity).
  - unfold initiateCreateInputSurface.
    frames ltac:(unfold deadline_untouched; reflexivity).
  - intros surface. unfold initiateSetInputSurface.
    frames ltac:(unfold deadline_untouched; reflexivity).
Qed.

End Frames.

Section Deadline.

Lemma steps_Return (n : nat) (s : CCodec) : steps n Return s = (Return, s).
Proof. induction n; cbn; auto. Qed.

Lemma steps_Abort (n : nat) (s : CCodec) : steps n Abort s = (Abort, s).
Proof. induction n; cbn; auto. Qed.

(** A property that every block of a thread carries over holds after
    any number of its blocks. *)
Lemma steps_invariant (P : CCodec -> Prop) (n : nat) (t : Thread) (s : CCodec) :
  blocks_satisfy (fun s s' => P s -> P s') t ->
  P s -> P (steps n t s).2.
Proof.
  revert t s. induction n as [|n IH]; intros t s Ht HP; [exact HP|].
  destruct t as [| | A b k]; cbn [steps step].
  - rewrite steps_Return. exact HP.
  - rewrite steps_Abort. exact HP.
  - destruct Ht as [Hb Hk]. specialize (Hb s).
    destruct (b s) as [a s']. apply IH; [apply Hk | now apply Hb].
Qed.

(** A worker that leaves the deadline alone, followed by the handler's
    last statement: at every point the deadline is the one set on entry,
    until the handler has returned with the deadline at its maximum. *)
Lemma steps_until_exit (d : TimePoint) (n : nat) (t : Thread) (s : CCodec) :
  blocks_satisfy deadline_untouched t ->
  mDeadline s = d ->
  let at_n := steps n (seq t (do setDeadline TimePoint_max; Return)) s in
  mDeadline at_n.2 = d \/
  (at_n.1 = Return /\ mDeadline at_n.2 = TimePoint_max).
Proof.
  revert t s. induction n as [|n IH]; intros t s Ht Hd; [now left|].
  destruct t as [| | A b k]; cbn [seq steps step].
  - rewrite steps_Return. right. split; reflexivity.
  - rewrite steps_Abort. now left.
  - destruct Ht as [Hb Hk]. specialize (Hb s).
    destruct (b s) as [a s']. apply IH; [apply Hk|].
    unfold deadline_untouched in Hb. cbn in Hb. congruence.
Qed.

Lemma budgeted_worker_frame (w : Answers) (msg : Message) :
  blocks_satisfy worker_frame (budgeted_worker w msg).
Proof.
  unfold budgeted_worker.
  destruct (what msg); repeat case_match; try exact I;
    auto using allocate_frame, configure_frame, start_frame, stop_frame,
      flush_frame, createInputSurface_frame, setInputSurface_frame.
Qed.

Lemma onMessageReceived_budgeted (w : Answers) (msg : Message) (d : Z) :
  budget (what msg) = Some d ->
  onMessageReceived w msg
    = Atomic (fun s => (tt, setDeadline (now w + ms d) s))
        (fun _ => seq (budgeted_worker w msg)
                    (do setDeadline TimePoint_max; Return)).
Proof.
  unfold onMessageReceived, onMessageReceived_switch, budgeted_worker.
  destruct (what msg); cbn [budget]; intros [= <-]; reflexivity.
Qed.

Lemma is_Some_None_False {A : Type} : @is_Some A None -> False.
Proof. intros [x Hx]. discriminate. Qed.

(** A worker runs to its end where its message carries its payload and
    the component it calls through is there. *)
Lemma budgeted_worker_returns (w : Answers) (msg : Message) (s : CCodec) :
  carries_payload msg ->
  component_at_hand w msg s ->
  exists s', run (budgeted_worker w msg) s = Finished s'.
Proof.
  unfold carries_payload, component_at_hand, budgeted_worker.
  destruct msg as [wh it]. destruct s as [[st co] fm dl q li tr lo de].
  cbn [what items mState get comp].
  destruct wh; intros Hp Hc.
  - destruct Hp as [name ->]. unfold allocate.
    destruct (createComponent w) as [err [c|]]; cbn in *.
    + destruct (err =? C2_OK); cbn; [|eauto]. destruct st; cbn; eauto.
    + destruct (Z.eqb_spec err C2_OK) as [E|E]; cbn; [|eauto].
      exfalso. apply (is_Some_None_False (Hc E)).
  - destruct Hp as [format ->]. unfold configure.
    repeat case_match; cbn; eauto.
  - destruct st; try (destruct (Hc eq_refl) as [c ->]); cbn;
      repeat case_match; cbn; eauto.
  - destruct st; try (destruct (Hc eq_refl) as [c ->]); cbn;
      repeat case_match; cbn; eauto.
  - destruct st; try (destruct (Hc eq_refl) as [c ->]); cbn;
      repeat case_match; cbn; eauto.
  - unfold createInputSurface. repeat case_match; cbn; eauto.
  - destruct Hp as [surface ->]. cbn. eauto.
  - cbn. eauto.
  - cbn. eauto.
Qed.

Lemma workDone_handler_keeps_deadline (w : Answers) (msg : Message) :
  what msg = kWhatWorkDone ->
  blocks_satisfy
    (fun s s' => mDeadline s = TimePoint_max -> mDeadline s' = TimePoint_max)
    (onMessageReceived w msg).
Proof.
  intros Hw. unfold onMessageReceived, onMessageReceived_switch. rewrite Hw.
  cbn. split.
  - intros s. destruct (mWorkDoneQueue s) as [|front [|next queue]]; cbn; auto.
  - intros [work|]; cbn; auto.
Qed.

(** C8: on entry to a message of a kind that has a budget (150 ms for
    allocate, 50 ms for configure and flush, 550 ms for start and stop,
    100 ms for creating and for setting the input surface) the first thing
    the handler does is to set the deadline to the current time plus that
    budget, and the deadline stays there until the handler returns.  A
    work-done message has no budget: its handler sets no deadline on
    entry, so that the deadline, which every handler leaves at "never",
    stays at "never".  On return from a message of any kind, known or not,
    the deadline is "never" ([TimePoint::max()]); and the handler does
    return where the message carries its payload and the component the
    worker calls through is there. *)
Theorem deadline_policy (w : Answers) (msg : Message) (s : CCodec) :
  (forall d : Z, budget (what msg) = Some d ->
     mDeadline (step (onMessageReceived w msg) s).2 = now w + ms d /\
     forall n : nat, (1 <= n)%nat ->
       let at_n := steps n (onMessageReceived w msg) s in
       mDeadline at_n.2 = now w + ms d \/
       (at_n.1 = Return /\ mDeadline at_n.2 = TimePoint_max)) /\
  (what msg = kWhatWorkDone -> mDeadline s = TimePoint_max ->
     forall n : nat,
       mDeadline (steps n (onMessageReceived w msg) s).2 = TimePoint_max) /\
  (forall s' : CCodec,
     run (onMessageReceived w msg) s = Finished s' ->
     mDeadline s' = TimePoint_max) /\
  (carries_payload msg -> component_at_hand w msg s ->
     exists s' : CCodec, run (onMessageReceived w msg) s = Finished s').
Proof.
  split; [|split; [|split]].
  - intros d Hd. rewrite (onMessageReceived_budgeted w msg d Hd).
    split; [reflexivity|]. intros [|n] Hn; [lia|].
    cbn [steps step]. apply steps_until_exit; [|reflexivity].
    eapply blocks_satisfy_impl; [|apply budgeted_worker_frame].
    now intros ? ? [_ H].
  - intros Hw Hmax n.
    apply (steps_invariant (fun s => mDeadline s = TimePoint_max));
      [now apply workDone_handler_keeps_deadline | exact Hmax].
  - intros s'. unfold onMessageReceived. rewrite run_seq.
    destruct (run (onMessageReceived_switch w msg) s) as [s1|s1]; [|discriminate].
    cbn. now intros [= <-].
  - intros Hp Hc. destruct (budget (what msg)) as [d|] eqn:Hd.
    + rewrite (onMessageReceived_budgeted w msg d Hd). cbn [run].
      rewrite run_seq.
      destruct (budgeted_worker_returns w msg (setDeadline (now w + ms d) s) Hp)
        as [s1 ->].
      { unfold component_at_hand in *. destruct (what msg); exact Hc. }
      cbn. eauto.
    + unfold onMessageReceived, onMessageReceived_switch.
      destruct (what msg); try discriminate; cbn; [|eauto].
      destruct (mWorkDoneQueue s) as [|front [|next queue]]; cbn; eauto.
Qed.

(** A start message, handled at time 1000 by a controller that is
    starting: the deadline is 1000 + 550 ms while [start] runs and
    "never" afterwards; and a work-done message after it. *)
Lemma deadline_policy_witness :
  let c := {| comp_id := 0; intf_getName := "c2.example.aac.dec" |} in
  let s := set_comp (Some c) (set STARTING (CCodec_new TimePoint_max)) in
  let w := {| now := 1000; createComponent := (C2_OK, Some c);
              start_answer := C2_OK; stop_answer := C2_OK;
              flush_answer := (C2_OK, []);
              new_GraphicBufferSource :=
                {| source_id := 0; initCheck := OK;
                   getIGraphicBufferProducer := 0 |};
              setGraphicBufferSource_answer := OK |} in
  let start_msg := {| what := kWhatStart; items := ∅ |} in
  let done_msg := {| what := kWhatWorkDone; items := ∅ |} in
  budget (what start_msg) = Some 550 /\ (1 <= 3)%nat /\
  what done_msg = kWhatWorkDone /\ mDeadline s = TimePoint_max /\
  carries_payload start_msg /\ component_at_hand w start_msg s /\
  mDeadline (step (onMessageReceived w start_msg) s).2 = 1000 + ms 550 /\
  mDeadline (steps 3 (onMessageReceived w start_msg) s).2 = 1000 + ms 550 /\
  mDeadline (steps 2 (onMessageReceived w done_msg) s).2 = TimePoint_max /\
  exists s' : CCodec,
    run (onMessageReceived w start_msg) s = Finished s' /\
    mDeadline s' = TimePoint_max.
Proof.
  intros c s w start_msg done_msg.
  assert (carries_payload start_msg) as Hp by exact I.
  assert (component_at_hand w start_msg s) as Hc by (intros _; exists c; reflexivity).
  destruct (deadline_policy w start_msg s) as (Hentry & _ & Hexit & Hret).
  destruct (Hentry 550 eq_refl) as [H1 Hn].
  destruct (Hret Hp Hc) as [s' Hs'].
  split; [reflexivity|]. split; [lia|]. split; [reflexivity|].
  split; [reflexivity|]. split; [exact Hp|]. split; [exact Hc|].
  split; [exact H1|]. split; [reflexivity|].
  split; [exact (proj1 (proj2 (deadline_policy w done_msg s)) eq_refl eq_refl 2%nat)|].
  exists s'. split; [exact Hs' | exact (Hexit s' Hs')].
Defined.

End Deadline.

Section WorkDone.

Lemma onMessageReceived_untouched (w : Answers) (msg : Message) :
  what msg <> kWhatWorkDone ->
  blocks_satisfy work_untouched (onMessageReceived w msg).
Proof.
  intros Hw. destruct (budget (what msg)) as [d|] eqn:Hd.
  - rewrite (onMessageReceived_budgeted w msg d Hd). cbn [blocks_satisfy].
    split; [intros s; repeat split; done|]. intros _.
    apply blocks_satisfy_seq.
    + eapply blocks_satisfy_impl; [|apply budgeted_worker_frame].
      now intros ? ? [H _].
    + cbn. repeat split; done.
  - unfold onMessageReceived, onMessageReceived_switch.
    destruct (what msg); try discriminate; [contradiction|].
    cbn. repeat split; done.
Qed.

Lemma exit_untouched :
  blocks_satisfy work_untouched (do setDeadline TimePoint_max; Return).
Proof. cbn. repeat split; done. Qed.

Lemma work_done_pending_untouched (s s' : CCodec) :
  work_untouched s s' -> work_done_pending s -> work_done_pending s'.
Proof.
  intros (Hq & _ & [l Hl]) Hp Hne. rewrite Hl. apply Exists_app. left.
  apply Hp. now rewrite <- Hq.
Qed.

Lemma delivered_snoc_work (tr : list Event) (work : C2Work) :
  delivered (tr ++ [ToChannel (Channel.onWorkDone work)])
    = delivered tr ++ [work].
Proof. unfold delivered. now rewrite omap_app. Qed.

(** The listener's enqueue keeps the account. *)
Lemma accounted_enqueue (all workItems : list C2Work) (sys : System) :
  accounted all sys ->
  accounted (all ++ workItems) (move (Listener_onWorkDone workItems) sys).
Proof.
  intros (hand & Hphase & Hall). exists hand. cbn.
  assert (forall s, work_done_pending
            (post {| what := kWhatWorkDone; items := ∅ |}
               (with_mWorkDoneQueue (mWorkDoneQueue s ++ workItems) s))) as Hp.
  { intros s _. cbn. apply Exists_app. right. now constructor. }
  split.
  - destruct Hphase;
      [apply Phase_other | apply Phase_entering | apply Phase_in_hand]; auto.
  - rewrite <- Hall, <- !app_assoc. reflexivity.
Qed.

(** A block of another thread keeps the account. *)
Lemma accounted_elsewhere (all : list C2Work) (block : CCodec -> CCodec)
    (sys : System) :
  (forall s, work_untouched s (block s)) ->
  accounted all sys ->
  accounted all (move (Elsewhere block) sys).
Proof.
  intros Hb (hand & Hphase & Hall). exists hand. cbn.
  pose proof (Hb (controller sys)) as Hu.
  split.
  - destruct Hphase;
      [apply Phase_other | apply Phase_entering | apply Phase_in_hand];
      eauto using work_done_pending_untouched.
  - destruct Hu as (-> & -> & _). exact Hall.
Qed.

(** A move of the looper thread keeps the account: taking the next
    message, popping the front item, handing it to the channel, or a block
    of any other handler. *)
Lemma accounted_looper (all : list C2Work) (w : Answers) (sys : System) :
  accounted all sys ->
  accounted all (move (Looper_thread w) sys).
Proof.
  destruct sys as [s t]. intros (hand & Hphase & Hall). cbn in Hphase, Hall.
  destruct Hphase as [t Ht Hp | w0 msg Hw | work Hp].
  - destruct t as [| | A b k].
    + cbn. destruct (looper s) as [|msg rest] eqn:Hl.
      * exists []. split; [now apply Phase_other | exact Hall].
      * exists []. split; [|exact Hall]. cbn.
        assert (what msg = kWhatWorkDone \/ what msg <> kWhatWorkDone)
          as [Hw|Hw] by (destruct (what msg); auto; right; discriminate).
        { now apply Phase_entering. }
        apply Phase_other; [now apply onMessageReceived_untouched|].
        intros Hne. cbn in *. specialize (Hp Hne). rewrite Hl in Hp.
        inversion Hp; subst; [contradiction | assumption].
    + exists []. split; [now apply Phase_other | exact Hall].
    + cbn. destruct Ht as [Hb Hk]. specialize (Hb s).
      destruct (b s) as [a s']. cbn in *. exists []. split.
      * apply Phase_other; [apply Hk|].
        eapply work_done_pending_untouched; eauto.
      * cbn. destruct Hb as (-> & -> & _). exact Hall.
  - destruct msg as [wh it]. cbn in Hw. subst wh. cbn.
    destruct (mWorkDoneQueue s) as [|front queue] eqn:Hq.
    + exists []. cbn. split; [|now rewrite Hq].
      apply Phase_other; [apply exit_untouched|].
      intros Hne. now rewrite Hq in Hne.
    + exists [front]. cbn. split; [|destruct queue; exact Hall].
      apply Phase_in_hand. intros Hne. destruct queue as [|next queue]; cbn in *;
        [contradiction|]. apply Exists_app. right. now constructor.
  - cbn. exists []. cbn. split.
    + apply Phase_other; [apply exit_untouched|]. exact Hp.
    + rewrite delivered_snoc_work, <- app_assoc. exact Hall.
Qed.

Lemma accounted_moves (ms : list Move) (all : list C2Work) (sys : System) :
  Forall well_behaved ms ->
  accounted all sys ->
  accounted (all ++ enqueued ms) (moves ms sys).
Proof.
  revert all sys. induction ms as [|m ms IH]; intros all sys Hms Hacc.
  - unfold enqueued. cbn. now rewrite app_nil_r.
  - inversion Hms as [|? ? Hm Hms']; subst. cbn [moves foldl].
    destruct m as [workItems | w | block].
    + replace (all ++ enqueued (Listener_onWorkDone workItems :: ms))
        with ((all ++ workItems) ++ enqueued ms)
        by (unfold enqueued; cbn; now rewrite <- app_assoc).
      apply IH; [exact Hms' | now apply accounted_enqueue].
    + apply IH; [exact Hms' | now apply accounted_looper].
    + apply IH; [exact Hms' | now apply accounted_elsewhere].
Qed.

Lemma accounted_fresh (deadline : TimePoint) :
  accounted [] {| controller := CCodec_new deadline; handling := Return |}.
Proof.
  exists []. split; [|reflexivity].
  apply Phase_other; [exact I|]. intros Hne. now contradiction Hne.
Qed.

(** C7: a [kWhatWorkDone] handled with the queue empty changes nothing
    (the handler's last statement, which every message ends with, finds
    the deadline at "never" and leaves it there); handled with work
    queued, it removes the front item and no other, hands that one item to
    the buffer channel's [onWorkDone], and posts a further [kWhatWorkDone]
    exactly when items remain.  So, with the listener enqueuing and the
    other threads running between any two blocks of the looper thread:
    the work the channel has been handed is at every moment a prefix of
    the work enqueued, in the order it was enqueued; and once the looper
    is idle with no message left, it is all of it, each item once. *)
Theorem work_done_exactly_once_in_order :
  (forall (w : Answers) (msg : Message) (s : CCodec),
     what msg = kWhatWorkDone ->
     match mWorkDoneQueue s with
     | [] =>
         run (onMessageReceived w msg) s = Finished (setDeadline TimePoint_max s) /\
         (mDeadline s = TimePoint_max -> setDeadline TimePoint_max s = s)
     | front :: queue =>
         exists s' : CCodec,
           run (onMessageReceived w msg) s = Finished s' /\
           mWorkDoneQueue s' = queue /\
           trace s' = trace s ++ [ToChannel (Channel.onWorkDone front)] /\
           looper s'
             = looper s ++ match queue with
                           | [] => []
                           | _ :: _ => [{| what := kWhatWorkDone; items := ∅ |}]
                           end /\
           mState s' = mState s /\
           detached s' = detached s
     end) /\
  (forall (ms : list Move) (deadline : TimePoint),
     Forall well_behaved ms ->
     let sys := moves ms {| controller := CCodec_new deadline;
                            handling := Return |} in
     delivered (trace (controller sys)) `prefix_of` enqueued ms /\
     (handling sys = Return -> looper (controller sys) = [] ->
      delivered (trace (controller sys)) = enqueued ms)).
Proof.
  split.
  - intros w [wh it] s Hw. cbn in Hw. subst wh.
    destruct s as [st fm dl q li tr lo de]. cbn [mWorkDoneQueue].
    destruct q as [|front [|next queue]].
    + split; [reflexivity|]. cbn. now intros ->.
    + eexists. split; [reflexivity|]. cbn. rewrite app_nil_r. repeat split.
    + eexists. split; [reflexivity|]. cbn. repeat split.
  - intros ms deadline Hms sys.
    destruct (accounted_moves ms [] _ Hms (accounted_fresh deadline))
      as (hand & Hphase & Hall).
    fold sys in Hphase, Hall. cbn [app] in Hall. split.
    + rewrite <- Hall. now apply prefix_app_r.
    + intros Hidle Hempty. rewrite <- Hall.
      destruct Hphase as [t Ht Hp | w msg Hw | work Hp].
      * destruct (mWorkDoneQueue (controller sys)) as [|x q] eqn:Hq;
          [now rewrite !app_nil_r|].
        exfalso. unfold work_done_pending in Hp.
        rewrite Hempty, Hq in Hp. specialize (Hp ltac:(discriminate)).
        inversion Hp.
      * exfalso. destruct msg as [wh it]. cbn in Hw. subst wh.
        discriminate Hidle.
      * discriminate Hidle.
Qed.

(** Scenario A1: three items from the listener, a client callback in
    between, and the looper thread running until it is idle: the channel
    has been handed the three, in order. *)
Lemma work_done_exactly_once_in_order_witness :
  let c := {| comp_id := 0; intf_getName := "c2.example.aac.dec" |} in
  let w := {| now := 1000; createComponent := (C2_OK, Some c);
              start_answer := C2_OK; stop_answer := C2_OK;
              flush_answer := (C2_OK, []);
              new_GraphicBufferSource :=
                {| source_id := 0; initCheck := OK;
                   getIGraphicBufferProducer := 0 |};
              setGraphicBufferSource_answer := OK |} in
  let done_msg := {| what := kWhatWorkDone; items := ∅ |} in
  let ms := [Listener_onWorkDone [1; 2; 3]%nat;
             Elsewhere (mCallback onStopCompleted)]
            ++ replicate 12 (Looper_thread w) in
  let sys := moves ms {| controller := CCodec_new TimePoint_max;
                         handling := Return |} in
  what done_msg = kWhatWorkDone /\
  Forall well_behaved ms /\
  handling sys = Return /\
  looper (controller sys) = [] /\
  delivered (trace (controller sys)) = [1; 2; 3]%nat /\
  run (onMessageReceived w done_msg) (CCodec_new TimePoint_max)
    = Finished (CCodec_new TimePoint_max).
Proof.
  intros c w done_msg ms sys.
  assert (Forall well_behaved ms) as Hms.
  { apply Forall_app. split; [|now apply Forall_replicate].
    constructor; [exact I|]. constructor; [|constructor]. intros s.
    refine (proj1 (worker_frame_record _ _ _)). intro; discriminate. }
  assert (handling sys = Return) as Hidle by reflexivity.
  assert (looper (controller sys) = []) as Hempty by reflexivity.
  split; [reflexivity|]. split; [exact Hms|].
  split; [exact Hidle|]. split; [exact Hempty|]. split.
  - exact (proj2 (proj2 work_done_exactly_once_in_order ms TimePoint_max Hms)
             Hidle Hempty).
  - exact (proj1 (proj1 work_done_exactly_once_in_order w done_msg
                    (CCodec_new TimePoint_max) eq_refl)).
Defined.

End WorkDone.

(** * Further properties of the controller *)

(** Block by block through a thread: [step] closes the goal about one
    block once the block's branches have been told apart. *)
Ltac blocks step :=
  repeat (cbn [blocks_satisfy fst snd];
          first [ step | intro | progress case_match | split ]).

(** The handler's blocks are its own (the deadline on entry and on exit,
    the pop of the work-done queue, the hand-over to the channel) and those
    of the worker it calls. *)
Lemma onMessageReceived_from_workers (R : CCodec -> CCodec -> Prop) :
  (forall s d, R s (setDeadline d s)) ->
  (forall s, R s s) ->
  (forall s front queue,
     mWorkDoneQueue s = front :: queue ->
     R s (match queue with
          | [] => with_mWorkDoneQueue queue s
          | _ :: _ => post {| what := kWhatWorkDone; items := ∅ |}
                        (with_mWorkDoneQueue queue s)
          end)) ->
  (forall s work, R s (mChannel (Channel.onWorkDone work) s)) ->
  (forall m, not_the_handler m -> blocks_satisfy R (member_thread m)) ->
  forall w msg, blocks_satisfy R (onMessageReceived w msg).
Proof.
  intros Hdeadline Hrefl Hpop Hdeliver Hworkers w msg.
  unfold onMessageReceived. apply blocks_satisfy_seq;
    [|cbn; split; [intros s; apply Hdeadline | intros _; exact I]].
  unfold onMessageReceived_switch.
  destruct (what msg); cbn [blocks_satisfy snd];
    try (split; [intros s; apply Hdeadline | intros _]).
  - destruct (AMessage.findString _ _); [|exact I].
    apply (Hworkers (M_allocate _ _) I).
  - destruct (AMessage.findMessage _ _); [|exact I].
    apply (Hworkers (M_configure _) I).
  - apply (Hworkers (M_start _) I).
  - apply (Hworkers (M_flush _) I).
  - apply (Hworkers (M_stop _) I).
  - apply (Hworkers (M_createInputSurface _ _) I).
  - destruct (AMessage.findObject _ _) as [surface|]; [|exact I].
    apply (Hworkers (M_setInputSurface surface) I).
  - split.
    + intros s. destruct (mWorkDoneQueue s) as [|front queue] eqn:Hq; cbn;
        [apply Hrefl | now apply (Hpop s front queue)].
    + intros [work|]; cbn; [|exact I].
      split; [intros s; apply Hdeliver | intros _; exact I].
  - exact I.
Qed.

Ltac unfold_member :=
  cbn [member_thread];
  unfold initiateShutdown, initiateReleaseIfStuck,
    initiateAllocateComponent, allocate, initiateConfigureComponent,
    configure, initiateCreateInputSurface, createInputSurface,
    initiateSetInputSurface, setInputSurface, initiateStart, start,
    initiateStop, stop, initiateRelease, release, signalFlush, flush,
    signalResume, signalSetParameters, signalEndOfInputStream,
    signalRequestIDRFrame, onWorkDone.

(** A goal about the lifecycle value before and after one block, with
    what the block has found out about the value among the hypotheses. *)
Ltac by_state :=
  cbn;
  repeat match goal with
         | H : context [get (mState ?s)] |- _ => revert H
         end;
  try match goal with
      | |- context [get (mState ?s)] => destruct (get (mState s))
      end;
  cbn; intros; try discriminate.

Ltac edge_step :=
  idtac;
  lazymatch goal with
  | |- lifecycle_edge _ _ =>
      solve [ unfold lifecycle_edge; by_state;
              first [left; reflexivity | right; reflexivity] ]
  end.

Ltac handle_step :=
  idtac;
  lazymatch goal with
  | |- handle_write _ _ _ =>
      solve [ unfold handle_write; by_state;
              first [ left; reflexivity
                    | right; left; repeat split; done
                    | right; right; repeat split; reflexivity ] ]
  end.

Lemma lifecycle_edge_members (m : Member) :
  not_the_handler m -> blocks_satisfy lifecycle_edge (member_thread m).
Proof.
  destruct m; intros Hm; try contradiction; unfold_member;
    blocks edge_step.
Qed.

Lemma handle_write_members (m : Member) :
  not_the_handler m -> blocks_satisfy (handle_write m) (member_thread m).
Proof.
  destruct m; intros Hm; try contradiction; unfold_member;
    blocks handle_step.
Qed.

(** X1: under any interleaving, the lifecycle value moves only along
    the edges the guards in the source allow.  Every atomic block of every
    member function either leaves the value as it is or writes a value
    over one it may replace: [ALLOCATING] over [RELEASED] only,
    [ALLOCATED] over [ALLOCATING] or [STOPPING] only, [STARTING] over
    [ALLOCATED] only, [RUNNING] over [STARTING] or [RESUMING] only,
    [FLUSHING] over [RUNNING] only, [RESUMING] over [FLUSHED] only,
    [STOPPING] never over [ALLOCATED], [RELEASED] or [RELEASING],
    [RELEASING] never over [RELEASED]; [FLUSHED] and [RELEASED] are
    written over any value. *)
Theorem lifecycle_moves_along_edges (m : Member) :
  blocks_satisfy
    (fun s s' =>
       get (mState s') = get (mState s) \/
       entered_from (get (mState s')) (get (mState s)) = true)
    (member_thread m).
Proof.
  change (blocks_satisfy lifecycle_edge (member_thread m)).
  destruct m as [| | | | | | | | | | | | | | | | | | | | | | w msg |];
    try (apply lifecycle_edge_members; exact I).
  cbn [member_thread]. apply onMessageReceived_from_workers.
  - intros s d. now left.
  - intros s. now left.
  - intros s front queue _. left. now destruct queue.
  - intros s work. now left.
  - apply lifecycle_edge_members.
Qed.

(** The worker behind a message that has a budget is one of the member
    functions; it is the configure worker for a configure message only. *)
Lemma budgeted_worker_member (w : Answers) (msg : Message) :
  budgeted_worker w msg = Return \/ budgeted_worker w msg = Abort \/
  exists m : Member,
    not_the_handler m /\
    (is_configure m = true -> what msg = kWhatConfigure) /\
    is_work_done m = false /\
    budgeted_worker w msg = member_thread m.
Proof.
  unfold budgeted_worker.
  destruct (what msg) eqn:Hw; repeat case_match; auto; right; right.
  - eexists (M_allocate _ _). repeat split. discriminate.
  - eexists (M_configure _). repeat split.
  - eexists (M_start _). repeat split. discriminate.
  - eexists (M_flush _). repeat split. discriminate.
  - eexists (M_stop _). repeat split. discriminate.
  - eexists (M_createInputSurface _ _). repeat split. discriminate.
  - exists (M_setInputSurface 0). repeat split. discriminate.
Qed.

Lemma onMessageReceived_from_worker (R : CCodec -> CCodec -> Prop)
    (w : Answers) (msg : Message) :
  (forall s d, R s (setDeadline d s)) ->
  what msg <> kWhatWorkDone ->
  blocks_satisfy R (budgeted_worker w msg) ->
  blocks_satisfy R (onMessageReceived w msg).
Proof.
  intros Hdeadline Hw Hworker.
  assert (blocks_satisfy R (do setDeadline TimePoint_max; Return)) as Hexit
    by (cbn; split; [intros s; apply Hdeadline | intros _; exact I]).
  destruct (budget (what msg)) as [d|] eqn:Hd.
  - rewrite (onMessageReceived_budgeted w msg d Hd). cbn [blocks_satisfy snd].
    split; [intros s; apply Hdeadline|]. intros _.
    now apply blocks_satisfy_seq.
  - unfold onMessageReceived, onMessageReceived_switch.
    destruct (what msg); try discriminate; [contradiction | exact Hexit].
Qed.

(** A worker that is neither the allocate worker nor the release worker
    leaves the handle; what the handler runs for an allocate message is
    the allocate worker. *)
Lemma handle_write_worker (w : Answers) (msg : Message) :
  blocks_satisfy (handle_write (M_onMessageReceived w msg))
    (budgeted_worker w msg).
Proof.
  assert (Hkept : forall m : Member,
            not_the_handler m -> is_allocate m = false ->
            is_release m = false ->
            blocks_satisfy (handle_write (M_onMessageReceived w msg))
              (member_thread m)).
  { intros m Hm Ha Hr.
    apply (blocks_satisfy_impl (handle_write m)); [|now apply handle_write_members].
    intros s s' [H | [[H _] | [H _]]]; [now left | congruence | congruence]. }
  unfold budgeted_worker. destruct (what msg) eqn:Hw; repeat case_match;
    try exact I.
  - apply (blocks_satisfy_impl (handle_write (M_allocate s (createComponent w))));
      [|apply handle_write_members; exact I].
    unfold handle_write. cbn [is_allocate is_release]. rewrite Hw. tauto.
  - apply (Hkept (M_configure _)); done.
  - apply (Hkept (M_start _)); done.
  - apply (Hkept (M_flush _)); done.
  - apply (Hkept (M_stop _)); done.
  - apply (Hkept (M_createInputSurface _ _)); done.
  - apply (Hkept (M_setInputSurface 0)); done.
Qed.

(** X2: under any interleaving, the component handle is written in two
    ways only: a component is installed by the block of the allocate
    worker that turns [ALLOCATING] into [ALLOCATED], and the handle is
    cleared by the block of the release worker that sets [RELEASED].  No
    other block of any member function changes it: not the blocks of the
    allocate worker that rewind to [RELEASED], and no block of the
    message handler unless the message is an allocate message. *)
Theorem component_handle_writes (m : Member) :
  blocks_satisfy
    (fun s s' =>
       comp (mState s') = comp (mState s) \/
       (is_allocate m = true /\
        get (mState s) = ALLOCATING /\ get (mState s') = ALLOCATED /\
        is_Some (comp (mState s'))) \/
       (is_release m = true /\
        get (mState s') = RELEASED /\ comp (mState s') = None))
    (member_thread m).
Proof.
  change (blocks_satisfy (handle_write m) (member_thread m)).
  destruct m as [| | | | | | | | | | | | | | | | | | | | | | w msg |];
    try (apply handle_write_members; exact I).
  cbn [member_thread].
  assert (what msg = kWhatWorkDone \/ what msg <> kWhatWorkDone) as [Hw|Hw]
    by (destruct (what msg); auto; right; discriminate).
  - unfold onMessageReceived, onMessageReceived_switch. rewrite Hw.
    cbn. split.
    + intros s. left. destruct (mWorkDoneQueue s) as [|front [|next queue]];
        reflexivity.
    + intros [work|]; cbn; repeat split; intros; now left.
  - apply onMessageReceived_from_worker; [|exact Hw|apply handle_write_worker].
    intros s d. now left.
Qed.

Ltac formats_step :=
  idtac;
  lazymatch goal with
  | |- formats_untouched _ _ => solve [unfold formats_untouched; reflexivity]
  end.

Ltac deadline_step :=
  idtac;
  lazymatch goal with
  | |- deadline_untouched _ _ => solve [unfold deadline_untouched; reflexivity]
  end.

Ltac work_step :=
  idtac;
  lazymatch goal with
  | |- work_untouched _ _ =>
      solve [ apply worker_frame_post
            | apply (proj1 (worker_frame_refl _))
            | refine (proj1 (worker_frame_record _ _ _)); intro; discriminate
            | split; [reflexivity | split; [reflexivity | done]] ]
  end.

Lemma formats_untouched_members (m : Member) :
  not_the_handler m -> is_configure m = false ->
  blocks_satisfy formats_untouched (member_thread m).
Proof.
  destruct m; intros Hm Hc; try contradiction; try discriminate;
    unfold_member; blocks formats_step.
Qed.

Lemma deadline_untouched_members (m : Member) :
  not_the_handler m ->
  blocks_satisfy deadline_untouched (member_thread m).
Proof.
  destruct m; intros Hm; try contradiction; unfold_member;
    blocks deadline_step.
Qed.

Lemma work_untouched_members (m : Member) :
  not_the_handler m -> is_work_done m = false ->
  blocks_satisfy work_untouched (member_thread m).
Proof.
  destruct m; intros Hm Hc; try contradiction; try discriminate;
    unfold_member; blocks work_step.
Qed.

(** X3: who writes what, under any interleaving.  The stored formats
    are written by the configure worker only; the deadline by the message
    handler only; the work-done queue is changed, and work handed to the
    channel's [onWorkDone], by the listener's [onWorkDone] and the
    work-done handler only, and no other member function takes a message
    off the looper.  Block by block, every other member function leaves
    them as they are. *)
Theorem state_ownership (m : Member) :
  (is_configure m = false ->
   blocks_satisfy (fun s s' => mFormats s' = mFormats s) (member_thread m)) /\
  (not_the_handler m ->
   blocks_satisfy (fun s s' => mDeadline s' = mDeadline s) (member_thread m)) /\
  (is_work_done m = false ->
   blocks_satisfy
     (fun s s' =>
        mWorkDoneQueue s' = mWorkDoneQueue s /\
        delivered (trace s') = delivered (trace s) /\
        looper s `prefix_of` looper s')
     (member_thread m)).
Proof.
  split; [|split].
  - intros Hc. change (blocks_satisfy formats_untouched (member_thread m)).
    destruct m as [| | | | | | | | | | | | | | | | | | | | | | w msg |];
      try (apply formats_untouched_members; [exact I | exact Hc]).
    cbn in Hc. cbn [member_thread].
    destruct (what msg) eqn:Hw; try discriminate;
      try (apply onMessageReceived_from_worker;
           [ reflexivity
           | rewrite Hw; discriminate
           | destruct (budgeted_worker_member w msg)
               as [-> | [-> | (m & Hm & Hconf & _ & ->)]];
             [ exact I | exact I
             | apply formats_untouched_members; [exact Hm|];
               destruct (is_configure m); [|reflexivity];
               rewrite Hw in Hconf; discriminate (Hconf eq_refl) ] ]).
    unfold onMessageReceived, onMessageReceived_switch. rewrite Hw.
    cbn. split.
    + intros s. destruct (mWorkDoneQueue s) as [|front [|next queue]];
        reflexivity.
    + intros [work|]; cbn; repeat split.
  - intros Hm. apply deadline_untouched_members, Hm.
  - intros Hc. change (blocks_satisfy work_untouched (member_thread m)).
    destruct m as [| | | | | | | | | | | | | | | | | | | | | | w msg |];
      try (apply work_untouched_members; [exact I | exact Hc]).
    cbn in Hc. cbn [member_thread].
    assert (what msg <> kWhatWorkDone) as Hw
      by (destruct (what msg); try discriminate; intros [=]).
    apply onMessageReceived_from_worker; [|exact Hw|].
    + intros s d. repeat split; done.
    + destruct (budgeted_worker_member w msg)
        as [-> | [-> | (m & Hm & _ & Hwd & ->)]]; try exact I.
      now apply work_untouched_members.
Qed.

(** The start worker: it writes neither the formats nor the deadline,
    and leaves the work alone. *)
Lemma state_ownership_witness :
  is_configure (M_start C2_OK) = false /\
  not_the_handler (M_start C2_OK) /\
  is_work_done (M_start C2_OK) = false /\
  blocks_satisfy (fun s s' => mFormats s' = mFormats s) (start C2_OK) /\
  blocks_satisfy (fun s s' => mDeadline s' = mDeadline s) (start C2_OK) /\
  blocks_satisfy
    (fun s s' =>
       mWorkDoneQueue s' = mWorkDoneQueue s /\
       delivered (trace s') = delivered (trace s) /\
       looper s `prefix_of` looper s')
    (start C2_OK).
Proof.
  destruct (state_ownership (M_start C2_OK)) as (Hf & Hd & Hw).
  split; [reflexivity|]. split; [exact I|]. split; [reflexivity|].
  split; [exact (Hf eq_refl)|]. split; [exact (Hd I) | exact (Hw eq_refl)].
Defined.

Ltac sound_step :=
  idtac;
  lazymatch goal with
  | |- keeps_looper_sound _ _ =>
      solve [ unfold keeps_looper_sound, looper_sound; cbn; intros Hsound;
              first [ exact Hsound
                    | apply Forall_app; split; [exact Hsound|];
                      constructor; [|constructor];
                      unfold carries_payload; cbn; by eexists ] ]
  | Hsound : looper_sound ?s |- looper_sound _ =>
      solve [ unfold looper_sound in *; cbn;
              first [ exact Hsound
                    | apply Forall_app; split; [exact Hsound|];
                      constructor; [|constructor];
                      unfold carries_payload; cbn; by eexists ] ]
  end.

Lemma keeps_looper_sound_members (m : Member) :
  not_the_handler m ->
  blocks_satisfy keeps_looper_sound (member_thread m).
Proof.
  destruct m; intros Hm; try contradiction; unfold_member;
    blocks sound_step.
Qed.

Lemma keeps_looper_sound_handler (w : Answers) (msg : Message) :
  blocks_satisfy keeps_looper_sound (onMessageReceived w msg).
Proof.
  apply onMessageReceived_from_workers.
  - intros s d H. exact H.
  - intros s H. exact H.
  - intros s front queue _ H. destruct queue; [exact H|].
    unfold looper_sound in *. cbn. apply Forall_app. split; [exact H|].
    constructor; [exact I | constructor].
  - intros s work H. exact H.
  - apply keeps_looper_sound_members.
Qed.

(** X4: no [CHECK] of the message handler can fail on a message the
    controller has posted to itself.  Block by block, every member
    function keeps the looper free of messages that lack their payload
    (the component name of an allocate message, the format of a configure
    message, the surface of a set-input-surface message); so, from a new
    controller and under any interleaving of the listener, the looper
    thread and blocks of other threads that post no such message, every
    message waiting in the looper carries its payload. *)
Theorem posted_messages_carry_payload :
  (forall m : Member,
     blocks_satisfy
       (fun s s' => Forall carries_payload (looper s) ->
                    Forall carries_payload (looper s'))
       (member_thread m)) /\
  (forall (ms : list Move) (deadline : TimePoint),
     Forall sound_move ms ->
     Forall carries_payload
       (looper (controller
                  (moves ms {| controller := CCodec_new deadline;
                               handling := Return |})))).
Proof.
  assert (forall m, blocks_satisfy keeps_looper_sound (member_thread m)) as Hall.
  { intros m.
    destruct m as [| | | | | | | | | | | | | | | | | | | | | | w msg |];
      try (apply keeps_looper_sound_members; exact I).
    apply keeps_looper_sound_handler. }
  split; [exact Hall|].
  intros ms deadline Hms.
  enough (forall sys,
            looper_sound (controller sys) ->
            blocks_satisfy keeps_looper_sound (handling sys) ->
            looper_sound (controller (moves ms sys))) as Hgen
    by (apply Hgen; [constructor | exact I]).
  induction ms as [|m ms IH]; intros sys Hsound Hblocks; [exact Hsound|].
  inversion Hms as [|? ? Hm Hms']; subst. cbn [moves foldl].
  destruct sys as [s t]. cbn in Hsound, Hblocks.
  destruct m as [workItems | w | block]; apply (IH Hms'); cbn.
  - unfold looper_sound in *. cbn. apply Forall_app. split; [exact Hsound|].
    constructor; [exact I | constructor].
  - exact Hblocks.
  - destruct t as [| | A b k]; cbn.
    + destruct (looper s) as [|msg rest] eqn:Hl; cbn; [exact Hsound|].
      unfold looper_sound in *. rewrite Hl in Hsound.
      now inversion Hsound.
    + exact Hsound.
    + destruct Hblocks as [Hb Hk]. specialize (Hb s).
      destruct (b s) as [a s']. cbn in *. now apply Hb.
  - destruct t as [| | A b k]; cbn.
    + destruct (looper s) as [|msg rest]; cbn; [exact I|].
      apply keeps_looper_sound_handler.
    + exact I.
    + destruct Hblocks as [Hb Hk]. destruct (b s) as [a s']. apply Hk.
  - now apply Hm.
  - exact Hblocks.
Qed.

(** The client starts and flushes while the listener enqueues work and
    the looper thread runs: the three messages waiting at the end carry
    their payload. *)
Lemma posted_messages_carry_payload_witness :
  let ms := [Elsewhere (fun s => state_of (run initiateStart s));
             Listener_onWorkDone [1%nat];
             Elsewhere (fun s => state_of (run initiateCreateInputSurface s))] in
  Forall sound_move ms /\
  Forall carries_payload
    (looper (controller (moves ms {| controller := CCodec_new TimePoint_max;
                                     handling := Return |}))).
Proof.
  intros ms.
  assert (Forall sound_move ms) as Hms.
  { constructor; [|constructor; [exact I|constructor; [|constructor]]].
    - intros s H. unfold looper_sound in *. cbn.
      destruct (get (mState s)); cbn; try exact H.
      apply Forall_app. split; [exact H|]. constructor; [exact I|constructor].
    - intros s H. unfold looper_sound in *. cbn.
      apply Forall_app. split; [exact H|]. constructor; [exact I|constructor]. }
  split; [exact Hms|].
  exact (proj2 posted_messages_carry_payload ms TimePoint_max Hms).
Defined.

(** ** Allocation *)

(** X5: allocation from the call to the callback.  On a released
    controller [initiateAllocateComponent] sets [ALLOCATING] and posts one
    message, which carries the component name of the request, or the
    empty name where the request has none.  The handler of that message
    asks the store for that name.  If the store hands out a component, the
    controller ends [ALLOCATED] holding it, the component has been given
    the listener and then been attached to the buffer channel, and the
    client is told the name the component's interface reports (not the
    name asked for).  If the store refuses, the controller is back in
    [RELEASED] without a component and the channel has not been called.
    Either way the deadline is "never" afterwards. *)
Theorem allocation_round_trip (msg : AMessage) (w : Answers) (s : CCodec) :
  get (mState s) = RELEASED ->
  let componentName :=
    default ""%string (AMessage.findString "componentName" msg) in
  exists (posted : Message) (s1 : CCodec),
    run (initiateAllocateComponent msg) s = Finished s1 /\
    looper s1 = looper s ++ [posted] /\
    what posted = kWhatAllocate /\
    get (mState s1) = ALLOCATING /\
    trace s1 = trace s /\
    (forall c : C2Component,
       createComponent w = (C2_OK, Some c) ->
       exists s2 : CCodec,
         run (onMessageReceived w posted) (take_message (looper s) s1)
           = Finished s2 /\
         mState s2 = {| get := ALLOCATED; comp := Some c |} /\
         trace s2 = trace s
           ++ [ToStore_createComponent componentName;
               ToComponent c Component.setListener_vb;
               ToChannel (Channel.setComponent c);
               Client (onComponentAllocated (intf_getName c))] /\
         mDeadline s2 = TimePoint_max) /\
    (forall (err : c2_status_t) (nothing : option C2Component),
       createComponent w = (err, nothing) -> err <> C2_OK ->
       exists s2 : CCodec,
         run (onMessageReceived w posted) (take_message (looper s) s1)
           = Finished s2 /\
         mState s2 = {| get := RELEASED; comp := comp (mState s) |} /\
         trace s2 = trace s
           ++ [ToStore_createComponent componentName;
               Client (onError err ACTION_CODE_FATAL)] /\
         mDeadline s2 = TimePoint_max).
Proof.
  intros Hst componentName.
  destruct s as [[st co] fm dl q li tr lo de]. cbn in Hst. subst st.
  eexists _, _. split; [reflexivity|]. cbn.
  repeat split.
  - intros c Hc. unfold onMessageReceived, onMessageReceived_switch.
    cbn [what items]. rewrite run_seq. cbn. rewrite Hc. cbn.
    eexists. split; [reflexivity|]. cbn. rewrite <- !app_assoc. repeat split.
  - intros err nothing Hc Hne. unfold onMessageReceived, onMessageReceived_switch.
    cbn [what items]. rewrite run_seq. cbn. rewrite Hc.
    destruct err as [|p|p]; [contradiction| |];
      cbn; (eexists; split; [reflexivity|]); cbn; rewrite <- !app_assoc;
      repeat split.
Qed.

(** A request without a component name: the store is asked for the empty
    name, and the client is told the name of what it hands out. *)
Lemma allocation_round_trip_witness :
  let c := {| comp_id := 7; intf_getName := "c2.example.aac.dec" |} in
  let w := {| now := 1000; createComponent := (C2_OK, Some c);
              start_answer := C2_OK; stop_answer := C2_OK;
              flush_answer := (C2_OK, []);
              new_GraphicBufferSource :=
                {| source_id := 0; initCheck := OK;
                   getIGraphicBufferProducer := 0 |};
              setGraphicBufferSource_answer := OK |} in
  let s := CCodec_new TimePoint_max in
  get (mState s) = RELEASED /\
  exists (posted : Message) (s1 s2 : CCodec),
    run (initiateAllocateComponent ∅) s = Finished s1 /\
    looper s1 = [posted] /\
    run (onMessageReceived w posted) (take_message [] s1) = Finished s2 /\
    mState s2 = {| get := ALLOCATED; comp := Some c |} /\
    client_events (trace s2) = [onComponentAllocated "c2.example.aac.dec"] /\
    In (ToStore_createComponent "") (trace s2).
Proof.
  intros c w s. split; [reflexivity|].
  destruct (allocation_round_trip ∅ w s eq_refl)
    as (posted & s1 & Hrun & Hl & _ & _ & _ & Hok & _).
  destruct (Hok c eq_refl) as (s2 & Hrun2 & Hst & Htr & _).
  exists posted, s1, s2. split; [exact Hrun|]. split; [exact Hl|].
  split; [exact Hrun2|]. split; [exact Hst|]. rewrite Htr.
  split; [reflexivity|]. left. reflexivity.
Defined.

(** ** Start *)

(** X6: the start worker, in every state.  Entered in a state other
    than [STARTING] it only reports
    [onError(UNKNOWN_ERROR, ACTION_CODE_FATAL)].  Entered in [STARTING]
    with a component at hand it calls [start()] on the component; if
    that fails it reports the error, does not start the buffer channel
    and leaves the controller in [STARTING] (it does not go back to
    [ALLOCATED]); if it succeeds it starts the channel with the two
    stored formats, sets [RUNNING] and sends [onStartCompleted].  Entered
    in [STARTING] with no component at hand it calls [start()] through
    the null handle: the run does not return, and nothing has been sent
    or changed. *)
Theorem start_worker_spec (start_err : c2_status_t) (s : CCodec) :
  (get (mState s) <> STARTING ->
   exists s', run (start start_err) s = Finished s' /\
     emits_only [onError UNKNOWN_ERROR ACTION_CODE_FATAL] s s') /\
  (forall c : C2Component,
     get (mState s) = STARTING -> comp (mState s) = Some c ->
     (start_err <> C2_OK ->
      exists s', run (start start_err) s = Finished s' /\
        trace s' = trace s
          ++ [ToComponent c Component.start;
              Client (onError UNKNOWN_ERROR ACTION_CODE_FATAL)] /\
        mState s' = mState s) /\
     (start_err = C2_OK ->
      exists s', run (start start_err) s = Finished s' /\
        trace s' = trace s
          ++ [ToComponent c Component.start;
              ToChannel (Channel.start (inputFormat (mFormats s))
                           (outputFormat (mFormats s)));
              Client onStartCompleted] /\
        mState s' = {| get := RUNNING; comp := Some c |})) /\
  (get (mState s) = STARTING -> comp (mState s) = None ->
   run (start start_err) s = Aborted s).
Proof.
  destruct s as [[st co] fm dl q li tr lo de]. cbn [mState get comp].
  split; [|split].
  - intros Hne. eexists. split; [|apply emits_only_mCallback].
    destruct st; try contradiction; reflexivity.
  - intros c -> ->. split.
    + intros Hne. destruct start_err as [|p|p]; [contradiction| |];
        (eexists; split; [reflexivity|]); cbn; rewrite <- !app_assoc;
        repeat split.
    + intros ->. eexists. split; [reflexivity|]. cbn.
      rewrite <- !app_assoc. repeat split.
  - intros -> ->. reflexivity.
Qed.

Lemma start_worker_spec_witness :
  let c := {| comp_id := 0; intf_getName := "c2.example.aac.dec" |} in
  let s := set_comp (Some c) (set STARTING (CCodec_new TimePoint_max)) in
  get (mState (CCodec_new TimePoint_max)) <> STARTING /\
  get (mState s) = STARTING /\ comp (mState s) = Some c /\
  (2 <> C2_OK) /\
  (exists s', run (start C2_OK) (CCodec_new TimePoint_max) = Finished s' /\
     client_events (trace s') = [onError UNKNOWN_ERROR ACTION_CODE_FATAL]) /\
  (exists s', run (start 2) s = Finished s' /\
     get (mState s') = STARTING /\ channel_calls (trace s') = []) /\
  (exists s', run (start C2_OK) s = Finished s' /\
     get (mState s') = RUNNING /\
     channel_calls (trace s') = [Channel.start None None]) /\
  get (mState (set STARTING (CCodec_new TimePoint_max))) = STARTING /\
  comp (mState (set STARTING (CCodec_new TimePoint_max))) = None /\
  run (start C2_OK) (set STARTING (CCodec_new TimePoint_max))
    = Aborted (set STARTING (CCodec_new TimePoint_max)).
Proof.
  intros c s.
  assert (get (mState (CCodec_new TimePoint_max)) <> STARTING) as H0
    by discriminate.
  assert (2 <> C2_OK) as H2 by discriminate.
  split; [exact H0|]. split; [reflexivity|]. split; [reflexivity|].
  split; [exact H2|]. split; [|split; [|split]].
  - destruct (proj1 (start_worker_spec C2_OK (CCodec_new TimePoint_max)) H0)
      as (s' & Hrun & Hev & _).
    exists s'. split; [exact Hrun|]. now rewrite Hev.
  - destruct (proj1 (proj1 (proj2 (start_worker_spec 2 s)) c eq_refl eq_refl) H2)
      as (s' & Hrun & Htr & Hst).
    exists s'. split; [exact Hrun|]. rewrite Hst, Htr. split; reflexivity.
  - destruct (proj2 (proj1 (proj2 (start_worker_spec C2_OK s)) c eq_refl eq_refl)
                eq_refl)
      as (s' & Hrun & Htr & Hst).
    exists s'. split; [exact Hrun|]. rewrite Hst, Htr. split; reflexivity.
  - split; [reflexivity|]. split; [reflexivity|].
    exact (proj2 (proj2 (start_worker_spec C2_OK
                           (set STARTING (CCodec_new TimePoint_max))))
             eq_refl eq_refl).
Defined.

(** X7: configure, then start.  On an allocated controller:
    [initiateConfigureComponent] with a format that has a [mime], the
    handler of the message it posts, [initiateStart], and the handler of
    the message that posts, with the component's [start()] succeeding.
    The controller ends [RUNNING]; the client has received
    [onComponentConfigured] with the two formats and then
    [onStartCompleted], and nothing else; and the buffer channel has been
    started with those same two formats. *)
Theorem configure_then_start
    (format : AMessage) (mime : string) (c : C2Component)
    (w : Answers) (s : CCodec) :
  get (mState s) = ALLOCATED ->
  comp (mState s) = Some c ->
  AMessage.findString "mime" format = Some mime ->
  start_answer w = C2_OK ->
  let fmts :=
    configure_formats mime
      (default 0 (AMessage.findInt32 "encoder" format)) in
  let configure_msg :=
    {| what := kWhatConfigure;
       items := AMessage.setMessage "format" format ∅ |} in
  let start_msg := {| what := kWhatStart; items := ∅ |} in
  exists s1 s2 s3 s4 : CCodec,
    run (initiateConfigureComponent format) s = Finished s1 /\
    looper s1 = looper s ++ [configure_msg] /\
    run (onMessageReceived w configure_msg) s1 = Finished s2 /\
    run initiateStart s2 = Finished s3 /\
    looper s3 = looper s2 ++ [start_msg] /\
    run (onMessageReceived w start_msg) s3 = Finished s4 /\
    mState s4 = {| get := RUNNING; comp := Some c |} /\
    mFormats s4 = {| inputFormat := Some fmts.1; outputFormat := Some fmts.2 |} /\
    client_events (trace s4)
      = client_events (trace s)
          ++ [onComponentConfigured fmts.1 fmts.2; onStartCompleted] /\
    channel_calls (trace s4)
      = channel_calls (trace s)
          ++ match AMessage.findObject "native-window" format with
             | Some surface => [Channel.setSurface surface]
             | None => []
             end
          ++ [Channel.start (Some fmts.1) (Some fmts.2)] /\
    mDeadline s4 = TimePoint_max.
Proof.
  intros Hst Hc Hmime Hstart fmts configure_msg start_msg.
  destruct s as [[st co] fm dl q li tr lo de]. cbn in Hst, Hc. subst st co.
  destruct (AMessage.findObject "native-window" format) as [surface|] eqn:Hwin;
    (eexists; eexists; eexists; eexists;
     split; [reflexivity|]; split; [reflexivity|];
     split;
     [ unfold onMessageReceived, onMessageReceived_switch; rewrite run_seq;
       cbn [what items configure_msg run];
       change (AMessage.findMessage "format"
                 (AMessage.setMessage "format" format ∅)) with (Some format);
       cbn [run]; rewrite (run_configure format mime _ Hmime), Hwin;
       cbn; reflexivity |];
     split; [reflexivity|]; split; [reflexivity|];
     split;
     [ unfold onMessageReceived, onMessageReceived_switch; rewrite run_seq;
       cbn; rewrite Hstart; cbn; reflexivity |];
     cbn; fold fmts; repeat split;
     unfold client_events, channel_calls;
     rewrite <- ?app_assoc, !omap_app; reflexivity).
Qed.

(** Scenario A1 up to the start: an audio decoder. *)
Lemma configure_then_start_witness :
  let c := {| comp_id := 0; intf_getName := "c2.example.aac.dec" |} in
  let w := {| now := 1000; createComponent := (C2_OK, Some c);
              start_answer := C2_OK; stop_answer := C2_OK;
              flush_answer := (C2_OK, []);
              new_GraphicBufferSource :=
                {| source_id := 0; initCheck := OK;
                   getIGraphicBufferProducer := 0 |};
              setGraphicBufferSource_answer := OK |} in
  let s := set_comp (Some c) (set ALLOCATED (CCodec_new TimePoint_max)) in
  let format : AMessage := {["mime" := kTypeString "audio/mp4a-latm"]} in
  get (mState s) = ALLOCATED /\ comp (mState s) = Some c /\
  AMessage.findString "mime" format = Some "audio/mp4a-latm"%string /\
  start_answer w = C2_OK /\
  exists (s1 s2 s3 s4 : CCodec) (inF outF : AMessage),
    run (initiateConfigureComponent format) s = Finished s1 /\
    run (onMessageReceived w {| what := kWhatConfigure;
                                items := AMessage.setMessage "format" format ∅ |})
      s1 = Finished s2 /\
    run initiateStart s2 = Finished s3 /\
    run (onMessageReceived w {| what := kWhatStart; items := ∅ |}) s3
      = Finished s4 /\
    get (mState s4) = RUNNING /\
    client_events (trace s4)
      = [onComponentConfigured inF outF; onStartCompleted] /\
    channel_calls (trace s4) = [Channel.start (Some inF) (Some outF)].
Proof.
  intros c w s format.
  split; [reflexivity|]. split; [reflexivity|]. split; [reflexivity|].
  split; [reflexivity|].
  destruct (configure_then_start format "audio/mp4a-latm" c w s
              eq_refl eq_refl eq_refl eq_refl)
    as (s1 & s2 & s3 & s4 & H1 & _ & H2 & H3 & _ & H4 & Hst & _ & Hev & Hch & _).
  exists s1, s2, s3, s4. eexists _, _.
  split; [exact H1|]. split; [exact H2|]. split; [exact H3|].
  split; [exact H4|]. split; [now rewrite Hst|].
  split; [exact Hev | exact Hch].
Defined.

(** ** Configure *)

(** X8: a format without a [mime] string (absent, or present with
    another type).  The configure worker sends the client one [onError]
    with [ACTION_CODE_FATAL] and does nothing else: the stored formats
    stay, and a [native-window] in the message is not passed to the
    channel.  The code the client receives is 1, the value of the
    comparison [... != OK] that initializes [err] in the source, and not
    [BAD_VALUE], which the lambda returns. *)
Theorem configure_without_mime (msg : AMessage) (s : CCodec) :
  AMessage.findString "mime" msg = None ->
  exists s' : CCodec,
    run (configure msg) s = Finished s' /\
    emits_only [onError 1 ACTION_CODE_FATAL] s s' /\
    1 <> BAD_VALUE.
Proof.
  intros Hmime. eexists. split; [apply (run_configure_no_mime _ _ Hmime)|].
  split; [apply emits_only_mCallback | discriminate].
Qed.

(** A format whose [mime] is an integer, and which has a surface. *)
Lemma configure_without_mime_witness :
  let msg : AMessage :=
    <["native-window" := kTypeObject 3]> {["mime" := kTypeInt32 5]} in
  let s := set ALLOCATED (CCodec_new TimePoint_max) in
  AMessage.findString "mime" msg = None /\
  exists s' : CCodec,
    run (configure msg) s = Finished s' /\
    trace s' = [Client (onError 1 ACTION_CODE_FATAL)] /\
    mFormats s' = {| inputFormat := None; outputFormat := None |}.
Proof.
  intros msg s. split; [reflexivity|].
  destruct (configure_without_mime msg s eq_refl)
    as (s' & Hrun & (Htr & _ & _ & _ & Hfm & _) & _).
  exists s'. split; [exact Hrun|]. split; [exact Htr | exact Hfm].
Defined.

(** X9: the stored formats are those of the last format that had a
    [mime].  After two runs of the configure worker the formats are what
    the second run alone would have stored, whatever the first format
    was; unless the second format has no [mime], in which case the
    formats of the first run stay. *)
Theorem configure_last_mime_wins (first second : AMessage) (s : CCodec) :
  let s1 := state_of (run (configure first) s) in
  let s2 := state_of (run (configure second) s1) in
  match AMessage.findString "mime" second with
  | Some _ => mFormats s2 = mFormats (state_of (run (configure second) s))
  | None => mFormats s2 = mFormats s1
  end.
Proof.
  intros s1 s2. subst s2.
  destruct (AMessage.findString "mime" second) as [mime|] eqn:Hmime.
  - rewrite !(run_configure second mime _ Hmime). reflexivity.
  - rewrite (run_configure_no_mime second _ Hmime). reflexivity.
Qed.

(** ** Flush and resume *)

(** X10: the flush worker, in every state.  Entered in a state other
    than [FLUSHING] it only reports
    [onError(UNKNOWN_ERROR, ACTION_CODE_FATAL)].  Entered in [FLUSHING]
    with a component at hand it stops the buffer channel, asks the
    component to flush, reports an error if the component refuses, and
    then in either case hands the work the component gave back to the
    channel's [flush], sets [FLUSHED] and sends [onFlushCompleted]: a
    refused flush still ends in [FLUSHED] with the completion sent after
    the error.  Entered in [FLUSHING] with no component at hand it stops
    the buffer channel and then calls [flush_sm] through the null handle:
    the run does not return, the state stays [FLUSHING] and no
    [onFlushCompleted] is sent. *)
Theorem flush_worker_spec
    (err : c2_status_t) (flushedWork : list C2Work) (s : CCodec) :
  (get (mState s) <> FLUSHING ->
   exists s', run (flush (err, flushedWork)) s = Finished s' /\
     emits_only [onError UNKNOWN_ERROR ACTION_CODE_FATAL] s s') /\
  (forall c : C2Component,
     get (mState s) = FLUSHING -> comp (mState s) = Some c ->
     exists s', run (flush (err, flushedWork)) s = Finished s' /\
       trace s' = trace s
         ++ [ToChannel Channel.stop; ToComponent c Component.flush_sm]
         ++ (if err =? C2_OK then []
             else [Client (onError UNKNOWN_ERROR ACTION_CODE_FATAL)])
         ++ [ToChannel (Channel.flush flushedWork); Client onFlushCompleted] /\
       mState s' = {| get := FLUSHED; comp := Some c |} /\
       looper s' = looper s) /\
  (get (mState s) = FLUSHING -> comp (mState s) = None ->
   run (flush (err, flushedWork)) s = Aborted (mChannel Channel.stop s)).
Proof.
  destruct s as [[st co] fm dl q li tr lo de]. cbn [mState get comp].
  split; [|split].
  - intros Hne. eexists. split; [|apply emits_only_mCallback].
    destruct st; try contradiction; reflexivity.
  - intros c -> ->.
    destruct err as [|p|p]; (eexists; split; [reflexivity|]); cbn;
      rewrite <- !app_assoc; repeat split.
  - intros -> ->. reflexivity.
Qed.

Lemma flush_worker_spec_witness :
  let c := {| comp_id := 0; intf_getName := "c2.example.aac.dec" |} in
  let s := set_comp (Some c) (set FLUSHING (CCodec_new TimePoint_max)) in
  get (mState (CCodec_new TimePoint_max)) <> FLUSHING /\
  get (mState s) = FLUSHING /\ comp (mState s) = Some c /\
  (exists s', run (flush (C2_OK, [])) (CCodec_new TimePoint_max) = Finished s' /\
     trace s' = [Client (onError UNKNOWN_ERROR ACTION_CODE_FATAL)]) /\
  (exists s', run (flush (2, [4; 5]%nat)) s = Finished s' /\
     get (mState s') = FLUSHED /\
     trace s' = [ToChannel Channel.stop; ToComponent c Component.flush_sm;
                 Client (onError UNKNOWN_ERROR ACTION_CODE_FATAL);
                 ToChannel (Channel.flush [4; 5]%nat);
                 Client onFlushCompleted]) /\
  get (mState (set FLUSHING (CCodec_new TimePoint_max))) = FLUSHING /\
  comp (mState (set FLUSHING (CCodec_new TimePoint_max))) = None /\
  run (flush (C2_OK, [])) (set FLUSHING (CCodec_new TimePoint_max))
    = Aborted (mChannel Channel.stop (set FLUSHING (CCodec_new TimePoint_max))).
Proof.
  intros c s.
  assert (get (mState (CCodec_new TimePoint_max)) <> FLUSHING) as H0
    by discriminate.
  split; [exact H0|]. split; [reflexivity|]. split; [reflexivity|].
  split; [|split].
  - destruct (proj1 (flush_worker_spec C2_OK [] (CCodec_new TimePoint_max)) H0)
      as (s' & Hrun & Htr & _).
    exists s'. split; [exact Hrun | exact Htr].
  - destruct (proj1 (proj2 (flush_worker_spec 2 [4; 5]%nat s)) c eq_refl eq_refl)
      as (s' & Hrun & Htr & Hst & _).
    exists s'. split; [exact Hrun|]. split; [now rewrite Hst | exact Htr].
  - split; [reflexivity|]. split; [reflexivity|].
    exact (proj2 (proj2 (flush_worker_spec C2_OK []
                           (set FLUSHING (CCodec_new TimePoint_max))))
             eq_refl eq_refl).
Defined.

(** X11: flush and resume bring a running controller back to running.
    [signalFlush], the handler of the message it posts (the component
    flushing without error), then [signalResume]: the controller is
    [RUNNING] again with the same component; the client has received
    [onFlushCompleted] and nothing else (resuming has no completion
    event); the channel has been stopped, given the flushed work and
    started again, with null formats. *)
Theorem flush_then_resume
    (c : C2Component) (flushedWork : list C2Work) (w : Answers) (s : CCodec) :
  get (mState s) = RUNNING ->
  comp (mState s) = Some c ->
  flush_answer w = (C2_OK, flushedWork) ->
  let flush_msg := {| what := kWhatFlush; items := ∅ |} in
  exists s1 s2 s3 : CCodec,
    run signalFlush s = Finished s1 /\
    looper s1 = looper s ++ [flush_msg] /\
    run (onMessageReceived w flush_msg) s1 = Finished s2 /\
    get (mState s2) = FLUSHED /\
    run signalResume s2 = Finished s3 /\
    mState s3 = {| get := RUNNING; comp := Some c |} /\
    client_events (trace s3) = client_events (trace s) ++ [onFlushCompleted] /\
    channel_calls (trace s3)
      = channel_calls (trace s)
          ++ [Channel.stop; Channel.flush flushedWork;
              Channel.start None None].
Proof.
  intros Hst Hc Hflush flush_msg.
  destruct s as [[st co] fm dl q li tr lo de]. cbn in Hst, Hc. subst st co.
  eexists. eexists. eexists.
  split; [reflexivity|]. split; [reflexivity|].
  split.
  { unfold onMessageReceived, onMessageReceived_switch. rewrite run_seq.
    cbn. rewrite Hflush. cbn. reflexivity. }
  split; [reflexivity|]. split; [reflexivity|].
  cbn. repeat split;
    unfold client_events, channel_calls;
    rewrite <- ?app_assoc, !omap_app; reflexivity.
Qed.

Lemma flush_then_resume_witness :
  let c := {| comp_id := 0; intf_getName := "c2.example.aac.dec" |} in
  let w := {| now := 1000; createComponent := (C2_OK, Some c);
              start_answer := C2_OK; stop_answer := C2_OK;
              flush_answer := (C2_OK, [8; 9]%nat);
              new_GraphicBufferSource :=
                {| source_id := 0; initCheck := OK;
                   getIGraphicBufferProducer := 0 |};
              setGraphicBufferSource_answer := OK |} in
  let s := set_comp (Some c) (set RUNNING (CCodec_new TimePoint_max)) in
  get (mState s) = RUNNING /\ comp (mState s) = Some c /\
  flush_answer w = (C2_OK, [8; 9]%nat) /\
  exists s1 s2 s3 : CCodec,
    run signalFlush s = Finished s1 /\
    run (onMessageReceived w {| what := kWhatFlush; items := ∅ |}) s1
      = Finished s2 /\
    run signalResume s2 = Finished s3 /\
    get (mState s3) = RUNNING /\
    client_events (trace s3) = [onFlushCompleted] /\
    channel_calls (trace s3)
      = [Channel.stop; Channel.flush [8; 9]%nat; Channel.start None None].
Proof.
  intros c w s.
  split; [reflexivity|]. split; [reflexivity|]. split; [reflexivity|].
  destruct (flush_then_resume c [8; 9]%nat w s eq_refl eq_refl eq_refl)
    as (s1 & s2 & s3 & H1 & _ & H2 & _ & H3 & Hst & Hev & Hch).
  exists s1, s2, s3. split; [exact H1|]. split; [exact H2|].
  split; [exact H3|]. split; [now rewrite Hst|].
  split; [exact Hev | exact Hch].
Defined.

(** ** Workers overtaken by a release *)

(** X12: a release that overtakes the flush worker is undone by it.  The
    flush worker has found [FLUSHING] and is under way ([n] blocks done:
    the state check, the channel stop, the component's flush); the release
    ([initiateRelease], then the release thread it starts) runs to its
    end, leaving [RELEASED] with the handle cleared.  The worker does not
    look at the state again: it hands the flushed work to the channel,
    sets [FLUSHED] and sends [onFlushCompleted].  The controller ends
    [FLUSHED] with no component. *)
Theorem flush_overtaken_by_release
    (err : c2_status_t) (flushedWork : list C2Work) (c : C2Component)
    (sendCallback : bool) (n : nat) (s : CCodec) :
  get (mState s) = FLUSHING ->
  comp (mState s) = Some c ->
  (1 <= n <= 3)%nat ->
  let under_way := steps n (flush (err, flushedWork)) s in
  exists s1 s2 : CCodec,
    run (seq (initiateRelease sendCallback) (release sendCallback)) under_way.2
      = Finished s1 /\
    mState s1 = {| get := RELEASED; comp := None |} /\
    run under_way.1 s1 = Finished s2 /\
    mState s2 = {| get := FLUSHED; comp := None |} /\
    client_events (trace s2)
      = client_events (trace s)
          ++ (if sendCallback then [onReleaseCompleted] else [])
          ++ (if err =? C2_OK then []
              else [onError UNKNOWN_ERROR ACTION_CODE_FATAL])
          ++ [onFlushCompleted].
Proof.
  intros Hst Hc Hn under_way.
  destruct s as [[st co] fm dl q li tr lo de]. cbn in Hst, Hc. subst st co.
  assert (n = 1 \/ n = 2 \/ n = 3)%nat as Hcases by lia.
  destruct Hcases as [-> | [-> | ->]];
    destruct sendCallback; destruct err as [|p|p]; cbn;
    (eexists _, _; repeat split; cbn; trace_simpl; reflexivity).
Qed.

Lemma flush_overtaken_by_release_witness :
  let c := {| comp_id := 0; intf_getName := "c2.example.aac.dec" |} in
  let s := set_comp (Some c) (set FLUSHING (CCodec_new TimePoint_max)) in
  let worker := flush (C2_OK, [4%nat]) in
  get (mState s) = FLUSHING /\ comp (mState s) = Some c /\
  (1 <= 2 <= 3)%nat /\
  exists s1 s2 : CCodec,
    run (seq (initiateRelease true) (release true)) (steps 2 worker s).2
      = Finished s1 /\
    run (steps 2 worker s).1 s1 = Finished s2 /\
    mState s2 = {| get := FLUSHED; comp := None |} /\
    client_events (trace s2) = [onReleaseCompleted; onFlushCompleted].
Proof.
  intros c s worker.
  split; [reflexivity|]. split; [reflexivity|]. split; [lia|].
  destruct (flush_overtaken_by_release C2_OK [4%nat] c true 2 s
              eq_refl eq_refl ltac:(lia))
    as (s1 & s2 & H1 & _ & H2 & Hst & Hev).
  exists s1, s2. split; [exact H1|]. split; [exact H2|].
  split; [exact Hst | exact Hev].
Defined.

(** X13: a release that overtakes the start worker.  The start worker
    has found [STARTING] and is under way ([n] blocks done: the state
    check, the component's [start()], the read of the formats); the
    release runs to its end.  The worker then starts the buffer channel,
    which the release has just stopped, and only after that looks at the
    state again: it sends [onError(UNKNOWN_ERROR, ACTION_CODE_FATAL)], no
    [onStartCompleted], and leaves the controller [RELEASED] without a
    component. *)
Theorem start_overtaken_by_release
    (c : C2Component) (sendCallback : bool) (n : nat) (s : CCodec) :
  get (mState s) = STARTING ->
  comp (mState s) = Some c ->
  (1 <= n <= 3)%nat ->
  let under_way := steps n (start C2_OK) s in
  exists s1 s2 : CCodec,
    run (seq (initiateRelease sendCallback) (release sendCallback)) under_way.2
      = Finished s1 /\
    run under_way.1 s1 = Finished s2 /\
    mState s2 = {| get := RELEASED; comp := None |} /\
    client_events (trace s2)
      = client_events (trace s)
          ++ (if sendCallback then [onReleaseCompleted] else [])
          ++ [onError UNKNOWN_ERROR ACTION_CODE_FATAL] /\
    channel_calls (trace s2)
      = channel_calls (trace s)
          ++ [Channel.stop;
              Channel.start (inputFormat (mFormats s))
                (outputFormat (mFormats s))].
Proof.
  intros Hst Hc Hn under_way.
  destruct s as [[st co] fm dl q li tr lo de]. cbn in Hst, Hc. subst st co.
  assert (n = 1 \/ n = 2 \/ n = 3)%nat as Hcases by lia.
  destruct Hcases as [-> | [-> | ->]];
    destruct sendCallback; cbn;
    (eexists _, _; repeat split; cbn; trace_simpl; reflexivity).
Qed.

(** Scenario A5, the tail: the worker comes back from the component's
    [start()] after the forced release. *)
Lemma start_overtaken_by_release_witness :
  let c := {| comp_id := 0; intf_getName := "c2.example.aac.dec" |} in
  let s := set_comp (Some c) (set STARTING (CCodec_new TimePoint_max)) in
  get (mState s) = STARTING /\ comp (mState s) = Some c /\
  (1 <= 2 <= 3)%nat /\
  exists s1 s2 : CCodec,
    run (seq (initiateRelease true) (release true)) (steps 2 (start C2_OK) s).2
      = Finished s1 /\
    run (steps 2 (start C2_OK) s).1 s1 = Finished s2 /\
    get (mState s2) = RELEASED /\
    channel_calls (trace s2) = [Channel.stop; Channel.start None None].
Proof.
  intros c s.
  split; [reflexivity|]. split; [reflexivity|]. split; [lia|].
  destruct (start_overtaken_by_release c true 2 s eq_refl eq_refl ltac:(lia))
    as (s1 & s2 & H1 & H2 & Hst & _ & Hch).
  exists s1, s2. split; [exact H1|]. split; [exact H2|].
  split; [now rewrite Hst | exact Hch].
Defined.

(** ** Stop *)

(** X14: stop from the call to the callback.  In [STARTING], [RUNNING],
    [FLUSHING], [FLUSHED] or [RESUMING], with a component,
    [initiateStop] sets [STOPPING], sends nothing and posts one stop
    message; the handler of that message stops the channel and the
    component and leaves the controller [ALLOCATED], still holding the
    component, with the deadline at "never".  The client receives exactly
    one [onStopCompleted], preceded by an [onError] if the component's
    stop failed. *)
Theorem stop_round_trip (c : C2Component) (w : Answers) (s : CCodec) :
  In (get (mState s)) [STARTING; RUNNING; FLUSHING; FLUSHED; RESUMING] ->
  comp (mState s) = Some c ->
  let stop_msg := {| what := kWhatStop; items := ∅ |} in
  exists s1 s2 : CCodec,
    run initiateStop s = Finished s1 /\
    get (mState s1) = STOPPING /\
    trace s1 = trace s /\
    looper s1 = looper s ++ [stop_msg] /\
    run (onMessageReceived w stop_msg) s1 = Finished s2 /\
    mState s2 = {| get := ALLOCATED; comp := Some c |} /\
    trace s2 = trace s
      ++ [ToChannel Channel.stop; ToComponent c Component.stop]
      ++ (if stop_answer w =? C2_OK then []
          else [Client (onError UNKNOWN_ERROR ACTION_CODE_FATAL)])
      ++ [Client onStopCompleted] /\
    mDeadline s2 = TimePoint_max.
Proof.
  intros Hin Hc stop_msg.
  destruct s as [[st co] fm dl q li tr lo de]. cbn in Hin, Hc. subst co.
  assert (st = STARTING \/ st = RUNNING \/ st = FLUSHING \/ st = FLUSHED
          \/ st = RESUMING) as Hst by intuition.
  unfold onMessageReceived, onMessageReceived_switch.
  destruct Hst as [-> | [-> | [-> | [-> | ->]]]];
    destruct (stop_answer w) as [|p|p];
    (eexists _, _; split; [reflexivity|]; split; [reflexivity|];
     split; [reflexivity|]; split; [reflexivity|];
     rewrite run_seq; cbn;
     (split; [reflexivity|]); cbn; rewrite <- !app_assoc; repeat split).
Qed.

Lemma stop_round_trip_witness :
  let c := {| comp_id := 0; intf_getName := "c2.example.aac.dec" |} in
  let w := {| now := 1000; createComponent := (C2_OK, Some c);
              start_answer := C2_OK; stop_answer := C2_OK;
              flush_answer := (C2_OK, []);
              new_GraphicBufferSource :=
                {| source_id := 0; initCheck := OK;
                   getIGraphicBufferProducer := 0 |};
              setGraphicBufferSource_answer := OK |} in
  let s := set_comp (Some c) (set RUNNING (CCodec_new TimePoint_max)) in
  In (get (mState s)) [STARTING; RUNNING; FLUSHING; FLUSHED; RESUMING] /\
  comp (mState s) = Some c /\
  exists s1 s2 : CCodec,
    run initiateStop s = Finished s1 /\
    run (onMessageReceived w {| what := kWhatStop; items := ∅ |}) s1
      = Finished s2 /\
    get (mState s2) = ALLOCATED /\
    client_events (trace s2) = [onStopCompleted].
Proof.
  intros c w s.
  assert (In (get (mState s)) [STARTING; RUNNING; FLUSHING; FLUSHED; RESUMING])
    as Hin by (right; left; reflexivity).
  split; [exact Hin|]. split; [reflexivity|].
  destruct (stop_round_trip c w s Hin eq_refl)
    as (s1 & s2 & H1 & _ & _ & _ & H2 & Hst & Htr & _).
  exists s1, s2. split; [exact H1|]. split; [exact H2|].
  split; [now rewrite Hst|]. rewrite Htr. reflexivity.
Defined.

(** X15: the stop worker outside [STOPPING].  Entered in [RELEASING] it
    only sends [onStopCompleted]; entered in any other state but
    [STOPPING] it only sends [onError(UNKNOWN_ERROR, ACTION_CODE_FATAL)].
    In both cases neither the channel nor the component is called and the
    state stays as it is. *)
Theorem stop_worker_outside_STOPPING (stop_err : c2_status_t) (s : CCodec) :
  get (mState s) <> STOPPING ->
  exists s' : CCodec,
    run (stop stop_err) s = Finished s' /\
    emits_only
      [if state_eqb (get (mState s)) RELEASING
       then onStopCompleted
       else onError UNKNOWN_ERROR ACTION_CODE_FATAL] s s'.
Proof.
  intros Hne. destruct s as [[st co] fm dl q li tr lo de]. cbn in Hne.
  eexists. split; [|apply emits_only_mCallback].
  destruct st; try contradiction; reflexivity.
Qed.

Lemma stop_worker_outside_STOPPING_witness :
  let s := set RELEASING (CCodec_new TimePoint_max) in
  get (mState s) <> STOPPING /\
  exists s' : CCodec,
    run (stop C2_OK) s = Finished s' /\
    trace s' = [Client onStopCompleted] /\
    get (mState s') = RELEASING.
Proof.
  intros s. assert (get (mState s) <> STOPPING) as Hne by discriminate.
  split; [exact Hne|].
  destruct (stop_worker_outside_STOPPING C2_OK s Hne)
    as (s' & Hrun & Htr & _ & _ & Hst & _).
  exists s'. split; [exact Hrun|]. split; [exact Htr | now rewrite Hst].
Defined.

(** X16: a stop requested while the component is being allocated gets
    no completion.  On a released controller: [initiateAllocateComponent];
    then [initiateStop], which finds [ALLOCATING], sets [STOPPING] and
    posts a stop message behind the allocate message; then the two
    handlers in that order, the store handing out a component.  The
    allocate worker finds the state changed, drops the component and
    rewinds to [RELEASED]; the stop worker then finds [RELEASED].  The
    client receives two [onError(UNKNOWN_ERROR, ACTION_CODE_FATAL)] and
    neither [onComponentAllocated] nor [onStopCompleted]; the controller
    ends [RELEASED] without a component. *)
Theorem stop_during_allocation
    (msg : AMessage) (c : C2Component) (w : Answers) (s : CCodec) :
  get (mState s) = RELEASED ->
  looper s = [] ->
  createComponent w = (C2_OK, Some c) ->
  exists (allocate_msg stop_msg : Message) (s1 s2 s3 s4 : CCodec),
    run (initiateAllocateComponent msg) s = Finished s1 /\
    run initiateStop s1 = Finished s2 /\
    get (mState s2) = STOPPING /\
    looper s2 = [allocate_msg; stop_msg] /\
    run (onMessageReceived w allocate_msg) (take_message [stop_msg] s2)
      = Finished s3 /\
    run (onMessageReceived w stop_msg) (take_message [] s3) = Finished s4 /\
    mState s4 = {| get := RELEASED; comp := comp (mState s) |} /\
    client_events (trace s4)
      = client_events (trace s)
          ++ [onError UNKNOWN_ERROR ACTION_CODE_FATAL;
              onError UNKNOWN_ERROR ACTION_CODE_FATAL] /\
    channel_calls (trace s4) = channel_calls (trace s).
Proof.
  intros Hst Hl Hc.
  destruct s as [[st co] fm dl q li tr lo de]. cbn in Hst, Hl. subst st lo.
  eexists _, _, _, _, _, _.
  split; [reflexivity|]. split; [reflexivity|]. split; [reflexivity|].
  split; [reflexivity|].
  split.
  { unfold onMessageReceived, onMessageReceived_switch. rewrite run_seq.
    cbn. rewrite Hc. cbn. reflexivity. }
  split.
  { unfold onMessageReceived, onMessageReceived_switch. rewrite run_seq.
    cbn. reflexivity. }
  cbn. repeat split; trace_simpl; reflexivity.
Qed.

Lemma stop_during_allocation_witness :
  let c := {| comp_id := 0; intf_getName := "c2.example.aac.dec" |} in
  let w := {| now := 1000; createComponent := (C2_OK, Some c);
              start_answer := C2_OK; stop_answer := C2_OK;
              flush_answer := (C2_OK, []);
              new_GraphicBufferSource :=
                {| source_id := 0; initCheck := OK;
                   getIGraphicBufferProducer := 0 |};
              setGraphicBufferSource_answer := OK |} in
  let s := CCodec_new TimePoint_max in
  get (mState s) = RELEASED /\ looper s = [] /\
  createComponent w = (C2_OK, Some c) /\
  exists (allocate_msg stop_msg : Message) (s1 s2 s3 s4 : CCodec),
    run (initiateAllocateComponent ∅) s = Finished s1 /\
    run initiateStop s1 = Finished s2 /\
    looper s2 = [allocate_msg; stop_msg] /\
    run (onMessageReceived w allocate_msg) (take_message [stop_msg] s2)
      = Finished s3 /\
    run (onMessageReceived w stop_msg) (take_message [] s3) = Finished s4 /\
    get (mState s4) = RELEASED /\
    client_events (trace s4)
      = [onError UNKNOWN_ERROR ACTION_CODE_FATAL;
         onError UNKNOWN_ERROR ACTION_CODE_FATAL].
Proof.
  intros c w s.
  split; [reflexivity|]. split; [reflexivity|]. split; [reflexivity|].
  destruct (stop_during_allocation ∅ c w s eq_refl eq_refl eq_refl)
    as (m1 & m2 & s1 & s2 & s3 & s4 & H1 & H2 & _ & Hl & H3 & H4 & Hst & Hev & _).
  exists m1, m2, s1, s2, s3, s4.
  split; [exact H1|]. split; [exact H2|]. split; [exact Hl|].
  split; [exact H3|]. split; [exact H4|]. split; [now rewrite Hst | exact Hev].
Defined.

(** ** Release *)

(** X17: release from the call to the end of the release thread.  In
    any state but [RELEASED], [RELEASING] and [ALLOCATING], with a
    component, [initiateRelease] sets [RELEASING], sends nothing and
    starts one release thread; that thread stops the buffer channel,
    calls [release()] on the component (whose answer it does not look
    at), sets [RELEASED], clears the component handle and, if asked to,
    sends [onReleaseCompleted] once.  A release thread that finds the
    controller [RELEASED] already calls nobody and only sends the
    completion, if asked to. *)
Theorem release_round_trip
    (sendCallback : bool) (c : C2Component) (s : CCodec) :
  (~ In (get (mState s)) [RELEASED; RELEASING; ALLOCATING] ->
   comp (mState s) = Some c ->
   exists s1 s2 : CCodec,
     run (initiateRelease sendCallback) s = Finished s1 /\
     get (mState s1) = RELEASING /\
     trace s1 = trace s /\
     looper s1 = looper s /\
     detached s1 = detached s ++ [sendCallback] /\
     run (release sendCallback) s1 = Finished s2 /\
     mState s2 = {| get := RELEASED; comp := None |} /\
     trace s2 = trace s
       ++ [ToChannel Channel.stop; ToComponent c Component.release]
       ++ (if sendCallback then [Client onReleaseCompleted] else [])) /\
  (get (mState s) = RELEASED ->
   exists s', run (release sendCallback) s = Finished s' /\
     emits_only (if sendCallback then [onReleaseCompleted] else []) s s').
Proof.
  destruct s as [[st co] fm dl q li tr lo de]. cbn [mState get comp].
  split.
  - intros Hnot ->.
    destruct st;
      try (exfalso; apply Hnot; cbn; tauto);
      destruct sendCallback;
      (eexists _, _; repeat split; cbn; rewrite <- ?app_assoc; reflexivity).
  - intros ->. destruct sendCallback; eexists; (split; [reflexivity|]);
      [apply emits_only_mCallback | apply emits_only_nothing].
Qed.

Lemma release_round_trip_witness :
  let c := {| comp_id := 0; intf_getName := "c2.example.aac.dec" |} in
  let s := set_comp (Some c) (set RUNNING (CCodec_new TimePoint_max)) in
  ~ In (get (mState s)) [RELEASED; RELEASING; ALLOCATING] /\
  comp (mState s) = Some c /\
  get (mState (CCodec_new TimePoint_max)) = RELEASED /\
  (exists s1 s2 : CCodec,
     run (initiateRelease true) s = Finished s1 /\
     run (release true) s1 = Finished s2 /\
     mState s2 = {| get := RELEASED; comp := None |} /\
     trace s2 = [ToChannel Channel.stop; ToComponent c Component.release;
                 Client onReleaseCompleted]) /\
  (exists s', run (release false) (CCodec_new TimePoint_max) = Finished s' /\
     trace s' = []).
Proof.
  intros c s.
  assert (~ In (get (mState s)) [RELEASED; RELEASING; ALLOCATING]) as Hnot
    by (cbn; intros [H | [H | [H | []]]]; discriminate).
  split; [exact Hnot|]. split; [reflexivity|]. split; [reflexivity|]. split.
  - destruct (proj1 (release_round_trip true c s) Hnot eq_refl)
      as (s1 & s2 & H1 & _ & _ & _ & _ & H2 & Hst & Htr).
    exists s1, s2. split; [exact H1|]. split; [exact H2|].
    split; [exact Hst | exact Htr].
  - destruct (proj2 (release_round_trip false c (CCodec_new TimePoint_max))
                eq_refl) as (s' & Hrun & Htr & _).
    exists s'. split; [exact Hrun | exact Htr].
Defined.

(** X18: the watchdog's rescue.  A controller in any state but
    [RELEASED], [RELEASING] and [ALLOCATING], holding a component, whose
    deadline has passed: [initiateReleaseIfStuck] followed by the release
    thread it starts.  The client receives
    [onError(UNKNOWN_ERROR, ACTION_CODE_FATAL)] and then
    [onReleaseCompleted]; the channel is stopped and the component
    released; the controller ends [RELEASED] without a component.  The
    deadline is not touched, so it is still in the past. *)
Theorem watchdog_rescue (now : TimePoint) (c : C2Component) (s : CCodec) :
  mDeadline s < now ->
  ~ In (get (mState s)) [RELEASED; RELEASING; ALLOCATING] ->
  comp (mState s) = Some c ->
  exists s1 s2 : CCodec,
    run (initiateReleaseIfStuck now) s = Finished s1 /\
    get (mState s1) = RELEASING /\
    detached s1 = detached s ++ [true] /\
    run (release true) s1 = Finished s2 /\
    mState s2 = {| get := RELEASED; comp := None |} /\
    trace s2 = trace s
      ++ [Client (onError UNKNOWN_ERROR ACTION_CODE_FATAL);
          ToChannel Channel.stop; ToComponent c Component.release;
          Client onReleaseCompleted] /\
    mDeadline s2 = mDeadline s.
Proof.
  intros Hd Hnot Hc.
  destruct s as [[st co] fm dl q li tr lo de]. cbn in Hd, Hnot, Hc. subst co.
  unfold initiateReleaseIfStuck. cbn [run mDeadline].
  destruct (Z.leb_spec now dl) as [Hle|_]; [lia|]. cbn [negb].
  destruct st;
    try (exfalso; apply Hnot; cbn; tauto);
    (eexists _, _; repeat split; cbn; rewrite <- ?app_assoc; reflexivity).
Qed.

(** Scenario A5: a controller hung in [start], its deadline passed. *)
Lemma watchdog_rescue_witness :
  let c := {| comp_id := 0; intf_getName := "c2.example.aac.dec" |} in
  let s := setDeadline 550
             (set_comp (Some c) (set STARTING (CCodec_new TimePoint_max))) in
  mDeadline s < 3000 /\
  ~ In (get (mState s)) [RELEASED; RELEASING; ALLOCATING] /\
  comp (mState s) = Some c /\
  exists s1 s2 : CCodec,
    run (initiateReleaseIfStuck 3000) s = Finished s1 /\
    run (release true) s1 = Finished s2 /\
    get (mState s2) = RELEASED /\
    client_events (trace s2)
      = [onError UNKNOWN_ERROR ACTION_CODE_FATAL; onReleaseCompleted].
Proof.
  intros c s.
  assert (mDeadline s < 3000) as Hd by (cbn; lia).
  assert (~ In (get (mState s)) [RELEASED; RELEASING; ALLOCATING]) as Hnot
    by (cbn; intros [H | [H | [H | []]]]; discriminate).
  split; [exact Hd|]. split; [exact Hnot|]. split; [reflexivity|].
  destruct (watchdog_rescue 3000 c s Hd Hnot eq_refl)
    as (s1 & s2 & H1 & _ & _ & H2 & Hst & Htr & _).
  exists s1, s2. split; [exact H1|]. split; [exact H2|].
  split; [now rewrite Hst|]. rewrite Htr. reflexivity.
Defined.

(** X19: a controller that stays stuck is reported at every poll.
    Since only the message handler writes the deadline, a controller
    whose handler is hung keeps a deadline in the past.  A second
    [initiateReleaseIfStuck], made before the release thread of the first
    has run, sends [onError(UNKNOWN_ERROR, ACTION_CODE_FATAL)] again and,
    finding [RELEASING], sends [onReleaseCompleted] although nothing has
    been released yet; it starts no second release thread. *)
Theorem stuck_controller_polled_twice
    (now1 now2 : TimePoint) (s : CCodec) :
  mDeadline s < now1 ->
  now1 <= now2 ->
  ~ In (get (mState s)) [RELEASED; RELEASING; ALLOCATING] ->
  exists s1 s2 : CCodec,
    run (initiateReleaseIfStuck now1) s = Finished s1 /\
    run (initiateReleaseIfStuck now2) s1 = Finished s2 /\
    mState s2 = {| get := RELEASING; comp := comp (mState s) |} /\
    detached s2 = detached s ++ [true] /\
    trace s2 = trace s
      ++ [Client (onError UNKNOWN_ERROR ACTION_CODE_FATAL);
          Client (onError UNKNOWN_ERROR ACTION_CODE_FATAL);
          Client onReleaseCompleted].
Proof.
  intros Hd Hnow Hnot.
  destruct s as [[st co] fm dl q li tr lo de]. cbn in Hd, Hnot.
  unfold initiateReleaseIfStuck. cbn [run mDeadline].
  destruct (Z.leb_spec now1 dl) as [Hle|_]; [lia|]. cbn [negb].
  destruct st;
    try (exfalso; apply Hnot; cbn; tauto);
    (eexists _, _; split; [reflexivity|]; cbn;
     destruct (Z.leb_spec now2 dl) as [Hle|_]; [lia|]; cbn;
     repeat split; cbn; rewrite <- ?app_assoc; reflexivity).
Qed.

Lemma stuck_controller_polled_twice_witness :
  let c := {| comp_id := 0; intf_getName := "c2.example.aac.dec" |} in
  let s := setDeadline 550
             (set_comp (Some c) (set STARTING (CCodec_new TimePoint_max))) in
  mDeadline s < 3000 /\ 3000 <= 6000 /\
  ~ In (get (mState s)) [RELEASED; RELEASING; ALLOCATING] /\
  exists s1 s2 : CCodec,
    run (initiateReleaseIfStuck 3000) s = Finished s1 /\
    run (initiateReleaseIfStuck 6000) s1 = Finished s2 /\
    get (mState s2) = RELEASING /\
    detached s2 = [true] /\
    client_events (trace s2)
      = [onError UNKNOWN_ERROR ACTION_CODE_FATAL;
         onError UNKNOWN_ERROR ACTION_CODE_FATAL; onReleaseCompleted].
Proof.
  intros c s.
  assert (mDeadline s < 3000) as Hd by (cbn; lia).
  assert (~ In (get (mState s)) [RELEASED; RELEASING; ALLOCATING]) as Hnot
    by (cbn; intros [H | [H | [H | []]]]; discriminate).
  split; [exact Hd|]. split; [lia|]. split; [exact Hnot|].
  destruct (stuck_controller_polled_twice 3000 6000 s Hd ltac:(lia) Hnot)
    as (s1 & s2 & H1 & H2 & Hst & Hde & Htr).
  exists s1, s2. split; [exact H1|]. split; [exact H2|].
  split; [now rewrite Hst|]. split; [exact Hde|]. rewrite Htr. reflexivity.
Defined.

(** ** A release without a component *)

(** X20: a release right after a stop that was requested during
    allocation calls through a null component handle.  On a released
    controller without a component: [initiateAllocateComponent], then
    [initiateStop] (which sets [STOPPING] over [ALLOCATING]), then
    [initiateRelease] (which, not finding [ALLOCATING] any more, starts a
    release thread), and that thread running before the allocate message
    is handled.  The thread reads a null handle, stops the buffer channel
    and then calls [release()] through the null handle: the run does not
    return. *)
Theorem release_thread_without_component
    (msg : AMessage) (sendCallback : bool) (s : CCodec) :
  get (mState s) = RELEASED ->
  comp (mState s) = None ->
  exists s' : CCodec,
    run (seq (initiateAllocateComponent msg)
           (seq initiateStop
              (seq (initiateRelease sendCallback) (release sendCallback)))) s
      = Aborted s' /\
    mState s' = {| get := RELEASING; comp := None |} /\
    trace s' = trace s ++ [ToChannel Channel.stop] /\
    detached s' = detached s ++ [sendCallback].
Proof.
  intros Hst Hc. destruct s as [[st co] fm dl q li tr lo de].
  cbn in Hst, Hc. subst st co.
  eexists. split; [reflexivity|]. repeat split.
Qed.

Lemma release_thread_without_component_witness :
  let s := CCodec_new TimePoint_max in
  get (mState s) = RELEASED /\ comp (mState s) = None /\
  exists s' : CCodec,
    run (seq (initiateAllocateComponent ∅)
           (seq initiateStop (seq (initiateRelease true) (release true)))) s
      = Aborted s' /\
    trace s' = [ToChannel Channel.stop].
Proof.
  intros s. split; [reflexivity|]. split; [reflexivity|].
  destruct (release_thread_without_component ∅ true s eq_refl eq_refl)
    as (s' & Hrun & _ & Htr & _).
  exists s'. split; [exact Hrun | exact Htr].
Defined.

(** ** Input surfaces *)

(** X21: the create-input-surface worker, in every lifecycle state.  If
    the new source fails its [initCheck], the client gets
    [onInputSurfaceCreationFailed] with that status and the channel is
    not called.  Otherwise the source is handed to the channel; if the
    channel refuses it, the client gets [onInputSurfaceCreationFailed]
    with the channel's status; if not, [onInputSurfaceCreated] with the
    two stored formats (null before the first configure) and the source's
    producer.  Nothing of the controller changes. *)
Theorem createInputSurface_spec
    (source : GraphicBufferSource) (err : status_t) (s : CCodec) :
  exists s' : CCodec,
    run (createInputSurface source err) s = Finished s' /\
    trace s' = trace s
      ++ (if initCheck source =? OK
          then ToChannel (Channel.setGraphicBufferSource (source_id source))
               :: [Client
                     (if err =? OK
                      then onInputSurfaceCreated (inputFormat (mFormats s))
                             (outputFormat (mFormats s))
                             (getIGraphicBufferProducer source)
                      else onInputSurfaceCreationFailed err)]
          else [Client (onInputSurfaceCreationFailed (initCheck source))]) /\
    mState s' = mState s /\
    mFormats s' = mFormats s /\
    looper s' = looper s.
Proof.
  unfold createInputSurface.
  destruct (initCheck source =? OK); cbn [negb].
  - destruct (err =? OK); cbn [negb]; eexists; (split; [reflexivity|]);
      cbn; rewrite <- ?app_assoc; repeat split.
  - eexists. split; [reflexivity|]. repeat split.
Qed.

(** X22: a persistent input surface is always declined.  From every
    state, [initiateSetInputSurface] posts one message that carries the
    surface; its handler sends [onInputSurfaceDeclined(ERROR_UNSUPPORTED)]
    and nothing else, and leaves the controller as it was but for the
    deadline, which is "never" afterwards. *)
Theorem set_input_surface_round_trip
    (surface : nat) (w : Answers) (s : CCodec) :
  exists (posted : Message) (s1 s2 : CCodec),
    run (initiateSetInputSurface surface) s = Finished s1 /\
    looper s1 = looper s ++ [posted] /\
    trace s1 = trace s /\
    run (onMessageReceived w posted) (take_message (looper s) s1)
      = Finished s2 /\
    trace s2 = trace s ++ [Client (onInputSurfaceDeclined ERROR_UNSUPPORTED)] /\
    mState s2 = mState s /\
    mFormats s2 = mFormats s /\
    looper s2 = looper s /\
    mDeadline s2 = TimePoint_max.
Proof.
  eexists _, _, _. split; [reflexivity|]. split; [reflexivity|].
  split; [reflexivity|].
  split.
  { unfold onMessageReceived, onMessageReceived_switch. rewrite run_seq.
    cbn. reflexivity. }
  repeat split.
Qed.

(** ** The deadline between messages *)

Lemma deadline_phase_same (first : TimePoint) (s s' : CCodec) (t : Thread) :
  mDeadline s' = mDeadline s ->
  DeadlinePhase first s t -> DeadlinePhase first s' t.
Proof.
  intros Hd Hphase.
  destruct Hphase;
    [apply Deadline_first | apply Deadline_never | apply Deadline_aborted
    | apply Deadline_handling]; congruence.
Qed.

Lemma deadline_phase_move (first : TimePoint) (m : Move) (sys : System) :
  deadline_move m ->
  DeadlinePhase first (controller sys) (handling sys) ->
  DeadlinePhase first (controller (move m sys)) (handling (move m sys)).
Proof.
  destruct sys as [s t]. intros Hm Hphase. cbn in Hphase.
  destruct m as [workItems | w | block]; cbn.
  - eapply deadline_phase_same; [|exact Hphase]. reflexivity.
  - assert (forall s0,
              DeadlinePhase first s0 Return ->
              DeadlinePhase first
                (controller (move (Looper_thread w)
                               {| controller := s0; handling := Return |}))
                (handling (move (Looper_thread w)
                             {| controller := s0; handling := Return |})))
      as Hidle.
    { intros s0 H0. cbn. destruct (looper s0) as [|msg rest]; cbn;
        [exact H0 | apply Deadline_handling]. }
    destruct Hphase as [Hd | Hd | | u].
    + apply Hidle. now apply Deadline_first.
    + apply Hidle. now apply Deadline_never.
    + apply Deadline_aborted.
    + destruct u as [| | A b k]; cbn.
      * now apply Deadline_never.
      * apply Deadline_aborted.
      * destruct (b s) as [a s']. cbn. apply Deadline_handling.
  - eapply deadline_phase_same; [|exact Hphase]. apply Hm.
Qed.

Lemma deadline_phase_moves (first : TimePoint) (ms : list Move) (sys : System) :
  Forall deadline_move ms ->
  DeadlinePhase first (controller sys) (handling sys) ->
  DeadlinePhase first (controller (moves ms sys)) (handling (moves ms sys)).
Proof.
  revert sys. induction ms as [|m ms IH]; intros sys Hms H0; [exact H0|].
  inversion Hms as [|? ? Hm Hms']; subst. cbn [moves foldl].
  apply (IH _ Hms'). now apply deadline_phase_move.
Qed.

(** X23: the deadline of an idle controller is never in the past on
    account of a message.  From a new controller whose deadline starts
    at [first], under any interleaving of the listener, the looper thread
    and other threads' blocks (none of which writes the deadline):
    whenever the looper thread is between two messages, the deadline is
    "never", or still [first] if no message has been handled at all.  So
    where the first deadline is "never", [initiateReleaseIfStuck] does
    nothing to an idle controller, whatever the time. *)
Theorem idle_deadline_is_never
    (ms : list Move) (first : TimePoint) :
  Forall deadline_move ms ->
  let sys := moves ms {| controller := CCodec_new first; handling := Return |} in
  handling sys = Return ->
  (mDeadline (controller sys) = TimePoint_max \/
   mDeadline (controller sys) = first) /\
  (first = TimePoint_max ->
   forall now : TimePoint, now <= TimePoint_max ->
     run (initiateReleaseIfStuck now) (controller sys)
       = Finished (controller sys)).
Proof.
  intros Hms sys Hidle.
  assert (DeadlinePhase first (controller sys) (handling sys)) as Hphase
    by (apply deadline_phase_moves; [exact Hms | now apply Deadline_first]).
  rewrite Hidle in Hphase.
  assert (mDeadline (controller sys) = TimePoint_max \/
          mDeadline (controller sys) = first) as Hd.
  { inversion Hphase as [H | H | | t Ht]; [now right | now left |].
    destruct t; discriminate Ht. }
  split; [exact Hd|].
  intros Hfirst now Hnow. unfold initiateReleaseIfStuck. cbn [run].
  assert (mDeadline (controller sys) = TimePoint_max) as -> by
    (destruct Hd; congruence).
  destruct (Z.leb_spec now TimePoint_max); [reflexivity | lia].
Qed.

(** A start message handled to its end, with work arriving meanwhile:
    the looper thread is idle again and the deadline is "never". *)
Lemma idle_deadline_is_never_witness :
  let c := {| comp_id := 0; intf_getName := "c2.example.aac.dec" |} in
  let w := {| now := 1000; createComponent := (C2_OK, Some c);
              start_answer := C2_OK; stop_answer := C2_OK;
              flush_answer := (C2_OK, []);
              new_GraphicBufferSource :=
                {| source_id := 0; initCheck := OK;
                   getIGraphicBufferProducer := 0 |};
              setGraphicBufferSource_answer := OK |} in
  let ms := Elsewhere (post {| what := kWhatStart; items := ∅ |})
            :: replicate 3 (Looper_thread w)
            ++ Listener_onWorkDone [1%nat]
            :: replicate 6 (Looper_thread w) in
  let sys := moves ms {| controller := CCodec_new 0; handling := Return |} in
  Forall deadline_move ms /\
  handling sys = Return /\
  mDeadline (controller sys) = TimePoint_max /\
  client_events (trace (controller sys))
    = [onError UNKNOWN_ERROR ACTION_CODE_FATAL].
Proof.
  intros c w ms sys.
  assert (Forall deadline_move ms) as Hms.
  { constructor; [intros s; reflexivity|]. apply Forall_app.
    split; [now apply Forall_replicate|].
    constructor; [exact I | now apply Forall_replicate]. }
  assert (handling sys = Return) as Hidle by reflexivity.
  split; [exact Hms|]. split; [exact Hidle|].
  destruct (proj1 (idle_deadline_is_never ms 0 Hms Hidle)) as [H | H].
  - split; [exact H | reflexivity].
  - exfalso. revert H. cbn. discriminate.
Defined.

(** ** The watchdog *)

Lemma watch_spec (now : nat -> TimePoint) (codecs : list nat) (heap : Heap) :
  (CCodecWatchdog.watch now heap codecs).1
    = filter (fun it => is_Some (heap !! it)) codecs /\
  forall id : nat,
    (CCodecWatchdog.watch now heap codecs).2 !! id
      = Nat.iter (List.length (filter (fun it => it = id) codecs))
          (fun c => state_of (run (initiateReleaseIfStuck (now id)) c))
        <$> heap !! id.
Proof.
  revert heap. induction codecs as [|it rest IH]; intros heap.
  - split; [reflexivity|]. intros id. cbn. now destruct (heap !! id).
  - cbn [CCodecWatchdog.watch].
    destruct (heap !! it) as [codec|] eqn:Hit.
    + specialize (IH (<[it := state_of (run (initiateReleaseIfStuck (now it)) codec)]> heap)).
      destruct (CCodecWatchdog.watch now _ rest) as [kept heap'].
      cbn [fst snd] in *. destruct IH as [Hkept Hheap]. split.
      * rewrite filter_cons_True by (rewrite Hit; eauto). f_equal.
        rewrite Hkept. apply list_filter_iff. intros x.
        destruct (decide (it = x)) as [<-|Hne].
        -- rewrite lookup_insert_eq, Hit. split; eauto.
        -- now rewrite lookup_insert_ne.
      * intros id. rewrite Hheap.
        destruct (decide (it = id)) as [<-|Hne].
        -- rewrite lookup_insert_eq, Hit, filter_cons_True by reflexivity.
           cbn [fmap option_fmap option_map List.length].
           now rewrite Nat.iter_succ_r.
        -- now rewrite lookup_insert_ne, filter_cons_False by congruence.
    + destruct (IH heap) as [Hkept Hheap]. split.
      * rewrite filter_cons_False; [exact Hkept|].
        rewrite Hit. now intros [x Hx].
      * intros id. rewrite Hheap.
        destruct (decide (it = id)) as [<-|Hne].
        -- now rewrite Hit.
        -- now rewrite filter_cons_False by congruence.
Qed.

(** X24: one tick of the watchdog.  The handler of a [kWhatWatch]
    walks the registry once: the entries whose controller is gone are
    erased and the others stay, in their order; every controller alive is
    asked [initiateReleaseIfStuck] once for each entry it has in the
    registry (the controllers' other threads standing still meanwhile),
    and a controller that has none is not touched; no controller appears
    or disappears.  Then the same message is posted again with a delay of
    three seconds, and nothing else is posted. *)
Theorem watchdog_tick
    (lives_at : nat -> option nat)
    (now : nat -> TimePoint) (msg : CCodecWatchdog.Message)
    (wd : CCodecWatchdog.t) (heap : Heap) :
  CCodecWatchdog.what msg = CCodecWatchdog.kWhatWatch ->
  exists (wd' : CCodecWatchdog.t) (heap' : Heap),
    CCodecWatchdog.onMessageReceived lives_at now msg wd heap
      = Some (wd', heap') /\
    CCodecWatchdog.mCodecs wd'
      = filter (fun it => is_Some (heap !! it)) (CCodecWatchdog.mCodecs wd) /\
    CCodecWatchdog.posted wd'
      = CCodecWatchdog.posted wd ++ [(msg, 3000000)] /\
    forall id : nat,
      heap' !! id
        = Nat.iter
            (List.length (filter (fun it => it = id) (CCodecWatchdog.mCodecs wd)))
            (fun c => state_of (run (initiateReleaseIfStuck (now id)) c))
          <$> heap !! id.
Proof.
  intros Hw. unfold CCodecWatchdog.onMessageReceived. rewrite Hw.
  pose proof (watch_spec now (CCodecWatchdog.mCodecs wd) heap) as [Hkept Hheap].
  destruct (CCodecWatchdog.watch now heap (CCodecWatchdog.mCodecs wd))
    as [kept heap'].
  exists (CCodecWatchdog.post msg CCodecWatchdog.kWatchIntervalUs
            {| CCodecWatchdog.mCodecs := kept;
               CCodecWatchdog.posted := CCodecWatchdog.posted wd |}), heap'.
  split; [reflexivity|]. split; [exact Hkept|]. split; [reflexivity|].
  exact Hheap.
Qed.

(** Three entries: a controller that is stuck, one that is gone, one
    that is idle. *)
Lemma watchdog_tick_witness :
  let c := {| comp_id := 0; intf_getName := "c2.example.aac.dec" |} in
  let stuck := setDeadline 550
                 (set_comp (Some c) (set STARTING (CCodec_new TimePoint_max))) in
  let idle := CCodec_new TimePoint_max in
  let heap : Heap := <[2%nat := idle]> {[0%nat := stuck]} in
  let wd := {| CCodecWatchdog.mCodecs := [0; 1; 2]%nat;
               CCodecWatchdog.posted := [] |} in
  let msg := {| CCodecWatchdog.what := CCodecWatchdog.kWhatWatch;
                CCodecWatchdog.codec := None |} in
  CCodecWatchdog.what msg = CCodecWatchdog.kWhatWatch /\
  exists (wd' : CCodecWatchdog.t) (heap' : Heap) (rescued : CCodec),
    CCodecWatchdog.onMessageReceived (fun _ => None) (fun _ => 3000) msg wd heap
      = Some (wd', heap') /\
    CCodecWatchdog.mCodecs wd' = [0; 2]%nat /\
    CCodecWatchdog.posted wd' = [(msg, 3000000)] /\
    heap' !! 2%nat = Some idle /\
    heap' !! 0%nat = Some rescued /\
    get (mState rescued) = RELEASING /\
    trace rescued = [Client (onError UNKNOWN_ERROR ACTION_CODE_FATAL)].
Proof.
  intros c stuck idle heap wd msg. split; [reflexivity|].
  destruct (watchdog_tick (fun _ => None) (fun _ => 3000) msg wd heap eq_refl)
    as (wd' & heap' & Hrun & Hkept & Hposted & Hheap).
  exists wd', heap'. eexists.
  split; [exact Hrun|]. split; [exact Hkept|]. split; [exact Hposted|].
  split; [exact (Hheap 2%nat)|]. split; [exact (Hheap 0%nat)|].
  split; reflexivity.
Defined.

(** ** The watchdog in the process *)

Lemma registering_Permutation (l l' : list (CCodecWatchdog.Message * Z)) :
  l ≡ₚ l' -> registering l ≡ₚ registering l'.
Proof. intros H. unfold registering. now rewrite H. Qed.

Lemma watches_Permutation (l l' : list (CCodecWatchdog.Message * Z)) :
  l ≡ₚ l' ->
  List.length (filter is_watch l) = List.length (filter is_watch l').
Proof. intros H. now rewrite H. Qed.

Lemma registering_app (l l' : list (CCodecWatchdog.Message * Z)) :
  registering (l ++ l') = registering l ++ registering l'.
Proof. apply omap_app. Qed.

Lemma watches_cons (m : CCodecWatchdog.Message * Z)
    (l : list (CCodecWatchdog.Message * Z)) :
  List.length (filter is_watch (m :: l))
    = ((if is_watch m then 1 else 0) + List.length (filter is_watch l))%nat.
Proof.
  destruct (is_watch m) eqn:Hm.
  - rewrite filter_cons_True by (rewrite Hm; exact I). reflexivity.
  - rewrite filter_cons_False by (rewrite Hm; exact id). reflexivity.
Qed.

Lemma watch_keeps_controllers (now : nat -> TimePoint) (codecs : list nat)
    (heap : Heap) (id : nat) :
  is_Some ((CCodecWatchdog.watch now heap codecs).2 !! id)
    <-> is_Some (heap !! id).
Proof.
  destruct (watch_spec now codecs heap) as [_ H]. rewrite H.
  apply fmap_is_Some.
Qed.

(** What a delivery takes from the messages on their way. *)
Lemma registering_taken (posted : list (CCodecWatchdog.Message * Z))
    (i : nat) (msg : CCodecWatchdog.Message) (delay : Z) :
  posted !! i = Some (msg, delay) ->
  registering posted
    ≡ₚ match CCodecWatchdog.what msg with
       | CCodecWatchdog.kWhatRegister =>
           match CCodecWatchdog.codec msg with
           | Some ptr => [ptr]
           | None => []
           end
       | _ => []
       end ++ registering (delete i posted).
Proof.
  intros Hi.
  rewrite (registering_Permutation _ _ (delete_Permutation _ _ _ Hi)).
  unfold registering. cbn.
  destruct (CCodecWatchdog.what msg); [|reflexivity..].
  destruct (CCodecWatchdog.codec msg); reflexivity.
Qed.

Lemma watches_taken (posted : list (CCodecWatchdog.Message * Z))
    (i : nat) (msg : CCodecWatchdog.Message) (delay : Z) :
  posted !! i = Some (msg, delay) ->
  List.length (filter is_watch posted)
    = ((match CCodecWatchdog.what msg with
        | CCodecWatchdog.kWhatWatch => 1
        | _ => 0
        end) + List.length (filter is_watch (delete i posted)))%nat.
Proof.
  intros Hi.
  rewrite (watches_Permutation _ _ (delete_Permutation _ _ _ Hi)), watches_cons.
  unfold is_watch at 1. cbn. now destruct (CCodecWatchdog.what msg).
Qed.

Lemma getInstance_sound (sInstance : option CCodecWatchdog.t) :
  match sInstance with
  | None => True
  | Some wd =>
      List.length (filter is_watch (CCodecWatchdog.posted wd)) = 1%nat /\
      Forall watchdog_message_ok (CCodecWatchdog.posted wd)
  end ->
  let wd := CCodecWatchdog.getInstance sInstance in
  List.length (filter is_watch (CCodecWatchdog.posted wd)) = 1%nat /\
  Forall watchdog_message_ok (CCodecWatchdog.posted wd) /\
  CCodecWatchdog.mCodecs wd = registry sInstance /\
  registering (CCodecWatchdog.posted wd) = registering (pending sInstance).
Proof.
  destruct sInstance as [wd|]; cbn.
  - intros [H1 H2]. auto.
  - intros _. split; [reflexivity|]. split; [|split; reflexivity].
    repeat constructor.
Qed.

Lemma watchdog_sound_start : watchdog_sound process_start.
Proof.
  split; [exact I|]. split; [|split].
  - intros this it Hit. cbn in Hit. now rewrite lookup_empty in Hit.
  - intros this this' it Hit. cbn in Hit. now rewrite lookup_empty in Hit.
  - intros it Hit. cbn in Hit. now apply elem_of_nil in Hit.
Qed.

Lemma watchdog_sound_move (m : ProcessMove) (p p' : Process) :
  watchdog_sound p -> process_move m p = Some p' -> watchdog_sound p'.
Proof.
  intros Hp Hmove. pose proof Hp as (Hwd & Hlive & Hinj & Hbound).
  destruct m as [this deadline|this|this t|i now]; cbn in Hmove.
  - destruct (address p !! this) as [there|] eqn:Hthis.
    { injection Hmove as <-. exact Hp. }
    injection Hmove as <-.
    destruct (getInstance_sound _ Hwd) as (Hone & Hok & Hreg & Hpend).
    revert Hone Hok Hreg Hpend.
    generalize (CCodecWatchdog.getInstance (sInstance p)).
    intros wd Hone Hok Hreg Hpend. unfold watchdog_sound.
    cbn [sInstance heap address next_id CCodecWatchdog.registerCodec
         CCodecWatchdog.post registry pending
         CCodecWatchdog.posted CCodecWatchdog.mCodecs].
    rewrite registering_app, Hreg, Hpend.
    split; [split|split; [|split]].
    + rewrite filter_app, length_app, Hone. reflexivity.
    + apply Forall_app. split; [exact Hok|]. repeat constructor. cbn. eauto.
    + intros this0 it Hit.
      destruct (decide (this = this0)) as [<-|Hne].
      * rewrite lookup_insert_eq in Hit. injection Hit as <-.
        rewrite lookup_insert_eq. split; [eauto|]. split; [lia|].
        right. apply elem_of_app. right. apply list_elem_of_here.
      * rewrite lookup_insert_ne in Hit by exact Hne.
        destruct (Hlive _ _ Hit) as (Hheap & Hlt & Hknown).
        rewrite lookup_insert_ne by lia. split; [exact Hheap|].
        split; [lia|]. destruct Hknown as [Hk|Hk]; [now left|].
        right. apply elem_of_app. now left.
    + intros this0 this1 it H0 H1.
      destruct (decide (this = this0)) as [<-|Hne0];
        destruct (decide (this = this1)) as [<-|Hne1]; [reflexivity| | |].
      * rewrite lookup_insert_eq in H0. injection H0 as <-.
        rewrite lookup_insert_ne in H1 by exact Hne1.
        destruct (Hlive _ _ H1) as (_ & Hlt & _). lia.
      * rewrite lookup_insert_eq in H1. injection H1 as <-.
        rewrite lookup_insert_ne in H0 by exact Hne0.
        destruct (Hlive _ _ H0) as (_ & Hlt & _). lia.
      * rewrite lookup_insert_ne in H0 by exact Hne0.
        rewrite lookup_insert_ne in H1 by exact Hne1. eauto.
    + intros it Hit. apply Hbound in Hit. lia.
  - destruct (address p !! this) as [there|] eqn:Hthis.
    2:{ injection Hmove as <-. exact Hp. }
    injection Hmove as <-. unfold watchdog_sound. cbn.
    split; [exact Hwd|]. split; [|split; [|exact Hbound]].
    + intros this0 it Hit. apply lookup_delete_Some in Hit as [Hne Hit].
      destruct (Hlive _ _ Hit) as (Hheap & Hlt & Hknown).
      split; [|split; assumption].
      rewrite lookup_delete_ne; [exact Hheap|].
      intros <-. apply Hne. eapply Hinj; eassumption.
    + intros this0 this1 it H0 H1.
      apply lookup_delete_Some in H0 as [_ H0].
      apply lookup_delete_Some in H1 as [_ H1]. eauto.
  - destruct (address p !! this) as [there|] eqn:Hthis.
    2:{ injection Hmove as <-. exact Hp. }
    destruct (heap p !! there) as [codec|] eqn:Hthere.
    2:{ injection Hmove as <-. exact Hp. }
    destruct (run t codec) as [codec'|]; [|discriminate].
    injection Hmove as <-. unfold watchdog_sound. cbn.
    split; [exact Hwd|]. split; [|split; [exact Hinj|exact Hbound]].
    intros this0 it Hit. destruct (Hlive _ _ Hit) as (Hheap & Hrest).
    split; [|exact Hrest].
    destruct (decide (there = it)) as [<-|Hne].
    + rewrite lookup_insert_eq. eauto.
    + now rewrite lookup_insert_ne.
  - destruct (sInstance p) as [wd|] eqn:Hinst.
    2:{ injection Hmove as <-. exact Hp. }
    destruct (CCodecWatchdog.posted wd !! i) as [[msg delay]|] eqn:Hi.
    2:{ injection Hmove as <-. exact Hp. }
    destruct Hwd as [Hone Hok].
    pose proof (watches_taken _ _ _ _ Hi) as Hone'.
    pose proof (registering_taken _ _ _ _ Hi) as Hreg.
    pose proof (proj1 (Forall_lookup _ _) Hok i _ Hi) as Hmsg.
    assert (Hrest : Forall watchdog_message_ok
                      (delete i (CCodecWatchdog.posted wd)))
      by (apply Forall_delete; exact Hok).
    rewrite Hone in Hone'. cbn [registry pending] in Hlive, Hbound.
    unfold CCodecWatchdog.onMessageReceived in Hmove.
    unfold watchdog_message_ok in Hmsg.
    cbn [fst CCodecWatchdog.mCodecs CCodecWatchdog.posted] in *.
    destruct (CCodecWatchdog.what msg) eqn:Hwhat; [| |contradiction].
    + destruct Hmsg as [ptr Hptr]. rewrite Hptr in Hmove, Hreg.
      destruct (address p !! ptr) as [it|] eqn:Hc; [|discriminate].
      injection Hmove as <-. unfold watchdog_sound.
      cbn [sInstance heap address next_id registry pending
           CCodecWatchdog.mCodecs CCodecWatchdog.posted].
      split; [split; [lia|exact Hrest]|]. split; [|split; [exact Hinj|]].
      * intros this0 it0 Hit0.
        destruct (Hlive _ _ Hit0) as (Hheap & Hlt & Hknown).
        split; [exact Hheap|]. split; [exact Hlt|].
        destruct Hknown as [Hk|Hk].
        -- left. apply elem_of_app. now left.
        -- rewrite Hreg in Hk. apply elem_of_app in Hk as [Hk|Hk]; [|now right].
           apply list_elem_of_singleton in Hk. subst this0.
           left. apply elem_of_app. right.
           rewrite Hc in Hit0. injection Hit0 as <-. apply list_elem_of_here.
      * intros it0 Hit0. apply elem_of_app in Hit0 as [Hit0|Hit0]; [auto|].
        apply list_elem_of_singleton in Hit0. subst it0.
        now destruct (Hlive _ _ Hc) as (_ & Hlt & _).
    + destruct (CCodecWatchdog.watch now (heap p) (CCodecWatchdog.mCodecs wd))
        as [kept heap'] eqn:Hwatch.
      injection Hmove as <-. unfold watchdog_sound.
      cbn [sInstance heap address next_id registry pending
           CCodecWatchdog.mCodecs CCodecWatchdog.posted CCodecWatchdog.post].
      pose proof (watch_spec now (CCodecWatchdog.mCodecs wd) (heap p)) as [Hkept _].
      pose proof (watch_keeps_controllers now (CCodecWatchdog.mCodecs wd) (heap p))
        as Hdom.
      rewrite Hwatch in Hkept, Hdom. cbn [fst snd] in Hkept, Hdom.
      cbn [app] in Hreg.
      assert (Hsame : registering (delete i (CCodecWatchdog.posted wd)
                                     ++ [(msg, CCodecWatchdog.kWatchIntervalUs)])
                      = registering (delete i (CCodecWatchdog.posted wd))).
      { rewrite registering_app. unfold registering at 2. cbn.
        rewrite Hwhat. apply app_nil_r. }
      rewrite Hsame.
      split; [split|split; [|split; [exact Hinj|]]].
      * assert (Hw : is_watch (msg, CCodecWatchdog.kWatchIntervalUs) = true)
          by (unfold is_watch; cbn; now rewrite Hwhat).
        rewrite filter_app, length_app, (watches_cons _ []), Hw. cbn. lia.
      * apply Forall_app. split; [exact Hrest|]. repeat constructor.
        unfold watchdog_message_ok. cbn. now rewrite Hwhat.
      * intros this0 it0 Hit0.
        destruct (Hlive _ _ Hit0) as (Hheap & Hlt & Hknown).
        split; [now apply Hdom|]. split; [exact Hlt|].
        destruct Hknown as [Hk|Hk]; [left|right; now rewrite <- Hreg].
        rewrite Hkept. apply list_elem_of_filter. split; assumption.
      * intros it0 Hit0. apply Hbound. rewrite Hkept in Hit0.
        now apply list_elem_of_filter in Hit0 as [_ Hit0].
Qed.

Lemma watchdog_sound_moves (ms : list ProcessMove) (p p' : Process) :
  watchdog_sound p -> process_moves ms p = Some p' -> watchdog_sound p'.
Proof.
  revert p. induction ms as [|m ms IH]; intros p Hp Hmoves; cbn in Hmoves.
  - now injection Hmoves as <-.
  - destruct (process_move m p) as [p1|] eqn:Hm; [|discriminate].
    eapply IH; [|exact Hmoves]. eapply watchdog_sound_move; eassumption.
Qed.

Lemma registered_once_start : registered_once process_start.
Proof.
  split; [constructor|]. split; [constructor|].
  intros this Hthis. cbn in Hthis. now apply elem_of_nil in Hthis.
Qed.

(** One move of a run in which no controller is destroyed with a
    registration of its address on its way. *)
Lemma registered_once_move (m : ProcessMove) (p p' : Process) :
  watchdog_sound p -> registered_once p ->
  match m with
  | Delete_CCodec this => this ∉ registering (pending (sInstance p))
  | _ => True
  end ->
  process_move m p = Some p' -> registered_once p'.
Proof.
  intros (Hwd & Hlive & Hinj & Hbound) Hp Horder Hmove.
  pose proof Hp as (Hregistry & Hpending & Hdue).
  destruct m as [this deadline|this|this t|i now]; cbn in Hmove.
  - destruct (address p !! this) as [there|] eqn:Hthis.
    { injection Hmove as <-. exact Hp. }
    injection Hmove as <-.
    destruct (getInstance_sound _ Hwd) as (_ & _ & Hreg & Hpend).
    revert Hreg Hpend. generalize (CCodecWatchdog.getInstance (sInstance p)).
    intros wd Hreg Hpend. unfold registered_once.
    cbn [sInstance heap address next_id CCodecWatchdog.registerCodec
         CCodecWatchdog.post registry pending
         CCodecWatchdog.posted CCodecWatchdog.mCodecs].
    rewrite registering_app, Hreg, Hpend. cbn [registering omap fst
      CCodecWatchdog.what CCodecWatchdog.codec].
    split; [exact Hregistry|]. split.
    + apply NoDup_app. split; [exact Hpending|]. split; [|apply NoDup_singleton].
      intros this0 Hin Hthis0. apply list_elem_of_singleton in Hthis0. subst this0.
      destruct (Hdue _ Hin) as (it & Hit & _). congruence.
    + intros this0 Hin. apply elem_of_app in Hin as [Hin|Hin].
      * destruct (Hdue _ Hin) as (it & Hit & Hnot). exists it.
        split; [|exact Hnot]. rewrite lookup_insert_ne; [exact Hit|].
        intros <-. congruence.
      * apply list_elem_of_singleton in Hin. subst this0. exists (next_id p).
        split; [apply lookup_insert_eq|]. intros Hin. apply Hbound in Hin. lia.
  - destruct (address p !! this) as [there|] eqn:Hthis.
    2:{ injection Hmove as <-. exact Hp. }
    injection Hmove as <-. unfold registered_once. cbn.
    split; [exact Hregistry|]. split; [exact Hpending|].
    intros this0 Hin. destruct (Hdue _ Hin) as (it & Hit & Hnot). exists it.
    split; [|exact Hnot]. rewrite lookup_delete_ne; [exact Hit|].
    intros <-. contradiction.
  - destruct (address p !! this) as [there|] eqn:Hthis.
    2:{ injection Hmove as <-. exact Hp. }
    destruct (heap p !! there) as [codec|] eqn:Hthere.
    2:{ injection Hmove as <-. exact Hp. }
    destruct (run t codec) as [codec'|]; [|discriminate].
    injection Hmove as <-. exact Hp.
  - destruct (sInstance p) as [wd|] eqn:Hinst.
    2:{ injection Hmove as <-. unfold registered_once. now rewrite Hinst. }
    destruct (CCodecWatchdog.posted wd !! i) as [[msg delay]|] eqn:Hi.
    2:{ injection Hmove as <-. unfold registered_once. now rewrite Hinst. }
    destruct Hwd as [_ Hok].
    pose proof (registering_taken _ _ _ _ Hi) as Hreg.
    pose proof (proj1 (Forall_lookup _ _) Hok i _ Hi) as Hmsg.
    cbn [registry pending] in *.
    unfold CCodecWatchdog.onMessageReceived in Hmove.
    unfold watchdog_message_ok in Hmsg.
    cbn [fst CCodecWatchdog.mCodecs CCodecWatchdog.posted] in *.
    destruct (CCodecWatchdog.what msg) eqn:Hwhat; [| |contradiction].
    + destruct Hmsg as [ptr Hptr]. rewrite Hptr in Hmove, Hreg.
      destruct (address p !! ptr) as [it|] eqn:Hc; [|discriminate].
      injection Hmove as <-. unfold registered_once.
      cbn [sInstance heap address next_id registry pending
           CCodecWatchdog.mCodecs CCodecWatchdog.posted].
      cbn [app] in Hreg. rewrite Hreg in Hpending.
      apply NoDup_cons in Hpending as [Hfresh Hpending].
      assert (Hptr_due : ptr ∈ registering (CCodecWatchdog.posted wd))
        by (rewrite Hreg; apply list_elem_of_here).
      destruct (Hdue _ Hptr_due) as (it' & Hit' & Hnot).
      assert (it' = it) by congruence. subst it'.
      split; [|split; [exact Hpending|]].
      * apply NoDup_app. split; [exact Hregistry|].
        split; [|apply NoDup_singleton].
        intros it0 Hin Hit0. apply list_elem_of_singleton in Hit0. now subst it0.
      * intros this0 Hin.
        assert (Hin' : this0 ∈ registering (CCodecWatchdog.posted wd))
          by (rewrite Hreg; now apply list_elem_of_further).
        destruct (Hdue _ Hin') as (it0 & Hit0 & Hnot0). exists it0.
        split; [exact Hit0|]. intros Hc0.
        apply elem_of_app in Hc0 as [Hc0|Hc0]; [contradiction|].
        apply list_elem_of_singleton in Hc0. subst it0.
        assert (this0 = ptr) by (eapply Hinj; eassumption). now subst this0.
    + destruct (CCodecWatchdog.watch now (heap p) (CCodecWatchdog.mCodecs wd))
        as [kept heap'] eqn:Hwatch.
      injection Hmove as <-. unfold registered_once.
      cbn [sInstance heap address next_id registry pending
           CCodecWatchdog.mCodecs CCodecWatchdog.posted CCodecWatchdog.post].
      pose proof (watch_spec now (CCodecWatchdog.mCodecs wd) (heap p)) as [Hkept _].
      rewrite Hwatch in Hkept. cbn [fst snd] in Hkept. cbn [app] in Hreg.
      assert (Hsame : registering (delete i (CCodecWatchdog.posted wd)
                                     ++ [(msg, CCodecWatchdog.kWatchIntervalUs)])
                      = registering (delete i (CCodecWatchdog.posted wd))).
      { rewrite registering_app. unfold registering at 2. cbn.
        rewrite Hwhat. apply app_nil_r. }
      rewrite Hsame, Hkept.
      split; [now apply NoDup_filter|]. split; [now rewrite <- Hreg|].
      intros this0 Hin. rewrite <- Hreg in Hin.
      destruct (Hdue _ Hin) as (it0 & Hit0 & Hnot0). exists it0.
      split; [exact Hit0|]. intros Hc0.
      now apply list_elem_of_filter in Hc0 as [_ Hc0].
Qed.

Lemma registered_once_moves (ms : list ProcessMove) (p p' : Process) :
  orderly ms p = true ->
  watchdog_sound p -> registered_once p ->
  process_moves ms p = Some p' ->
  watchdog_sound p' /\ registered_once p'.
Proof.
  revert p. induction ms as [|m ms IH]; intros p Horder Hsound Honce Hmoves;
    cbn in Hmoves, Horder.
  - injection Hmoves as <-. now split.
  - destruct (process_move m p) as [p1|] eqn:Hm; [|discriminate].
    apply andb_prop in Horder as [Hm_ok Horder].
    apply (IH p1 Horder); [eapply watchdog_sound_move; eassumption| |exact Hmoves].
    eapply registered_once_move; [exact Hsound|exact Honce| |exact Hm].
    destruct m; try exact I.
    apply negb_true_iff, bool_decide_eq_false in Hm_ok. exact Hm_ok.
Qed.

Lemma NoDup_occurrences (l : list nat) (id : nat) :
  NoDup l ->
  List.length (filter (fun it => it = id) l)
    = if decide (id ∈ l) then 1%nat else 0%nat.
Proof.
  induction 1 as [|x l Hx Hl IH].
  - reflexivity.
  - destruct (decide (x = id)) as [->|Hne].
    + rewrite filter_cons_True by reflexivity. cbn [List.length].
      rewrite IH, decide_False by exact Hx.
      rewrite decide_True by apply list_elem_of_here. reflexivity.
    + rewrite filter_cons_False, IH by exact Hne.
      destruct (decide (id ∈ l)) as [Hin|Hin].
      * rewrite decide_True by now apply list_elem_of_further. reflexivity.
      * rewrite decide_False; [reflexivity|].
        intros Hc. apply elem_of_cons in Hc as [Hc|Hc]; congruence.
Qed.

(** A registration on its way is a message on its way. *)
Lemma pending_registration (posted : list (CCodecWatchdog.Message * Z))
    (i : nat) (ptr : nat) (delay : Z) :
  posted !! i
    = Some ({| CCodecWatchdog.what := CCodecWatchdog.kWhatRegister;
               CCodecWatchdog.codec := Some ptr |}, delay) ->
  ptr ∈ registering posted.
Proof.
  intros Hi. apply list_elem_of_omap. eexists. split.
  - eapply list_elem_of_lookup_2, Hi.
  - reflexivity.
Qed.

(** What ends the process when the watchdog is handed a message that is
    on its way to it. *)
Lemma delivery_ends (p : Process) (i : nat) (now : nat -> TimePoint) :
  watchdog_sound p ->
  process_move (Watchdog_delivers i now) p = None <->
  exists (wd : CCodecWatchdog.t) (ptr : nat) (delay : Z),
    sInstance p = Some wd /\
    CCodecWatchdog.posted wd !! i
      = Some ({| CCodecWatchdog.what := CCodecWatchdog.kWhatRegister;
                 CCodecWatchdog.codec := Some ptr |}, delay) /\
    address p !! ptr = None.
Proof.
  intros (Hwd & _). split.
  - intros Hend. cbn in Hend.
    destruct (sInstance p) as [wd|]; [|discriminate].
    destruct (CCodecWatchdog.posted wd !! i) as [[msg delay]|] eqn:Hi;
      [|discriminate].
    destruct Hwd as [_ Hok].
    pose proof (proj1 (Forall_lookup _ _) Hok i _ Hi) as Hmsg.
    unfold watchdog_message_ok in Hmsg. cbn [fst] in Hmsg.
    unfold CCodecWatchdog.onMessageReceived in Hend.
    destruct msg as [what codec]. cbn in Hmsg, Hend.
    destruct what; [| |contradiction].
    + destruct Hmsg as [ptr ->].
      destruct (address p !! ptr) eqn:Hptr; [discriminate|].
      exists wd, ptr, delay. auto.
    + destruct (CCodecWatchdog.watch now (heap p) (CCodecWatchdog.mCodecs wd)).
      discriminate.
  - intros (wd & ptr & delay & Hinst & Hi & Hptr).
    cbn. rewrite Hinst, Hi. unfold CCodecWatchdog.onMessageReceived. cbn.
    now rewrite Hptr.
Qed.

(** X25: the watchdog knows every controller.  Whatever controllers are
    made and destroyed, at whichever addresses, whatever happens within
    them and whichever messages the watchdog has handled: every
    controller alive is in the watchdog's registry, or a registration of
    its address is on its way to the watchdog; and once the watchdog is
    there, one [kWhatWatch] is on its way to it, no more and no less. *)
Theorem watchdog_knows_every_controller (ms : list ProcessMove) (p : Process) :
  process_moves ms process_start = Some p ->
  (forall this it : nat, address p !! this = Some it ->
     exists wd : CCodecWatchdog.t,
       sInstance p = Some wd /\
       is_Some (heap p !! it) /\
       (it ∈ CCodecWatchdog.mCodecs wd \/
        this ∈ registering (CCodecWatchdog.posted wd))) /\
  (forall wd : CCodecWatchdog.t, sInstance p = Some wd ->
     List.length (filter is_watch (CCodecWatchdog.posted wd)) = 1%nat).
Proof.
  intros Hmoves.
  destruct (watchdog_sound_moves ms _ _ watchdog_sound_start Hmoves)
    as (Hwd & Hlive & _).
  split.
  - intros this it Hit. destruct (Hlive _ _ Hit) as (Hheap & _ & Hknown).
    destruct (sInstance p) as [wd|].
    + exists wd. auto.
    + cbn in Hknown. destruct Hknown as [H|H]; now apply elem_of_nil in H.
  - intros wd Hinst. rewrite Hinst in Hwd. apply Hwd.
Qed.

(** Two controllers, the first one registered, the second one not yet. *)
Lemma watchdog_knows_every_controller_witness :
  let ms := [New_CCodec 40 TimePoint_max; New_CCodec 48 TimePoint_max;
             Watchdog_delivers 1 (fun _ => 0)] in
  exists (p : Process) (wd : CCodecWatchdog.t),
    process_moves ms process_start = Some p /\
    sInstance p = Some wd /\
    address p !! 40%nat = Some 0%nat /\
    address p !! 48%nat = Some 1%nat /\
    CCodecWatchdog.mCodecs wd = [0%nat] /\
    registering (CCodecWatchdog.posted wd) = [48%nat] /\
    is_Some (heap p !! 1%nat) /\
    List.length (filter is_watch (CCodecWatchdog.posted wd)) = 1%nat.
Proof.
  intros ms. eexists. eexists.
  split; [reflexivity|]. split; [reflexivity|].
  split; [reflexivity|]. split; [reflexivity|].
  split; [reflexivity|]. split; [reflexivity|].
  destruct (watchdog_knows_every_controller ms _ eq_refl) as [Hlive Hone].
  split.
  - destruct (Hlive 48%nat 1%nat eq_refl) as (wd & _ & Hheap & _). exact Hheap.
  - apply Hone. reflexivity.
Defined.

(** X26: the watchdog's handler fails no [CHECK] and never reaches its
    [TRESPASS].  In a process that has got anywhere from its start,
    handing the watchdog one of the messages on their way to it ends the
    process in one case only: the message is a registration, and no
    controller is alive at the address it carries (the controller that
    posted it has been destroyed, and no other has been made there
    since). *)
Theorem watchdog_ends_on_dangling_registration
    (ms : list ProcessMove) (p : Process) (i : nat) (now : nat -> TimePoint) :
  process_moves ms process_start = Some p ->
  process_move (Watchdog_delivers i now) p = None <->
  exists (wd : CCodecWatchdog.t) (ptr : nat) (delay : Z),
    sInstance p = Some wd /\
    CCodecWatchdog.posted wd !! i
      = Some ({| CCodecWatchdog.what := CCodecWatchdog.kWhatRegister;
                 CCodecWatchdog.codec := Some ptr |}, delay) /\
    address p !! ptr = None.
Proof.
  intros Hmoves. apply delivery_ends.
  exact (watchdog_sound_moves ms _ _ watchdog_sound_start Hmoves).
Qed.

(** A controller destroyed before the watchdog has taken its
    registration. *)
Lemma watchdog_ends_on_dangling_registration_witness :
  let ms := [New_CCodec 40 TimePoint_max; Delete_CCodec 40] in
  exists p : Process,
    process_moves ms process_start = Some p /\
    process_move (Watchdog_delivers 1 (fun _ => 0)) p = None.
Proof.
  intros ms. eexists. split; [reflexivity|].
  apply (watchdog_ends_on_dangling_registration ms _ 1 (fun _ => 0) eq_refl).
  exists (CCodecWatchdog.registerCodec 40 CCodecWatchdog.init), 40%nat, 0.
  repeat split; reflexivity.
Defined.

(** X27: a tick in a run without early destruction.  In a process in
    which no controller has been destroyed while a registration of its
    address was on its way: when the watchdog is handed its
    [kWhatWatch], every controller alive that is in the registry is
    asked [initiateReleaseIfStuck] once (the controllers' other threads
    standing still meanwhile), and a controller whose registration is
    still on its way is not asked; the registry loses the entries of the
    controllers destroyed and nothing else, and the registrations on
    their way stay. *)
Theorem tick_polls_registered_controllers_once
    (ms : list ProcessMove) (p : Process) (i : nat) (now : nat -> TimePoint)
    (wd : CCodecWatchdog.t) (msg : CCodecWatchdog.Message) (delay : Z) :
  orderly ms process_start = true ->
  process_moves ms process_start = Some p ->
  sInstance p = Some wd ->
  CCodecWatchdog.posted wd !! i = Some (msg, delay) ->
  CCodecWatchdog.what msg = CCodecWatchdog.kWhatWatch ->
  exists (p' : Process) (wd' : CCodecWatchdog.t),
    process_move (Watchdog_delivers i now) p = Some p' /\
    sInstance p' = Some wd' /\
    address p' = address p /\
    CCodecWatchdog.mCodecs wd'
      = filter (fun it => is_Some (heap p !! it)) (CCodecWatchdog.mCodecs wd) /\
    registering (CCodecWatchdog.posted wd')
      ≡ₚ registering (CCodecWatchdog.posted wd) /\
    forall id : nat,
      heap p' !! id
        = (fun c => if decide (id ∈ CCodecWatchdog.mCodecs wd)
                    then state_of (run (initiateReleaseIfStuck (now id)) c)
                    else c) <$> heap p !! id.
Proof.
  intros Horder Hmoves Hinst Hi Hwhat.
  destruct (registered_once_moves ms _ _ Horder watchdog_sound_start
              registered_once_start Hmoves) as (_ & Hnodup & _).
  rewrite Hinst in Hnodup. cbn in Hnodup.
  cbn. rewrite Hinst, Hi. unfold CCodecWatchdog.onMessageReceived.
  rewrite Hwhat. cbn [CCodecWatchdog.mCodecs CCodecWatchdog.posted].
  pose proof (watch_spec now (CCodecWatchdog.mCodecs wd) (heap p))
    as [Hkept Hheap].
  destruct (CCodecWatchdog.watch now (heap p) (CCodecWatchdog.mCodecs wd))
    as [kept heap'].
  cbn [fst snd] in Hkept, Hheap.
  eexists. eexists. split; [reflexivity|]. split; [reflexivity|].
  cbn [CCodecWatchdog.mCodecs CCodecWatchdog.posted CCodecWatchdog.post
       heap address].
  split; [reflexivity|]. split; [exact Hkept|]. split.
  - rewrite registering_app. unfold registering at 2. cbn. rewrite Hwhat.
    rewrite app_nil_r, (registering_taken _ _ _ _ Hi), Hwhat. reflexivity.
  - intros id. rewrite Hheap, NoDup_occurrences by exact Hnodup.
    destruct (decide (id ∈ CCodecWatchdog.mCodecs wd)); reflexivity.
Qed.

(** A stuck controller in the registry and one whose registration is
    on its way: the tick rescues the first and leaves the second. *)
Lemma tick_polls_registered_controllers_once_witness :
  let c := {| comp_id := 0; intf_getName := "c2.example.aac.dec" |} in
  let stuck :=
    (do (fun s => setDeadline 550 (set_comp (Some c) (set STARTING s)));
     Return)%thread in
  let ms := [New_CCodec 40 TimePoint_max; Watchdog_delivers 1 (fun _ => 0);
             New_CCodec 48 TimePoint_max;
             Inside_CCodec 40 stuck; Inside_CCodec 48 stuck] in
  orderly ms process_start = true /\
  exists (p p' : Process) (rescued waiting : CCodec),
    process_moves ms process_start = Some p /\
    process_move (Watchdog_delivers 0 (fun _ => 3000)) p = Some p' /\
    heap p' !! 0%nat = Some rescued /\
    get (mState rescued) = RELEASING /\
    trace rescued
      = [Client (Callback.onError UNKNOWN_ERROR ACTION_CODE_FATAL)] /\
    heap p' !! 1%nat = Some waiting /\
    get (mState waiting) = STARTING /\
    trace waiting = [].
Proof.
  intros c stuck ms. split; [reflexivity|].
  destruct (tick_polls_registered_controllers_once ms _ 0 (fun _ => 3000) _ _ _
              eq_refl eq_refl eq_refl eq_refl eq_refl)
    as (p' & wd' & Hmove & _ & _ & _ & _ & Hheap).
  eexists. exists p'. eexists. eexists.
  split; [reflexivity|]. split; [exact Hmove|].
  split; [exact (Hheap 0%nat)|]. split; [reflexivity|]. split; [reflexivity|].
  split; [exact (Hheap 1%nat)|]. split; reflexivity.
Defined.

(** X28: a run without early destruction.  In a process in which no
    controller has been destroyed while a registration of its address was
    on its way, handing the watchdog any of the messages on their way to
    it never ends the process, and every controller alive is known to
    the watchdog exactly once: it is once in the registry, or one
    registration of its address is on its way, and not both. *)
Theorem no_early_destruction_registers_once
    (ms : list ProcessMove) (p : Process) :
  orderly ms process_start = true ->
  process_moves ms process_start = Some p ->
  (forall (i : nat) (now : nat -> TimePoint),
     process_move (Watchdog_delivers i now) p <> None) /\
  (forall this it : nat, address p !! this = Some it ->
     exists wd : CCodecWatchdog.t,
       sInstance p = Some wd /\
       (List.length (filter (fun entry => entry = it)
                       (CCodecWatchdog.mCodecs wd))
        + List.length (filter (fun ptr => ptr = this)
                         (registering (CCodecWatchdog.posted wd))))%nat
       = 1%nat).
Proof.
  intros Horder Hmoves.
  destruct (registered_once_moves ms _ _ Horder watchdog_sound_start
              registered_once_start Hmoves)
    as (Hsound & Hregistry & Hpending & Hdue).
  split.
  - intros i now Hend.
    apply (delivery_ends _ _ _ Hsound) in Hend
      as (wd & ptr & delay & Hinst & Hi & Hptr).
    apply pending_registration in Hi.
    rewrite Hinst in Hdue. destruct (Hdue _ Hi) as (it & Hit & _). congruence.
  - intros this it Hit.
    destruct Hsound as (_ & Hlive & _).
    destruct (Hlive _ _ Hit) as (_ & _ & Hknown).
    destruct (sInstance p) as [wd|];
      [|cbn in Hknown; destruct Hknown as [H|H]; now apply elem_of_nil in H].
    exists wd. split; [reflexivity|]. cbn [registry pending] in *.
    rewrite !NoDup_occurrences by assumption.
    destruct (decide (it ∈ CCodecWatchdog.mCodecs wd)) as [Hin|Hin];
      destruct (decide (this ∈ registering (CCodecWatchdog.posted wd)))
        as [Hin'|Hin']; [|reflexivity|reflexivity|tauto].
    destruct (Hdue _ Hin') as (it' & Hit' & Hnot). congruence.
Qed.

(** A controller destroyed after the watchdog has taken its
    registration, and another made at its address. *)
Lemma no_early_destruction_registers_once_witness :
  let ms := [New_CCodec 40 TimePoint_max; Watchdog_delivers 1 (fun _ => 0);
             Delete_CCodec 40; New_CCodec 40 TimePoint_max] in
  orderly ms process_start = true /\
  exists (p p' : Process) (wd wd' : CCodecWatchdog.t),
    process_moves ms process_start = Some p /\
    sInstance p = Some wd /\
    address p !! 40%nat = Some 1%nat /\
    CCodecWatchdog.mCodecs wd = [0%nat] /\
    registering (CCodecWatchdog.posted wd) = [40%nat] /\
    process_move (Watchdog_delivers 1 (fun _ => 0)) p <> None /\
    process_move (Watchdog_delivers 1 (fun _ => 0)) p = Some p' /\
    sInstance p' = Some wd' /\
    CCodecWatchdog.mCodecs wd' = [0%nat; 1%nat].
Proof.
  intros ms. split; [reflexivity|].
  destruct (no_early_destruction_registers_once ms _ eq_refl eq_refl)
    as [Hgoes _].
  eexists. eexists. eexists. eexists.
  split; [reflexivity|]. split; [reflexivity|]. split; [reflexivity|].
  split; [reflexivity|]. split; [reflexivity|].
  split; [exact (Hgoes 1%nat (fun _ => 0))|].
  split; [reflexivity|]. split; reflexivity.
Defined.

(** X29: a registration taken for a controller that did not post it.
    A controller is made at an address and destroyed before the watchdog
    has taken its registration; another controller is made at the same
    address, and the watchdog then takes the two registrations.  Both
    make a weak reference to the second controller: it is in the registry
    twice, and every tick asks it [initiateReleaseIfStuck] twice. *)
Theorem reused_address_is_registered_twice
    (this : nat) (first second : TimePoint) (now now' : nat -> TimePoint) :
  let ms := [New_CCodec this first; Delete_CCodec this;
             New_CCodec this second;
             Watchdog_delivers 1 now; Watchdog_delivers 1 now] in
  let poll := fun c => state_of (run (initiateReleaseIfStuck (now' 1%nat)) c) in
  orderly ms process_start = false /\
  exists (p p' : Process) (wd wd' : CCodecWatchdog.t),
    process_moves ms process_start = Some p /\
    sInstance p = Some wd /\
    address p !! this = Some 1%nat /\
    heap p !! 1%nat = Some (CCodec_new second) /\
    CCodecWatchdog.mCodecs wd = [1%nat; 1%nat] /\
    registering (CCodecWatchdog.posted wd) = [] /\
    process_move (Watchdog_delivers 0 now') p = Some p' /\
    sInstance p' = Some wd' /\
    CCodecWatchdog.mCodecs wd' = [1%nat; 1%nat] /\
    heap p' !! 1%nat = Some (poll (poll (CCodec_new second))).
Proof.
  intros ms poll.
  assert (Hrun : process_moves ms process_start
                 = Some {| sInstance :=
                             Some {| CCodecWatchdog.mCodecs := [1%nat; 1%nat];
                                     CCodecWatchdog.posted :=
                                       [({| CCodecWatchdog.what :=
                                              CCodecWatchdog.kWhatWatch;
                                            CCodecWatchdog.codec := None |},
                                         CCodecWatchdog.kWatchIntervalUs)] |};
                           heap := <[1%nat := CCodec_new second]>
                                     (delete 0%nat
                                        (<[0%nat := CCodec_new first]> ∅));
                           address := <[this := 1%nat]>
                                        (delete this (<[this := 0%nat]> ∅));
                           next_id := 2 |}).
  { cbn. rewrite lookup_empty. cbn. rewrite lookup_insert_eq. cbn.
    rewrite lookup_delete_eq. cbn. rewrite lookup_insert_eq. cbn.
    rewrite lookup_insert_eq. reflexivity. }
  split.
  - cbn. rewrite lookup_empty. cbn.
    rewrite bool_decide_eq_true_2 by apply list_elem_of_here. reflexivity.
  - eexists. eexists. eexists. eexists.
    split; [exact Hrun|]. cbn [sInstance address heap].
    split; [reflexivity|]. split; [apply lookup_insert_eq|].
    split; [apply lookup_insert_eq|].
    cbn [CCodecWatchdog.mCodecs CCodecWatchdog.posted].
    split; [reflexivity|]. split; [reflexivity|].
    split.
    { cbn. rewrite lookup_insert_eq. cbn. rewrite lookup_insert_eq.
      reflexivity. }
    cbn [sInstance heap CCodecWatchdog.mCodecs CCodecWatchdog.post].
    split; [reflexivity|]. split; [reflexivity|].
    apply lookup_insert_eq.
Qed.
